(** * ilkapp: optimistic mutations and the media attachment pipeline

    A shallow embedding of the handlers of the task detail screen
    (src/screens/TaskDetail.tsx) and of the expense form
    (src/screens/ExpenseAdd.tsx).  An [async] function becomes a tree whose
    nodes are the calls it awaits; the React state of the screen is threaded
    through the synchronous steps between two awaits. *)

From Stdlib Require Import ZArith String Ascii List Lia.
From Stdlib Require Import Floats.SpecFloat.
From stdpp Require Import prelude gmap strings pretty.

(** ** Values shared by the two screens *)

(** The [error] member of a supabase reply; only [message] is read. *)
Record PgError := { message : string }.

(** [{ data, error }] as returned by the query builder. *)
Inductive Result (A : Type) : Type :=
| Failed (error : PgError)
| Data (data : A).
Arguments Failed {A} error.
Arguments Data {A} data.

(** A thrown value seen through [e?.message]. *)
Definition Exn := option string.

(** A call that can reject: the awaited value or the thrown one. *)
Inductive Settled (A : Type) : Type :=
| Rejected (e : Exn)
| Fulfilled (a : A).
Arguments Rejected {A} e.
Arguments Fulfilled {A} a.

Inductive Feedback := FeedbackError | FeedbackSuccess.

Inductive TaskStatus := yapılacak | yapılıyor | tamamlandı | iptal.
Inductive TaskPriority := low | medium | high.

Module Task.
Record t := {
  id : Z;
  project_id : Z;
  title : string;
  description : option string;
  status : TaskStatus;
  priority : TaskPriority;
  due_date : option string;
  created_by : string;
  created_at : string;
  updated_at : string }.

(** [{ ...task, status: next }] *)
Definition with_status (x : t) (s : TaskStatus) : t :=
  {| id := id x; project_id := project_id x; title := title x;
     description := description x; status := s; priority := priority x;
     due_date := due_date x; created_by := created_by x;
     created_at := created_at x; updated_at := updated_at x |}.

(** [{ ...task, priority: next }] *)
Definition with_priority (x : t) (p : TaskPriority) : t :=
  {| id := id x; project_id := project_id x; title := title x;
     description := description x; status := status x; priority := p;
     due_date := due_date x; created_by := created_by x;
     created_at := created_at x; updated_at := updated_at x |}.
End Task.

Module MediaRow.
Record t := {
  id : Z;
  task_id : Z;
  storage_path : string;
  url : string;
  created_by : string;
  created_at : string;
  signedUrl : option string }.

(** [{ ...row, signedUrl: u }] *)
Definition with_signedUrl (x : t) (u : option string) : t :=
  {| id := id x; task_id := task_id x; storage_path := storage_path x;
     url := url x; created_by := created_by x; created_at := created_at x;
     signedUrl := u |}.
End MediaRow.

Module Toast.
Inductive kind := error | success.
Record t := { type : kind; text1 : string; text2 : string }.
End Toast.

(** The object sent by [.update(...)] on the [tasks] table. *)
Inductive TaskPatch :=
| PatchStatus (status : TaskStatus)
| PatchPriority (priority : TaskPriority).

(** The object sent by [.update(...)] on the [expenses] table. *)
Record ExpensePatch := {
  patch_amount : spec_float;
  patch_description : option string;
  patch_spent_at : option string }.

(** The row sent by [.insert(...)] on the [expenses] table. *)
Record ExpenseDraft := {
  draft_company_id : Z;
  draft_project_id : Z;
  draft_task_id : option Z;
  draft_amount : spec_float;
  draft_currency : string;
  draft_description : option string;
  draft_spent_at : string;
  draft_created_by : string }.

(** The three columns of an [expenses] row that the edit handler reads back. *)
Record ExpenseRow := {
  row_amount : spec_float;
  row_description : option string;
  row_spent_at : string }.

(** ** Calls to the collaborators

    One constructor per call site shape.  [DateNow] and [RandomBase36] are
    the two synchronous reads of the environment ([Date.now()] and
    [Math.random().toString(36)]), and [NavGoBack] is the synchronous
    [if (navRef.isReady() && navRef.canGoBack()) navRef.goBack()]; every
    other call is awaited.  The haptic calls are taken to resolve: what a
    handler does after a haptic call that rejects is not part of the
    model. *)
Inductive Call : Type :=
| HapticsSelection
| HapticsImpact
| HapticsNotification (kind : Feedback)
| TasksUpdate (patch : TaskPatch) (id : Z)
| TaskMediaSelect (task_id : Z)
| TaskMediaInsert (task_id : Z) (storage_path url : string)
| TaskMediaDelete (id : Z)
| StorageSign (bucket path : string) (ttl : Z)
| StorageRemove (bucket : string) (paths : list string)
| Manipulate (uri : string) (width : Z) (compress : spec_float)
| AuthSessionUser
| UploadAsync (url fileUri bearer : string)
| DateNow
| RandomBase36
| ExpensesUpdate (patch : ExpensePatch) (id : option Z)
| ProjectsCompany (project_id : Z)
| ExpensesInsert (draft : ExpenseDraft)
| ExpenseMediaInsert (expense_id : Z) (storage_path url created_by : string)
| NavGoBack.

(** What each call resolves to. *)
Definition Resp (c : Call) : Type :=
  match c with
  | HapticsSelection | HapticsImpact | HapticsNotification _ => unit
  | TasksUpdate _ _ => Result Task.t
  | TaskMediaSelect _ => Result (option (list MediaRow.t))
  | TaskMediaInsert _ _ _ => option PgError
  | TaskMediaDelete _ => option PgError
  | StorageSign _ _ _ => option string
  | StorageRemove _ _ => option PgError
  | Manipulate _ _ _ => Settled string
  | AuthSessionUser => Settled (option string * option string)
  | UploadAsync _ _ _ => Settled Z
  | DateNow => Z
  | RandomBase36 => string
  | ExpensesUpdate _ _ => Result ExpenseRow
  | ProjectsCompany _ => option Z
  | ExpensesInsert _ => Result Z
  | ExpenseMediaInsert _ _ _ _ => option PgError
  | NavGoBack => unit
  end.

(** The environment: the reply to the [n]-th call of a run. *)
Definition Env := nat → ∀ c : Call, Resp c.

(** A call together with the reply it got. *)
Inductive Exchange : Type := exch (c : Call) (r : Resp c).

(** ** Async functions *)

Section Async.
Context {S : Type}.

Inductive Async (A : Type) : Type :=
| Return (a : A)
| Throw (e : Exn)
| Sync (f : S → S) (k : Async A)
| Wait (c : Call) (k : Resp c → Async A).
Arguments Return {A} a.
Arguments Throw {A} e.
Arguments Sync {A} f k.
Arguments Wait {A} c k.

Fixpoint bind {A B} (m : Async A) (f : A → Async B) : Async B :=
  match m with
  | Return a => f a
  | Throw e => Throw e
  | Sync g k => Sync g (bind k f)
  | Wait c k => Wait c (λ r, bind (k r) f)
  end.

(** [try { m } catch (e) { h e }] *)
Fixpoint try_catch {A} (m : Async A) (h : Exn → Async A) : Async A :=
  match m with
  | Return a => Return a
  | Throw e => h e
  | Sync g k => Sync g (try_catch k h)
  | Wait c k => Wait c (λ r, try_catch (k r) h)
  end.

(** [try { m } finally { f }], for a [finally] block that only sets state. *)
Fixpoint finally {A} (m : Async A) (f : S → S) : Async A :=
  match m with
  | Return a => Sync f (Return a)
  | Throw e => Sync f (Throw e)
  | Sync g k => Sync g (finally k f)
  | Wait c k => Wait c (λ r, finally (k r) f)
  end.

Definition await (c : Call) : Async (Resp c) := Wait c Return.
Definition set (f : S → S) : Async unit := Sync f (Return tt).

(** The first call a handler makes, if it makes one. *)
Fixpoint first_call {A} (m : Async A) : option Call :=
  match m with
  | Return _ | Throw _ => None
  | Sync _ k => first_call k
  | Wait c _ => Some c
  end.

(** How a run ended. *)
Inductive Outcome (A : Type) : Type :=
| Returned (a : A)
| Thrown (e : Exn).
Arguments Returned {A} a.
Arguments Thrown {A} e.

(** Running one handler alone: the [n]-th call is answered by [env n].
    The trace keeps, for every call, the state the screen was in when the
    call was made. *)
Fixpoint play {A} (env : Env) (n : nat) (m : Async A) (s : S)
  : S * list (S * Exchange) * Outcome A :=
  match m with
  | Return a => (s, [], Returned a)
  | Throw e => (s, [], Thrown e)
  | Sync f k => play env n k (f s)
  | Wait c k =>
      let r := env n c in
      let '(s', tr, o) := play env (Datatypes.S n) (k r) s in
      (s', (s, exch c r) :: tr, o)
  end.
End Async.

Arguments Async S A : clear implicits.
Arguments Return {S A} a.
Arguments Throw {S A} e.
Arguments Sync {S A} f k.
Arguments Wait {S A} c k.
Arguments Returned {A} a.
Arguments Thrown {A} e.

Notation "x <- m ;; k" := (bind m (λ x, k))
  (at level 100, m at next level, right associativity).
Notation "m ;;; k" := (bind m (λ _, k))
  (at level 100, right associativity).

Definition call_of (x : Exchange) : Call :=
  match x with exch c _ => c end.

(** The calls of a trace, in order, and its exchanges without the states. *)
Definition exchanges {S} (tr : list (S * Exchange)) : list Exchange := map snd tr.
Definition calls {S} (tr : list (S * Exchange)) : list Call :=
  map call_of (exchanges tr).

(** ** JavaScript numbers and the string operations the handlers use

    A [number] is an IEEE 754 binary64 value, in the Standard Library's
    [spec_float] with [prec = 53] and [emax = 1024]. *)
Module Js.
Definition prec : Z := 53.
Definition emax : Z := 1024.
Abbreviation number := spec_float.

Definition NaN : number := S754_nan.
Definition of_int (n : Z) : number := binary_normalize prec emax n 0 false.
Definition mul : number → number → number := SFmul prec emax.
Definition div : number → number → number := SFdiv prec emax.
(** [x > y] *)
Definition gt (x y : number) : bool := SFltb y x.
(** [x <= y] *)
Definition le (x y : number) : bool := SFleb x y.

Definition isNaN (x : number) : bool :=
  match x with S754_nan => true | _ => false end.

(** [Number.isFinite] *)
Definition isFinite (x : number) : bool :=
  match x with
  | S754_zero _ | S754_finite _ _ _ => true
  | S754_infinity _ | S754_nan => false
  end.

(** [Math.round]: the nearest integer, a tie going up; the sign of a zero
    result is the sign of the argument. *)
Definition round (x : number) : number :=
  match x with
  | S754_finite s m e =>
      if (0 <=? e)%Z then x
      else
        let d := (2 ^ (- e))%Z in
        let v := cond_Zopp s (Zpos m) in
        binary_normalize prec emax ((2 * v + d) / (2 * d)) 0 s
  | _ => x
  end.

(** *** Strings *)

Definition drop (n : nat) (s : string) : string :=
  String.substring n (String.length s - n) s.

Definition rev (s : string) : string :=
  string_of_list_ascii (List.rev (list_ascii_of_string s)).

(** [s.replace(pat, rep)] with a string pattern: the first occurrence only. *)
Fixpoint replace (pat rep s : string) : string :=
  if String.prefix pat s then rep +:+ drop (String.length pat) s
  else match s with
       | EmptyString => EmptyString
       | String c s' => String c (replace pat rep s')
       end.

(** [s.slice(a, b)] for [0 <= a <= b]. *)
Definition slice (a b : nat) (s : string) : string :=
  String.substring a (Nat.min b (String.length s) - a) s.

Definition bytes (l : list nat) : string :=
  fold_right (λ n s, String (ascii_of_nat n) s) EmptyString l.

(** White space and line terminators of the StringToNumber grammar, as
    UTF-8 byte sequences. *)
Definition blanks : list string :=
  map bytes
    ([[9]; [10]; [11]; [12]; [13]; [32]; [194; 160]; [225; 154; 128]]
     ++ map (λ b, [226; 128; b]) (seq 128 11)
     ++ [[226; 128; 168]; [226; 128; 169]; [226; 128; 175];
         [226; 129; 159]; [227; 128; 128]; [239; 187; 191]]).

Fixpoint strip_one (bl : list string) (s : string) : option string :=
  match bl with
  | [] => None
  | b :: bl' =>
      if String.prefix b s then Some (drop (String.length b) s)
      else strip_one bl' s
  end.

Fixpoint strip (bl : list string) (fuel : nat) (s : string) : string :=
  match fuel with
  | O => s
  | Datatypes.S fuel' =>
      match strip_one bl s with
      | Some s' => strip bl fuel' s'
      | None => s
      end
  end.

Definition trimStart (s : string) : string := strip blanks (String.length s) s.
Definition trimEnd (s : string) : string :=
  rev (strip (map rev blanks) (String.length s) (rev s)).
Definition trim (s : string) : string := trimEnd (trimStart s).

Definition digit_of (c : ascii) : option Z :=
  let n := Z.of_nat (nat_of_ascii c) in
  if ((48 <=? n) && (n <=? 57))%Z then Some (n - 48)%Z
  else if ((97 <=? n) && (n <=? 122))%Z then Some (n - 87)%Z
  else if ((65 <=? n) && (n <=? 90))%Z then Some (n - 55)%Z
  else None.

(** The longest run of digits of [base] at the head of [s]: its value after
    [acc], how many digits were read, and what follows. *)
Fixpoint digits (base : Z) (s : string) (acc : Z) (n : nat)
  : Z * nat * string :=
  match s with
  | EmptyString => (acc, n, s)
  | String c s' =>
      match digit_of c with
      | Some d =>
          if (d <? base)%Z then digits base s' (acc * base + d)%Z (Datatypes.S n)
          else (acc, n, s)
      | None => (acc, n, s)
      end
  end.

(** [0x], [0o] and [0b] literals; they take no sign. *)
Definition nondecimal (s : string) : option Z :=
  match s with
  | String "0" (String p s') =>
      let base : option Z :=
        if (p =? "x")%char || (p =? "X")%char then Some 16%Z
        else if (p =? "o")%char || (p =? "O")%char then Some 8%Z
        else if (p =? "b")%char || (p =? "B")%char then Some 2%Z
        else None in
      match base with
      | Some b =>
          match digits b s' 0 0 with
          | (v, Datatypes.S _, EmptyString) => Some v
          | _ => None
          end
      | None => None
      end
  | _ => None
  end.

(** The double nearest to [(-1)^neg * m * 10^e10] for [m >= 0]. The two
    guards cut off exponents whose power of ten need not be computed: above
    [10^310] every nonzero value rounds to an infinity, and a value below
    [2^-1075] rounds to zero. *)
Definition of_decimal (neg : bool) (m e10 : Z) : number :=
  match m with
  | Zpos p =>
      if (310 <? e10)%Z then S754_infinity neg
      else if (0 <=? e10)%Z then
        binary_normalize prec emax (cond_Zopp neg (m * 10 ^ e10)) 0 neg
      else if (Z.log2 m + 1 + 1075 <=? 3 * - e10)%Z then S754_zero neg
      else
        match (10 ^ (- e10))%Z with
        | Zpos q => div (S754_finite neg p 0) (S754_finite false q 0)
        | _ => NaN
        end
  | _ => S754_zero neg
  end.

(** The exponent part [e[+-]ddd], if any; [None] when it is malformed. *)
Definition exponent (s : string) : option (Z * string) :=
  match s with
  | String c s' =>
      if (c =? "e")%char || (c =? "E")%char then
        let '(neg, s'') :=
          match s' with
          | String "+" t => (false, t)
          | String "-" t => (true, t)
          | _ => (false, s')
          end in
        match digits 10 s'' 0 0 with
        | (v, Datatypes.S _, rest) => Some (cond_Zopp neg v, rest)
        | _ => None
        end
      else Some (0%Z, s)
  | EmptyString => Some (0%Z, s)
  end.

(** A signed decimal literal or [Infinity]. *)
Definition decimal (s : string) : option number :=
  let '(neg, s1) :=
    match s with
    | String "+" t => (false, t)
    | String "-" t => (true, t)
    | _ => (false, s)
    end in
  if String.eqb s1 "Infinity" then Some (S754_infinity neg)
  else
    let '(i, ni, s2) := digits 10 s1 0 0 in
    let '(m, nf, s3) :=
      match s2 with
      | String "." t => let '(m, n, r) := digits 10 t i 0 in (m, n, r)
      | _ => (i, O, s2)
      end in
    match (ni + nf)%nat with
    | O => None
    | _ =>
        match exponent s3 with
        | Some (e, EmptyString) => Some (of_decimal neg m (e - Z.of_nat nf))
        | _ => None
        end
    end.

(** [Number(s)] on a string. *)
Definition Number (s : string) : number :=
  let t := trim s in
  match t with
  | EmptyString => S754_zero false
  | _ =>
      match nondecimal t with
      | Some v => of_int v
      | None =>
          match decimal t with
          | Some x => x
          | None => NaN
          end
      end
  end.

(** [x ?? d] *)
Definition nullish {A} (x : option A) (d : A) : A :=
  match x with Some a => a | None => d end.

(** [s || d] on an optional string: an empty string is falsy too. *)
Definition or_else (x : option string) (d : string) : string :=
  match x with
  | Some EmptyString | None => d
  | Some s => s
  end.

(** The bytes [encodeURI] leaves as they are. *)
Definition uri_unescaped (c : ascii) : bool :=
  let n := nat_of_ascii c in
  ((48 <=? n) && (n <=? 57) || (65 <=? n) && (n <=? 90)
   || (97 <=? n) && (n <=? 122))%nat
  || existsb (Ascii.eqb c)
       (list_ascii_of_string ";/?:@&=+$,-_.!~*'()#").

Definition hex_digit (n : nat) : ascii :=
  ascii_of_nat (if (n <? 10)%nat then 48 + n else 55 + n).

(** [encodeURI] on a UTF-8 string. *)
Fixpoint encodeURI (s : string) : string :=
  match s with
  | EmptyString => EmptyString
  | String c s' =>
      if uri_unescaped c then String c (encodeURI s')
      else
        let n := nat_of_ascii c in
        String "%" (String (hex_digit (n / 16))
                      (String (hex_digit (n mod 16)) (encodeURI s')))
  end.
End Js.

(** ** Expressions that occur on both screens *)

(** [{ compress: 0.8, format: JPEG }] *)
Definition compress : Js.number := Eval vm_compute in Js.Number "0.8".

(** A string that passes [!x] as false: present and not empty. *)
Definition truthy (x : option string) : option string :=
  match x with
  | Some EmptyString | None => None
  | Some s => Some s
  end.

(** [Math.min(w ?? 1600, 1600)] *)
Definition resize_width (w : option Z) : Z := Z.min (Js.nullish w 1600%Z) 1600%Z.

Definition uploadUrl (supabaseUrl bucket storagePath : string) : string :=
  supabaseUrl +:+ "/storage/v1/object/" +:+ bucket +:+ "/"
    +:+ Js.encodeURI storagePath.

(** [Math.round(amt * 100) / 100] *)
Definition round2 (amt : Js.number) : Js.number :=
  Js.div (Js.round (Js.mul amt (Js.of_int 100))) (Js.of_int 100).

(** ** The task detail screen (src/screens/TaskDetail.tsx) *)
Module TaskDetail.

Module ExpenseWithMedia.
Record t := {
  id : Z;
  company_id : Z;
  project_id : Z;
  task_id : option Z;
  amount : Js.number;
  currency : string;
  description : option string;
  spent_at : string;
  created_by : string;
  created_at : string;
  media : list string;
  signedUrl : option string }.

(** [{ ...e, amount: data.amount, description: data.description,
      spent_at: data.spent_at }] *)
Definition with_row (e : t) (data : ExpenseRow) : t :=
  {| id := id e; company_id := company_id e; project_id := project_id e;
     task_id := task_id e; amount := row_amount data;
     currency := currency e; description := row_description data;
     spent_at := row_spent_at data; created_by := created_by e;
     created_at := created_at e; media := media e;
     signedUrl := signedUrl e |}.
End ExpenseWithMedia.

Module ExpEdit.
Record t := {
  visible : bool;
  id : option Z;
  amount : option string;
  dateStr : option string;
  description : option string;
  saving : option bool }.

(** [{ ...e, saving: b }] *)
Definition with_saving (e : t) (b : bool) : t :=
  {| visible := visible e; id := id e; amount := amount e;
     dateStr := dateStr e; description := description e;
     saving := Some b |}.

(** [{ visible: false }] *)
Definition closed : t :=
  {| visible := false; id := None; amount := None; dateStr := None;
     description := None; saving := None |}.
End ExpEdit.

(** The [useState] cells the handlers below write, and the toasts shown so
    far. *)
Record State := {
  task : option Task.t;
  mediaLoading : bool;
  media : list MediaRow.t;
  uploading : bool;
  confirm : bool * option MediaRow.t;
  prioOpen : bool;
  expenses : list ExpenseWithMedia.t;
  expEdit : ExpEdit.t;
  toasts : list Toast.t }.

Definition setTask (v : option Task.t) (s : State) : State :=
  {| task := v; mediaLoading := mediaLoading s; media := media s;
     uploading := uploading s; confirm := confirm s; prioOpen := prioOpen s;
     expenses := expenses s; expEdit := expEdit s; toasts := toasts s |}.
Definition setMediaLoading (v : bool) (s : State) : State :=
  {| task := task s; mediaLoading := v; media := media s;
     uploading := uploading s; confirm := confirm s; prioOpen := prioOpen s;
     expenses := expenses s; expEdit := expEdit s; toasts := toasts s |}.
(** [setMedia((prev) => f prev)] *)
Definition setMedia (f : list MediaRow.t → list MediaRow.t) (s : State) : State :=
  {| task := task s; mediaLoading := mediaLoading s; media := f (media s);
     uploading := uploading s; confirm := confirm s; prioOpen := prioOpen s;
     expenses := expenses s; expEdit := expEdit s; toasts := toasts s |}.
Definition setUploading (v : bool) (s : State) : State :=
  {| task := task s; mediaLoading := mediaLoading s; media := media s;
     uploading := v; confirm := confirm s; prioOpen := prioOpen s;
     expenses := expenses s; expEdit := expEdit s; toasts := toasts s |}.
Definition setConfirm (v : bool * option MediaRow.t) (s : State) : State :=
  {| task := task s; mediaLoading := mediaLoading s; media := media s;
     uploading := uploading s; confirm := v; prioOpen := prioOpen s;
     expenses := expenses s; expEdit := expEdit s; toasts := toasts s |}.
Definition setPrioOpen (v : bool) (s : State) : State :=
  {| task := task s; mediaLoading := mediaLoading s; media := media s;
     uploading := uploading s; confirm := confirm s; prioOpen := v;
     expenses := expenses s; expEdit := expEdit s; toasts := toasts s |}.
(** [setExpenses((prev) => f prev)] *)
Definition setExpenses (f : list ExpenseWithMedia.t → list ExpenseWithMedia.t)
    (s : State) : State :=
  {| task := task s; mediaLoading := mediaLoading s; media := media s;
     uploading := uploading s; confirm := confirm s; prioOpen := prioOpen s;
     expenses := f (expenses s); expEdit := expEdit s; toasts := toasts s |}.
(** [setExpEdit((e) => f e)] *)
Definition setExpEdit (f : ExpEdit.t → ExpEdit.t) (s : State) : State :=
  {| task := task s; mediaLoading := mediaLoading s; media := media s;
     uploading := uploading s; confirm := confirm s; prioOpen := prioOpen s;
     expenses := expenses s; expEdit := f (expEdit s); toasts := toasts s |}.
(** [Toast.show({ type, text1, text2, position: 'top' })] *)
Definition Toast_show (ty : Toast.kind) (t1 t2 : string) (s : State) : State :=
  {| task := task s; mediaLoading := mediaLoading s; media := media s;
     uploading := uploading s; confirm := confirm s; prioOpen := prioOpen s;
     expenses := expenses s; expEdit := expEdit s;
     toasts := toasts s ++ [ {| Toast.type := ty; Toast.text1 := t1;
                                Toast.text2 := t2 |} ] |}.

Abbreviation Handler := (Async State unit).

Definition haptic (k : Feedback) : Handler :=
  await (HapticsNotification k) ;;; Return tt.

(** *** Updates of the task *)

(** [task] is the value the component rendered with: the closure of the
    handler. *)
Definition setStatus (task : option Task.t) (next : TaskStatus) : Handler :=
  match task with
  | None => Return tt
  | Some task =>
      await HapticsSelection ;;;
      let prev := Task.status task in
      set (setTask (Some (Task.with_status task next))) ;;;
      r <- await (TasksUpdate (PatchStatus next) (Task.id task)) ;;
      match r with
      | Failed error =>
          set (setTask (Some (Task.with_status task prev))) ;;;
          set (Toast_show Toast.error "Hata" (message error)) ;;;
          haptic FeedbackError
      | Data data =>
          set (setTask (Some data)) ;;;
          set (Toast_show Toast.success "Güncellendi" "Durum güncellendi.") ;;;
          haptic FeedbackSuccess
      end
  end.

Definition updatePriority (task : option Task.t) (next : TaskPriority) : Handler :=
  match task with
  | None => Return tt
  | Some task =>
      await HapticsSelection ;;;
      let prev := Task.priority task in
      set (setTask (Some (Task.with_priority task next))) ;;;
      r <- await (TasksUpdate (PatchPriority next) (Task.id task)) ;;
      (match r with
       | Failed error =>
           set (setTask (Some (Task.with_priority task prev))) ;;;
           set (Toast_show Toast.error "Hata" (message error)) ;;;
           haptic FeedbackError
       | Data data =>
           set (setTask (Some data)) ;;;
           set (Toast_show Toast.success "Güncellendi" "Öncelik güncellendi.") ;;;
           haptic FeedbackSuccess
       end) ;;;
      set (setPrioOpen false)
  end.

(** *** Signed URLs and the media list *)

Fixpoint makeSigned_from (out rows : list MediaRow.t)
  : Async State (list MediaRow.t) :=
  match rows with
  | [] => Return out
  | row :: rows' =>
      s <- await (StorageSign "task-media" (MediaRow.storage_path row) 3600) ;;
      makeSigned_from (out ++ [MediaRow.with_signedUrl row s]) rows'
  end.

Definition makeSigned (rows : list MediaRow.t) : Async State (list MediaRow.t) :=
  makeSigned_from [] rows.

Definition loadMedia (taskId : Z) : Handler :=
  set (setMediaLoading true) ;;;
  r <- await (TaskMediaSelect taskId) ;;
  match r with
  | Failed error =>
      set (Toast_show Toast.error "Hata" (message error)) ;;;
      haptic FeedbackError ;;;
      set (setMediaLoading false)
  | Data data =>
      rows <- makeSigned (Js.nullish data []) ;;
      set (setMedia (λ _, rows)) ;;;
      set (setMediaLoading false)
  end.

(** *** Upload *)

(** [`${uid}/${task.id}/${filename}`] with [filename = `${Date.now()}.jpg`] *)
Definition storagePath (uid : string) (task_id now : Z) : string :=
  let filename := pretty now +:+ ".jpg" in
  uid +:+ "/" +:+ pretty task_id +:+ "/" +:+ filename.

(** [supabaseUrl] is [process.env.EXPO_PUBLIC_SUPABASE_URL]; [task] and
    [taskId] come from the closure.  The upload is a POST of the
    manipulated file with the bearer token and [x-upsert: false]. *)
Definition processAndUpload (supabaseUrl : string) (task : option Task.t)
    (taskId : Z) (uri : option string) (w h : option Z) : Handler :=
  match truthy uri with
  | None => Return tt
  | Some uri =>
      finally
        (try_catch
           (set (setUploading true) ;;;
            manip <- await (Manipulate uri (resize_width w) compress) ;;
            match manip with
            | Rejected e => Throw e
            | Fulfilled manip_uri =>
                auth <- await AuthSessionUser ;;
                match auth with
                | Rejected e => Throw e
                | Fulfilled (accessToken, uid) =>
                    match truthy accessToken, truthy uid, task with
                    | Some accessToken, Some uid, Some task =>
                        now <- await DateNow ;;
                        let storagePath := storagePath uid (Task.id task) now in
                        resp <- await (UploadAsync
                                         (uploadUrl supabaseUrl "task-media" storagePath)
                                         manip_uri ("Bearer " +:+ accessToken)) ;;
                        match resp with
                        | Rejected e => Throw e
                        | Fulfilled status =>
                            if negb (status =? 200)%Z && negb (status =? 201)%Z then
                              set (Toast_show Toast.error "Yükleme hatası"
                                     ("Durum: " +:+ pretty status)) ;;;
                              haptic FeedbackError
                            else
                              dbErr <- await (TaskMediaInsert (Task.id task)
                                                storagePath storagePath) ;;
                              match dbErr with
                              | Some err =>
                                  set (Toast_show Toast.error "Kayıt hatası"
                                         (message err)) ;;;
                                  haptic FeedbackError
                              | None =>
                                  set (Toast_show Toast.success "Yüklendi"
                                         "Fotoğraf eklendi.") ;;;
                                  haptic FeedbackSuccess ;;;
                                  loadMedia taskId
                              end
                        end
                    | _, _, _ =>
                        set (Toast_show Toast.error "Oturum yok"
                               "Lütfen tekrar giriş yapın.") ;;;
                        haptic FeedbackError
                    end
                end
            end)
           (λ e,
              set (Toast_show Toast.error "Hata"
                     (Js.or_else e "Yükleme başarısız")) ;;;
              haptic FeedbackError))
        (setUploading false)
  end.

(** *** Deleting a photo *)

Definition closeConfirm : State → State := setConfirm (false, None).

Definition deleteMedia (taskId : Z) (row : MediaRow.t) : Handler :=
  await HapticsImpact ;;;
  set closeConfirm ;;;
  set (setMedia (λ prev,
         List.filter (λ m, negb (MediaRow.id m =? MediaRow.id row)%Z) prev)) ;;;
  sErr <- await (StorageRemove "task-media" [MediaRow.storage_path row]) ;;
  match sErr with
  | Some sErr =>
      set (setMedia (λ prev, row :: prev)) ;;;
      set (Toast_show Toast.error "Silme hatası" (message sErr)) ;;;
      haptic FeedbackError
  | None =>
      dErr <- await (TaskMediaDelete (MediaRow.id row)) ;;
      match dErr with
      | Some dErr =>
          set (Toast_show Toast.error "Kayıt silinemedi" (message dErr)) ;;;
          haptic FeedbackError ;;;
          loadMedia taskId
      | None =>
          set (Toast_show Toast.success "Silindi" "Fotoğraf kaldırıldı.") ;;;
          haptic FeedbackSuccess
      end
  end.

(** *** Editing an expense *)

(** [Number((expEdit.amount ?? '').replace(',', '.'))] *)
Definition edit_amount (expEdit : ExpEdit.t) : Js.number :=
  Js.Number (Js.replace "," "." (Js.nullish (ExpEdit.amount expEdit) "")).

(** The object passed to [.update(...)]. *)
Definition edit_patch (expEdit : ExpEdit.t) : ExpensePatch :=
  {| patch_amount := round2 (edit_amount expEdit);
     patch_description :=
       truthy (Js.trim <$> ExpEdit.description expEdit);
     patch_spent_at := ExpEdit.dateStr expEdit |}.

Definition saveEditExpense (expEdit : ExpEdit.t) : Handler :=
  finally
    (try_catch
       (set (setExpEdit (λ e, ExpEdit.with_saving e true)) ;;;
        let amt := edit_amount expEdit in
        if negb (Js.isFinite amt) then Throw (Some "Tutar hatalı.")
        else
          r <- await (ExpensesUpdate (edit_patch expEdit) (ExpEdit.id expEdit)) ;;
          match r with
          | Failed error => Throw (Some (message error))
          | Data data =>
              set (setExpenses (map (λ e,
                     if decide (Some (ExpenseWithMedia.id e) = ExpEdit.id expEdit)
                     then ExpenseWithMedia.with_row e data else e))) ;;;
              set (Toast_show Toast.success "Kaydedildi" "Harcama güncellendi.") ;;;
              haptic FeedbackSuccess ;;;
              set (setExpEdit (λ _, ExpEdit.closed))
          end)
       (λ e,
          set (Toast_show Toast.error "Hata"
                 (Js.nullish e "Güncelleme başarısız.")) ;;;
          haptic FeedbackError))
    (setExpEdit (λ x, ExpEdit.with_saving x false)).

End TaskDetail.

(** ** The expense form (src/screens/ExpenseAdd.tsx) *)
Module ExpenseAdd.

Module LocalPhoto.
Record t := { uri : string; w : option Z; h : option Z }.
End LocalPhoto.

(** The [useState] cells [onSave] writes, and the toasts shown so far. *)
Record State := {
  saving : bool;
  uploading : bool;
  toasts : list Toast.t }.

Definition setSaving (v : bool) (s : State) : State :=
  {| saving := v; uploading := uploading s; toasts := toasts s |}.
Definition setUploading (v : bool) (s : State) : State :=
  {| saving := saving s; uploading := v; toasts := toasts s |}.
Definition Toast_show (ty : Toast.kind) (t1 t2 : string) (s : State) : State :=
  {| saving := saving s; uploading := uploading s;
     toasts := toasts s ++ [ {| Toast.type := ty; Toast.text1 := t1;
                                Toast.text2 := t2 |} ] |}.

Abbreviation Handler := (Async State unit).

Definition haptic (k : Feedback) : Handler :=
  await (HapticsNotification k) ;;; Return tt.

Definition amountNum (amountText : string) : Js.number :=
  let n := Js.Number (Js.replace "," "." amountText) in
  if Js.isNaN n then Js.NaN else n.

Definition isAmountValid (amountText : string) : bool :=
  Js.isFinite (amountNum amountText) && Js.gt (amountNum amountText) (Js.of_int 0).

(** [`${uid}/${expenseId}/${filename}`] with
    [filename = `${Date.now()}_${Math.random().toString(36).slice(2, 8)}.jpg`];
    [rnd] is the base 36 rendering of the random number. *)
Definition storagePath (uid : string) (expenseId now : Z) (rnd : string) : string :=
  let filename := pretty now +:+ "_" +:+ Js.slice 2 8 rnd +:+ ".jpg" in
  uid +:+ "/" +:+ pretty expenseId +:+ "/" +:+ filename.

(** The body of [for (const ph of photos)]. *)
Fixpoint upload_photos (supabaseUrl accessToken uid : string) (expenseId : Z)
    (photos : list LocalPhoto.t) : Handler :=
  match photos with
  | [] => Return tt
  | ph :: photos' =>
      manip <- await (Manipulate (LocalPhoto.uri ph)
                        (resize_width (LocalPhoto.w ph)) compress) ;;
      match manip with
      | Rejected e => Throw e
      | Fulfilled manip_uri =>
          now <- await DateNow ;;
          rnd <- await RandomBase36 ;;
          let storagePath := storagePath uid expenseId now rnd in
          resp <- await (UploadAsync
                           (uploadUrl supabaseUrl "expense-media" storagePath)
                           manip_uri ("Bearer " +:+ accessToken)) ;;
          match resp with
          | Rejected e => Throw e
          | Fulfilled status =>
              if negb (status =? 200)%Z && negb (status =? 201)%Z then
                Throw (Some ("Foto yüklenemedi (HTTP " +:+ pretty status +:+ ")"))
              else
                dbErr <- await (ExpenseMediaInsert expenseId storagePath
                                  storagePath uid) ;;
                match dbErr with
                | Some dbErr => Throw (Some (message dbErr))
                | None => upload_photos supabaseUrl accessToken uid expenseId photos'
                end
          end
      end
  end.

(** [!companyRow?.company_id] is false: a company id that is not zero. *)
Definition company_of (companyRow : option Z) : option Z :=
  match companyRow with
  | Some 0%Z | None => None
  | Some c => Some c
  end.

(** The route parameters [projectId] and [taskId], the form fields and the
    picked photos come from the closure. *)
Definition onSave (supabaseUrl : string) (projectId : Z) (taskId : option Z)
    (amountText description dateText : string) (photos : list LocalPhoto.t)
    : Handler :=
  if negb (isAmountValid amountText) then
    set (Toast_show Toast.error "Tutar gerekli" "Lütfen geçerli bir tutar girin.") ;;;
    haptic FeedbackError
  else
    finally
      (try_catch
         (set (setSaving true) ;;;
          auth <- await AuthSessionUser ;;
          match auth with
          | Rejected e => Throw e
          | Fulfilled (accessToken, uid) =>
              match truthy accessToken, truthy uid with
              | Some accessToken, Some uid =>
                  companyRow <- await (ProjectsCompany projectId) ;;
                  match company_of companyRow with
                  | None => Throw (Some "Şirket bulunamadı.")
                  | Some company_id =>
                      ins <- await (ExpensesInsert
                               {| draft_company_id := company_id;
                                  draft_project_id := projectId;
                                  draft_task_id := taskId;
                                  draft_amount := round2 (amountNum amountText);
                                  draft_currency := "TRY";
                                  draft_description := truthy (Some (Js.trim description));
                                  draft_spent_at := dateText;
                                  draft_created_by := uid |}) ;;
                      match ins with
                      | Failed expErr => Throw (Some (message expErr))
                      | Data expenseId =>
                          (match photos with
                           | [] => Return tt
                           | _ :: _ =>
                               set (setUploading true) ;;;
                               upload_photos supabaseUrl accessToken uid expenseId photos
                           end) ;;;
                          set (Toast_show Toast.success "Eklendi" "Harcama kaydedildi.") ;;;
                          haptic FeedbackSuccess ;;;
                          await NavGoBack ;;; Return tt
                      end
                  end
              | _, _ => Throw (Some "Oturum bulunamadı. Lütfen tekrar giriş yapın.")
              end
          end)
         (λ e,
            set (Toast_show Toast.error "Hata" (Js.nullish e "Kaydedilemedi")) ;;;
            haptic FeedbackError))
      (λ s, setSaving false (setUploading false s)).

End ExpenseAdd.

(** ** Handlers of the task screen that overlap

    JavaScript runs one handler at a time up to its next [await]; the
    handlers that are waiting sit in [pool], each with the call it awaits. A
    press starts the handler with the state the component last rendered
    with; a delivery resolves the awaited call of one waiting handler. *)
Module Overlap.
Import TaskDetail.

Record Proc := { waiting : Call; resume : Resp waiting → Handler }.

Inductive Event :=
| Submitted (pid : nat) (entity : option Z) (patch : TaskPatch)
| Issued (pid : nat) (c : Call)
| Resolved (pid : nat) (x : Exchange).

Record World := {
  ui : State;
  pool : gmap nat Proc;
  events : list Event;
  next_pid : nat }.

(** Run the synchronous steps up to the next awaited call. *)
Fixpoint settle (m : Handler) (s : State) : State * option Proc :=
  match m with
  | Return _ | Throw _ => (s, None)
  | Sync f k => settle k (f s)
  | Wait c k => (s, Some {| waiting := c; resume := k |})
  end.

Definition park (pid : nat) (o : option Proc) (pl : gmap nat Proc) : gmap nat Proc :=
  match o with
  | Some p => <[pid := p]> pl
  | None => delete pid pl
  end.

Definition issued (pid : nat) (o : option Proc) : list Event :=
  match o with
  | Some p => [Issued pid (waiting p)]
  | None => []
  end.

(** The handler a press on the status or priority control starts. *)
Definition mutation (task : option Task.t) (patch : TaskPatch) : Handler :=
  match patch with
  | PatchStatus next => setStatus task next
  | PatchPriority next => updatePriority task next
  end.

Inductive Action :=
| Press (patch : TaskPatch)
| Deliver (pid : nat) (reply : ∀ c : Call, Resp c).

Definition step (w : World) (a : Action) : World :=
  match a with
  | Press patch =>
      let pid := next_pid w in
      let '(s, o) := settle (mutation (task (ui w)) patch) (ui w) in
      {| ui := s;
         pool := park pid o (pool w);
         events := events w
                     ++ Submitted pid (Task.id <$> task (ui w)) patch :: issued pid o;
         next_pid := Datatypes.S pid |}
  | Deliver pid reply =>
      match pool w !! pid with
      | None => w
      | Some p =>
          let r := reply (waiting p) in
          let '(s, o) := settle (resume p r) (ui w) in
          {| ui := s;
             pool := park pid o (pool w);
             events := events w ++ Resolved pid (exch (waiting p) r) :: issued pid o;
             next_pid := next_pid w |}
      end
  end.

Definition run (w : World) (acts : list Action) : World := fold_left step acts w.

Definition init (s : State) : World :=
  {| ui := s; pool := ∅; events := []; next_pid := 0 |}.

(** No action of [acts] resolves a call of handler [pid]. *)
Definition undelivered (pid : nat) (acts : list Action) : Prop :=
  Forall (λ a, match a with Deliver q _ => q ≠ pid | Press _ => True end) acts.

(** What the per-entity queue would guarantee: when the update call of a
    mutation is issued, every mutation submitted before it on the same
    entity has had its own update call resolved. *)
Definition Serialized (evs : list Event) : Prop :=
  ∀ pre post q patch id,
    evs = pre ++ Issued q (TasksUpdate patch id) :: post →
    ∀ p patch1, p < q → In (Submitted p (Some id) patch1) pre →
      ∃ patch' r, In (Resolved p (exch (TasksUpdate patch' id) r)) pre.

(** [{ ...task, ...patch }] *)
Definition patched (t : Task.t) (patch : TaskPatch) : Task.t :=
  match patch with
  | PatchStatus next => Task.with_status t next
  | PatchPriority next => Task.with_priority t next
  end.

(** What is left of a mutation once its update call has been issued. *)
Definition reconcile (t : Task.t) (patch : TaskPatch)
  : Resp (TasksUpdate patch (Task.id t)) → Handler :=
  match patch with
  | PatchStatus next => λ r,
      match r with
      | Failed error =>
          set (setTask (Some (Task.with_status t (Task.status t)))) ;;;
          set (Toast_show Toast.error "Hata" (message error)) ;;;
          haptic FeedbackError
      | Data data =>
          set (setTask (Some data)) ;;;
          set (Toast_show Toast.success "Güncellendi" "Durum güncellendi.") ;;;
          haptic FeedbackSuccess
      end
  | PatchPriority next => λ r,
      (match r with
       | Failed error =>
           set (setTask (Some (Task.with_priority t (Task.priority t)))) ;;;
           set (Toast_show Toast.error "Hata" (message error)) ;;;
           haptic FeedbackError
       | Data data =>
           set (setTask (Some data)) ;;;
           set (Toast_show Toast.success "Güncellendi" "Öncelik güncellendi.") ;;;
           haptic FeedbackSuccess
       end) ;;;
      set (setPrioOpen false)
  end.

(** The handler right after the press: it waits for the selection haptic,
    and what follows applies the change and issues the update. *)
Definition pressed (t : Task.t) (patch : TaskPatch) : Proc :=
  {| waiting := HapticsSelection;
     resume := λ _,
       set (setTask (Some (patched t patch))) ;;;
       r <- await (TasksUpdate patch (Task.id t)) ;; reconcile t patch r |}.

(** The handler once its update call is in flight. *)
Definition in_flight (t : Task.t) (patch : TaskPatch) : Proc :=
  {| waiting := TasksUpdate patch (Task.id t);
     resume := reconcile t patch |}.

End Overlap.

(** ** What the runs are compared with *)
Module Expected.
Import TaskDetail.

(** The rows [makeSigned] returns when its first call is the [n]-th of the
    run: each row with the URL its own sign call was answered with. *)
Fixpoint signed (env : Env) (n : nat) (rows : list MediaRow.t) : list MediaRow.t :=
  match rows with
  | [] => []
  | row :: rows' =>
      MediaRow.with_signedUrl row
        (env n (StorageSign "task-media" (MediaRow.storage_path row) 3600))
      :: signed env (Datatypes.S n) rows'
  end.

(** The sign calls of that run: one per row, in order, the screen in [s]. *)
Fixpoint sign_trace (env : Env) (n : nat) (s : State) (rows : list MediaRow.t)
  : list (State * Exchange) :=
  match rows with
  | [] => []
  | row :: rows' =>
      (s, exch (StorageSign "task-media" (MediaRow.storage_path row) 3600)
            (env n (StorageSign "task-media" (MediaRow.storage_path row) 3600)))
      :: sign_trace env (Datatypes.S n) s rows'
  end.

Definition is_sign (c : Call) : bool :=
  match c with StorageSign _ _ _ => true | _ => false end.

Definition is_upload (c : Call) : bool :=
  match c with UploadAsync _ _ _ => true | _ => false end.

Definition is_record_delete (c : Call) : bool :=
  match c with TaskMediaDelete _ => true | _ => false end.

(** The bucket and the path of the object an inserted attachment row
    refers to. *)
Definition inserted (x : Exchange) : option (string * string) :=
  match x with
  | exch (TaskMediaInsert _ path _) _ => Some ("task-media", path)
  | exch (ExpenseMediaInsert _ path _ _) _ => Some ("expense-media", path)
  | _ => None
  end.

(** [x] is the upload of the object at [path] of [bucket], answered with
    200 or 201. *)
Definition uploaded (supabaseUrl bucket path : string) (x : Exchange) : Prop :=
  ∃ file bearer status,
    x = exch (UploadAsync (uploadUrl supabaseUrl bucket path) file bearer)
          (Fulfilled status)
    ∧ (status = 200 ∨ status = 201)%Z.

(** [x] is an upload that failed: the call threw, or the status is neither
    200 nor 201, as every status outside 2xx is. *)
Definition upload_failed (x : Exchange) : bool :=
  match x with
  | exch (UploadAsync _ _ _) (Rejected _) => true
  | exch (UploadAsync _ _ _) (Fulfilled status) =>
      negb (status =? 200)%Z && negb (status =? 201)%Z
  | _ => false
  end.

(** Every insert of an attachment row comes right after the successful
    upload of the object it refers to. *)
Definition insert_follows_upload (supabaseUrl : string) (xs : list Exchange) : Prop :=
  ∀ pre x post bucket path,
    xs = pre ++ x :: post → inserted x = Some (bucket, path) →
    ∃ pre' up, pre = pre' ++ [up] ∧ uploaded supabaseUrl bucket path up.

(** Once an upload has failed, no attachment row is inserted. *)
Definition no_insert_after_failure (xs : list Exchange) : Prop :=
  ∀ pre x post,
    xs = pre ++ x :: post → upload_failed x = true →
    Forall (λ y, inserted y = None) post.

(** The objects a run has stored: the URLs of its uploads answered with a
    2xx status. *)
Definition stored (xs : list Exchange) : list string :=
  omap (λ x, match x with
             | exch (UploadAsync url _ _) (Fulfilled status) =>
                 if ((200 <=? status) && (status <? 300))%Z then Some url else None
             | _ => None
             end) xs.

(** The attachment rows a run has recorded: the bucket and path of its
    inserts answered without an error. *)
Definition recorded (xs : list Exchange) : list (string * string) :=
  omap (λ x, match x with
             | exch (TaskMediaInsert _ path _) None => Some ("task-media", path)
             | exch (ExpenseMediaInsert _ path _ _) None => Some ("expense-media", path)
             | _ => None
             end) xs.

(** Every recorded row refers to a stored object. *)
Definition rows_have_objects (supabaseUrl : string) (xs : list Exchange) : Prop :=
  ∀ bucket path,
    (bucket, path) ∈ recorded xs → uploadUrl supabaseUrl bucket path ∈ stored xs.

(** The two properties, checked along the trace: [prev] is the exchange
    before [xs] and [failed] tells whether an upload has failed so far. *)
Fixpoint audit (supabaseUrl : string) (prev : option Exchange) (failed : bool)
    (xs : list Exchange) : Prop :=
  match xs with
  | [] => True
  | x :: xs' =>
      match inserted x with
      | Some (bucket, path) =>
          failed = false ∧ ∃ up, prev = Some up ∧ uploaded supabaseUrl bucket path up
      | None => True
      end
      ∧ audit supabaseUrl (Some x) (failed || upload_failed x) xs'
  end.

(** An exchange that is neither an insert of an attachment row nor an
    upload. *)
Definition quiet (x : Exchange) : Prop :=
  inserted x = None ∧ is_upload (call_of x) = false.

(** The height the manipulator gives an image of [width] by [height] that
    it resizes to [width'] with no height asked for: the height scaled in
    proportion, less than a pixel away from the exact quotient. *)
Definition proportional (width height width' height' : Z) : Prop :=
  (Z.abs (height' * width - height * width') < width)%Z.

(** An upload, if [x] is one, sends the local file [file]. *)
Definition sends (file : string) (x : Exchange) : Prop :=
  match x with
  | exch (UploadAsync _ f _) _ => f = file
  | _ => True
  end.

Definition is_insert (c : Call) : bool :=
  match c with
  | TaskMediaInsert _ _ _ | ExpenseMediaInsert _ _ _ _ => true
  | _ => false
  end.

(** The list after the optimistic removal of [row]. *)
Definition without (row : MediaRow.t) (l : list MediaRow.t) : list MediaRow.t :=
  List.filter (λ m, negb (MediaRow.id m =? MediaRow.id row)%Z) l.
End Expected.

(** ** Sample data for the concrete runs *)
Module Sample.
Import TaskDetail.

Definition task7 : Task.t :=
  {| Task.id := 7; Task.project_id := 3; Task.title := "Keşif";
     Task.description := None; Task.status := yapılacak; Task.priority := low;
     Task.due_date := None; Task.created_by := "u1";
     Task.created_at := "2025-01-01T00:00:00Z";
     Task.updated_at := "2025-01-01T00:00:00Z" |}.

Definition photo1 : MediaRow.t :=
  {| MediaRow.id := 41; MediaRow.task_id := 7;
     MediaRow.storage_path := "u1/7/1700000000000.jpg";
     MediaRow.url := "u1/7/1700000000000.jpg"; MediaRow.created_by := "u1";
     MediaRow.created_at := "2025-01-02T00:00:00Z"; MediaRow.signedUrl := None |}.

Definition screen (media : list MediaRow.t) : State :=
  {| task := Some task7; mediaLoading := false; media := media;
     uploading := false; confirm := (false, None); prioOpen := false;
     expenses := []; expEdit := ExpEdit.closed; toasts := [] |}.

Definition form : ExpenseAdd.State :=
  {| ExpenseAdd.saving := false; ExpenseAdd.uploading := false;
     ExpenseAdd.toasts := [] |}.

(** Collaborators that accept every call: an update returns [row] with the
    patch applied, the media table holds [rows], a signed URL is [sign]. *)
Definition accept (row : Task.t) (rows : list MediaRow.t) (sign : option string)
  : ∀ c : Call, Resp c :=
  λ c,
    match c return Resp c with
    | HapticsSelection | HapticsImpact | HapticsNotification _ | NavGoBack => tt
    | TasksUpdate patch _ => Data (Overlap.patched row patch)
    | TaskMediaSelect _ => Data (Some rows)
    | TaskMediaInsert _ _ _ | TaskMediaDelete _ | StorageRemove _ _
    | ExpenseMediaInsert _ _ _ _ => None
    | StorageSign _ _ _ => sign
    | Manipulate uri _ _ => Fulfilled (uri +:+ ".out.jpg")
    | AuthSessionUser => Fulfilled (Some "tok", Some "u1")
    | UploadAsync _ _ _ => Fulfilled 200%Z
    | DateNow => 1700000000000%Z
    | RandomBase36 => "0.4fzyo82mvyr"
    | ExpensesUpdate patch _ =>
        Data {| row_amount := patch_amount patch;
                row_description := patch_description patch;
                row_spent_at := Js.nullish (patch_spent_at patch) "" |}
    | ProjectsCompany _ => Some 1%Z
    | ExpensesInsert _ => Data 9%Z
    end.

(** The same collaborators with the tasks table refusing every update. *)
Definition refuse (msg : string) (row : Task.t) : ∀ c : Call, Resp c :=
  λ c,
    match c return Resp c with
    | TasksUpdate _ _ => Failed {| message := msg |}
    | c' => accept row [] None c'
    end.

(** Collaborators whose signed URLs differ from one call to the next, as
    the token of a signed URL does. *)
Definition rotating : Env :=
  λ n c, accept task7 [photo1] (Some ("https://cdn/sign?token=" +:+ pretty n)) c.

(** The storage accepts the removal, the media table refuses the delete and
    still holds the row. *)
Definition stale : Env :=
  λ n c,
    match c return Resp c with
    | TaskMediaDelete _ => Some {| message := "permission denied" |}
    | c' => accept task7 [photo1] None c'
    end.
End Sample.

(** ** What a run does with local files *)

(** The operations of a run on local files: a manipulation, with the file
    it returned if it returned one, and the sending of a file by an upload.
    No other call takes a local file. *)
Inductive FileOp :=
| Transformed (uri : string) (width : Z) (compress : Js.number)
    (result : option string)
| Sent (file : string).

Definition file_op (x : Exchange) : option FileOp :=
  match x with
  | exch (Manipulate uri width q) (Fulfilled file) =>
      Some (Transformed uri width q (Some file))
  | exch (Manipulate uri width q) (Rejected _) =>
      Some (Transformed uri width q None)
  | exch (UploadAsync _ file _) _ => Some (Sent file)
  | _ => None
  end.

Definition file_ops (xs : list Exchange) : list FileOp := omap file_op xs.

(** [ops] goes through the photos, given by uri and width, one after the
    other: each photo is manipulated once, for the width
    [min(w ?? 1600, 1600)] at the quality [quality], and the upload that
    follows sends the file that manipulation returned; the run may stop
    after any operation, and does after a manipulation that failed. *)
Fixpoint transforms (quality : Js.number) (photos : list (string * option Z))
    (ops : list FileOp) {struct ops} : Prop :=
  match ops with
  | [] => True
  | Transformed uri' width q result :: ops' =>
      match photos with
      | [] => False
      | (uri, w) :: photos' =>
          uri' = uri ∧ width = Z.min (default 1600%Z w) 1600
          ∧ q = quality
          ∧ match result, ops' with
            | _, [] => True
            | Some file, Sent file' :: ops'' =>
                file' = file ∧ transforms quality photos' ops''
            | _, _ => False
            end
      end
  | Sent _ :: _ => False
  end.

(** ** Shapes the further properties speak of *)

(** A string that [encodeURI] leaves as it is: every character is one of
    the unescaped ones. *)
Definition unescaped (s : string) : Prop :=
  Forall (λ c, Js.uri_unescaped c = true) (list_ascii_of_string s).

(** [text2] of the success toast of [setStatus] and of [updatePriority]. *)
Definition success_text (patch : TaskPatch) : string :=
  match patch with
  | PatchStatus _ => "Durum güncellendi."
  | PatchPriority _ => "Öncelik güncellendi."
  end.

(** ** The other handlers of the screens

    The handlers below call collaborators that the handlers above do not:
    the image picker, the clock as a string, and more tables.  A [Query] is
    one of the calls above or one of these; a [Flow] is an async function
    over queries. *)

Module Picker.
(** An element of [res.assets]. *)
Record Asset := { uri : string; width : Z; height : Z }.
(** What [launchImageLibraryAsync] and [launchCameraAsync] resolve to. *)
Record t := { canceled : bool; assets : option (list Asset) }.

(** [!res.assets?.length] *)
Definition no_assets (res : t) : bool :=
  match assets res with
  | None | Some [] => true
  | Some (_ :: _) => false
  end.
End Picker.

(** The row sent by [.insert(...)] on the [tasks] table. *)
Record TaskDraft := {
  new_project_id : Z;
  new_title : string;
  new_description : option string;
  new_status : TaskStatus;
  new_priority : TaskPriority;
  new_due_date : option string }.

(** A row of the [expenses] select with its joined [expense_media]. *)
Module ExpenseJoined.
Record t := {
  id : Z;
  company_id : Z;
  project_id : Z;
  task_id : option Z;
  amount : Js.number;
  currency : string;
  description : option string;
  spent_at : string;
  created_by : string;
  created_at : string;
  expense_media : option (list string) }.

(** [{ ...(row as Expense), media: mediaArr, signedUrl }] *)
Definition with_media (row : t) (mediaArr : list string)
    (signedUrl : option string) : TaskDetail.ExpenseWithMedia.t :=
  {| TaskDetail.ExpenseWithMedia.id := id row;
     TaskDetail.ExpenseWithMedia.company_id := company_id row;
     TaskDetail.ExpenseWithMedia.project_id := project_id row;
     TaskDetail.ExpenseWithMedia.task_id := task_id row;
     TaskDetail.ExpenseWithMedia.amount := amount row;
     TaskDetail.ExpenseWithMedia.currency := currency row;
     TaskDetail.ExpenseWithMedia.description := description row;
     TaskDetail.ExpenseWithMedia.spent_at := spent_at row;
     TaskDetail.ExpenseWithMedia.created_by := created_by row;
     TaskDetail.ExpenseWithMedia.created_at := created_at row;
     TaskDetail.ExpenseWithMedia.media := mediaArr;
     TaskDetail.ExpenseWithMedia.signedUrl := signedUrl |}.
End ExpenseJoined.

(** [NowISO] is [new Date().toISOString()], a synchronous read of the
    clock; the permission requests resolve to the [status] member of their
    reply. *)
Inductive Query : Type :=
| Known (c : Call)
| NowISO
| TasksSelect (project_id : Z) (status : option TaskStatus)
| TasksInsert (draft : TaskDraft)
| TasksSelectSingle (id : Z)
| TasksUpdateDescription (description : option string) (id : Z)
| ExpensesSelect (task_id : Z)
| ExpenseMediaSelect (expense_id : Z)
| ExpensesDelete (id : Z)
| RequestMediaLibraryPermissions
| RequestCameraPermissions
| LaunchImageLibrary (selectionLimit : option Z)
| LaunchCamera.

Definition Answer (q : Query) : Type :=
  match q with
  | Known c => Resp c
  | NowISO => string
  | TasksSelect _ _ => (option (list Task.t) * option PgError)%type
  | TasksInsert _ => Result Task.t
  | TasksSelectSingle _ => (option Task.t * option PgError)%type
  | TasksUpdateDescription _ _ => Result Task.t
  | ExpensesSelect _ => Result (option (list ExpenseJoined.t))
  | ExpenseMediaSelect _ => Result (option (list string))
  | ExpensesDelete _ => option PgError
  | RequestMediaLibraryPermissions | RequestCameraPermissions => string
  | LaunchImageLibrary _ | LaunchCamera => Picker.t
  end.

(** The reply to the [n]-th query of a run. *)
Definition Replies := nat → ∀ q : Query, Answer q.

(** A query together with the reply it got. *)
Inductive Reply : Type := reply (q : Query) (r : Answer q).

Definition query_of (x : Reply) : Query :=
  match x with reply q _ => q end.

Definition queries {S} (tr : list (S * Reply)) : list Query :=
  map (λ x, query_of (snd x)) tr.

Module Flow.
Section Flow.
Context {S : Type}.

Inductive t (A : Type) : Type :=
| Return (a : A)
| Throw (e : Exn)
| Sync (f : S → S) (k : t A)
| Wait (q : Query) (k : Answer q → t A).
Arguments Return {A} a.
Arguments Throw {A} e.
Arguments Sync {A} f k.
Arguments Wait {A} q k.

Fixpoint bind {A B} (m : t A) (f : A → t B) : t B :=
  match m with
  | Return a => f a
  | Throw e => Throw e
  | Sync g k => Sync g (bind k f)
  | Wait q k => Wait q (λ r, bind (k r) f)
  end.

(** [try { m } catch (e) { h e }] *)
Fixpoint try_catch {A} (m : t A) (h : Exn → t A) : t A :=
  match m with
  | Return a => Return a
  | Throw e => h e
  | Sync g k => Sync g (try_catch k h)
  | Wait q k => Wait q (λ r, try_catch (k r) h)
  end.

(** [try { m } finally { f }], for a [finally] block that only sets state. *)
Fixpoint finally {A} (m : t A) (f : S → S) : t A :=
  match m with
  | Return a => Sync f (Return a)
  | Throw e => Sync f (Throw e)
  | Sync g k => Sync g (finally k f)
  | Wait q k => Wait q (λ r, finally (k r) f)
  end.

Definition await (q : Query) : t (Answer q) := Wait q Return.
Definition set (f : S → S) : t unit := Sync f (Return tt).

(** Running one handler alone, as [play] does. *)
Fixpoint exec {A} (env : Replies) (n : nat) (m : t A) (s : S)
  : S * list (S * Reply) * Outcome A :=
  match m with
  | Return a => (s, [], Returned a)
  | Throw e => (s, [], Thrown e)
  | Sync f k => exec env n k (f s)
  | Wait q k =>
      let r := env n q in
      let '(s', tr, o) := exec env (Datatypes.S n) (k r) s in
      (s', (s, reply q r) :: tr, o)
  end.
End Flow.

Arguments t S A : clear implicits.
Arguments Return {S A} a.
Arguments Throw {S A} e.
Arguments Sync {S A} f k.
Arguments Wait {S A} q k.

End Flow.

(** A handler of the first kind run inside a larger state: [view] reads the
    cells it works on and [put] writes them back. *)
Fixpoint lift {S0 S A} (view : S → S0) (put : S0 → S → S) (m : Async S0 A)
  : Flow.t S A :=
  match m with
  | Return a => Flow.Return a
  | Throw e => Flow.Throw e
  | Sync f k => Flow.Sync (λ s, put (f (view s)) s) (lift view put k)
  | Wait c k => Flow.Wait (Known c) (λ r, lift view put (k r))
  end.

Declare Scope flow_scope.
Delimit Scope flow_scope with flow.
Notation "x <- m ;; k" := (Flow.bind m (λ x, k))
  (at level 100, m at next level, right associativity) : flow_scope.
Notation "m ;;; k" := (Flow.bind m (λ _, k))
  (at level 100, right associativity) : flow_scope.

(** The replies a lifted handler sees, and what its exchanges are as
    replies. *)
Definition known (env : Replies) : Env := λ n c, env n (Known c).
Definition as_reply (x : Exchange) : Reply :=
  match x with exch c r => reply (Known c) r end.

(** ** The task list (src/screens/Tasks.tsx) *)
Module TasksScreen.
Local Open Scope flow_scope.

Record State := {
  data : list Task.t;
  loading : bool;
  refreshing : bool;
  error : option string;
  showNew : bool;
  title : string;
  desc : string;
  priority : TaskPriority;
  due : string;
  toasts : list Toast.t }.

(** [setData((prev) => f prev)] *)
Definition setData (f : list Task.t → list Task.t) (s : State) : State :=
  {| data := f (data s); loading := loading s; refreshing := refreshing s;
     error := error s; showNew := showNew s; title := title s; desc := desc s;
     priority := priority s; due := due s; toasts := toasts s |}.
Definition setLoading (v : bool) (s : State) : State :=
  {| data := data s; loading := v; refreshing := refreshing s;
     error := error s; showNew := showNew s; title := title s; desc := desc s;
     priority := priority s; due := due s; toasts := toasts s |}.
Definition setRefreshing (v : bool) (s : State) : State :=
  {| data := data s; loading := loading s; refreshing := v;
     error := error s; showNew := showNew s; title := title s; desc := desc s;
     priority := priority s; due := due s; toasts := toasts s |}.
Definition setError (v : option string) (s : State) : State :=
  {| data := data s; loading := loading s; refreshing := refreshing s;
     error := v; showNew := showNew s; title := title s; desc := desc s;
     priority := priority s; due := due s; toasts := toasts s |}.
Definition setShowNew (v : bool) (s : State) : State :=
  {| data := data s; loading := loading s; refreshing := refreshing s;
     error := error s; showNew := v; title := title s; desc := desc s;
     priority := priority s; due := due s; toasts := toasts s |}.
Definition setTitle (v : string) (s : State) : State :=
  {| data := data s; loading := loading s; refreshing := refreshing s;
     error := error s; showNew := showNew s; title := v; desc := desc s;
     priority := priority s; due := due s; toasts := toasts s |}.
Definition setDesc (v : string) (s : State) : State :=
  {| data := data s; loading := loading s; refreshing := refreshing s;
     error := error s; showNew := showNew s; title := title s; desc := v;
     priority := priority s; due := due s; toasts := toasts s |}.
Definition setPriority (v : TaskPriority) (s : State) : State :=
  {| data := data s; loading := loading s; refreshing := refreshing s;
     error := error s; showNew := showNew s; title := title s; desc := desc s;
     priority := v; due := due s; toasts := toasts s |}.
Definition setDue (v : string) (s : State) : State :=
  {| data := data s; loading := loading s; refreshing := refreshing s;
     error := error s; showNew := showNew s; title := title s; desc := desc s;
     priority := priority s; due := v; toasts := toasts s |}.
Definition Toast_show (ty : Toast.kind) (t1 t2 : string) (s : State) : State :=
  {| data := data s; loading := loading s; refreshing := refreshing s;
     error := error s; showNew := showNew s; title := title s; desc := desc s;
     priority := priority s; due := due s;
     toasts := toasts s ++ [ {| Toast.type := ty; Toast.text1 := t1;
                                Toast.text2 := t2 |} ] |}.

Abbreviation Handler := (Flow.t State unit).

(** [projectId] and [tab] come from the closure; [None] is the tab
    ['tümü'], which adds no status filter. *)
Definition load (projectId : Z) (tab : option TaskStatus) : Handler :=
  Flow.set (setError None) ;;;
  Flow.set (setLoading true) ;;;
  r <- Flow.await (TasksSelect projectId tab) ;;
  let '(data, error) := r in
  match error with
  | Some error => Flow.set (setError (Some (message error)))
  | None => Flow.Return tt
  end ;;;
  Flow.set (setData (λ _, Js.nullish data [])) ;;;
  Flow.set (setLoading false).

Definition refresh (projectId : Z) (tab : option TaskStatus) : Handler :=
  Flow.set (setRefreshing true) ;;;
  load projectId tab ;;;
  Flow.set (setRefreshing false).

Definition resetForm (s : State) : State :=
  setDue "" (setPriority medium (setDesc "" (setTitle "" s))).

(** [prev.filter((t) => t.id !== tempId)] *)
Definition without (tempId : Z) (prev : list Task.t) : list Task.t :=
  List.filter (λ t, negb (Task.id t =? tempId)%Z) prev.

(** [title], [desc], [priority] and [due] are the values the component
    rendered with. *)
Definition createTask (projectId : Z) (title desc : string)
    (priority : TaskPriority) (due : string) : Handler :=
  match Js.trim title with
  | EmptyString => Flow.set (Toast_show Toast.error "Uyarı" "Başlık gerekli.")
  | _ =>
      now <- Flow.await (Known DateNow) ;;
      let tempId := (- now)%Z in
      created_at <- Flow.await NowISO ;;
      updated_at <- Flow.await NowISO ;;
      let optimistic :=
        {| Task.id := tempId; Task.project_id := projectId;
           Task.title := Js.trim title;
           Task.description := truthy (Some (Js.trim desc));
           Task.status := yapılacak; Task.priority := priority;
           Task.due_date := truthy (Some (Js.trim due));
           Task.created_by := "me"; Task.created_at := created_at;
           Task.updated_at := updated_at |} in
      Flow.set (setData (λ prev, optimistic :: prev)) ;;;
      Flow.set (setShowNew false) ;;;
      r <- Flow.await (TasksInsert
             {| new_project_id := projectId;
                new_title := Task.title optimistic;
                new_description := Task.description optimistic;
                new_status := yapılacak;
                new_priority := Task.priority optimistic;
                new_due_date := Task.due_date optimistic |}) ;;
      match r with
      | Failed error =>
          Flow.set (setData (without tempId)) ;;;
          Flow.set (Toast_show Toast.error "Hata" (message error))
      | Data inserted =>
          Flow.set (setData (λ prev, inserted :: without tempId prev)) ;;;
          Flow.set (Toast_show Toast.success "Başarılı" "Görev eklendi.") ;;;
          Flow.set resetForm
      end
  end.
End TasksScreen.

(** ** The task detail screen, the remaining handlers *)
Module Detail.
Import TaskDetail.
Local Open Scope flow_scope.

(** The cells of [TaskDetail.State] and the other cells these handlers
    write. *)
Record State := {
  cells : TaskDetail.State;
  loading : bool;
  saving : bool;
  desc : string;
  expensesLoading : bool;
  expActions : bool * option ExpenseWithMedia.t }.

(** A setter of the cells above, on the whole state. *)
Definition on_cells (f : TaskDetail.State → TaskDetail.State) (s : State)
  : State :=
  {| cells := f (cells s); loading := loading s; saving := saving s;
     desc := desc s; expensesLoading := expensesLoading s;
     expActions := expActions s |}.
Definition setLoading (v : bool) (s : State) : State :=
  {| cells := cells s; loading := v; saving := saving s;
     desc := desc s; expensesLoading := expensesLoading s;
     expActions := expActions s |}.
Definition setSaving (v : bool) (s : State) : State :=
  {| cells := cells s; loading := loading s; saving := v;
     desc := desc s; expensesLoading := expensesLoading s;
     expActions := expActions s |}.
Definition setDesc (v : string) (s : State) : State :=
  {| cells := cells s; loading := loading s; saving := saving s;
     desc := v; expensesLoading := expensesLoading s;
     expActions := expActions s |}.
Definition setExpensesLoading (v : bool) (s : State) : State :=
  {| cells := cells s; loading := loading s; saving := saving s;
     desc := desc s; expensesLoading := v;
     expActions := expActions s |}.
Definition setExpActions (v : bool * option ExpenseWithMedia.t) (s : State)
  : State :=
  {| cells := cells s; loading := loading s; saving := saving s;
     desc := desc s; expensesLoading := expensesLoading s;
     expActions := v |}.
Definition Toast_show (ty : Toast.kind) (t1 t2 : string) : State → State :=
  on_cells (TaskDetail.Toast_show ty t1 t2).

Abbreviation Handler := (Flow.t State unit).

(** A handler of [TaskDetail] as a handler of the whole screen. *)
Definition of_cells {A} (m : Async TaskDetail.State A) : Flow.t State A :=
  lift cells (λ c, on_cells (λ _, c)) m.

Definition haptic (k : Feedback) : Handler :=
  Flow.await (Known (HapticsNotification k)) ;;; Flow.Return tt.

Definition load (taskId : Z) : Handler :=
  Flow.set (setLoading true) ;;;
  r <- Flow.await (TasksSelectSingle taskId) ;;
  let '(data, error) := r in
  match error with
  | Some error =>
      Flow.set (Toast_show Toast.error "Hata" (message error)) ;;;
      haptic FeedbackError
  | None => Flow.Return tt
  end ;;;
  Flow.set (on_cells (setTask data)) ;;;
  Flow.set (setDesc (Js.nullish (data ≫= Task.description) "")) ;;;
  Flow.set (setLoading false).

(** The body of the [for] loop of [loadExpenses]: [rows] is the array built
    so far. *)
Fixpoint sign_expenses (rows : list ExpenseWithMedia.t)
    (data : list ExpenseJoined.t) : Flow.t State (list ExpenseWithMedia.t) :=
  match data with
  | [] => Flow.Return rows
  | row :: data' =>
      let mediaArr := Js.nullish (ExpenseJoined.expense_media row) [] in
      signedUrl <-
        match mediaArr with
        | [] => Flow.Return None
        | first :: _ =>
            Flow.await (Known (StorageSign "expense-media" first 3600))
        end ;;
      sign_expenses (rows ++ [ExpenseJoined.with_media row mediaArr signedUrl])
        data'
  end.

Definition loadExpenses (taskId : Z) : Handler :=
  Flow.set (setExpensesLoading true) ;;;
  r <- Flow.await (ExpensesSelect taskId) ;;
  match r with
  | Failed error =>
      Flow.set (Toast_show Toast.error "Hata" (message error)) ;;;
      haptic FeedbackError ;;;
      Flow.set (setExpensesLoading false)
  | Data data =>
      rows <- sign_expenses [] (Js.nullish data []) ;;
      Flow.set (on_cells (setExpenses (λ _, rows))) ;;;
      Flow.set (setExpensesLoading false)
  end.

(** [task] and [desc] are the values the component rendered with. *)
Definition saveDesc (task : option Task.t) (desc : string) : Handler :=
  match task with
  | None => Flow.Return tt
  | Some task =>
      Flow.finally
        (Flow.set (setSaving true) ;;;
         r <- Flow.await (TasksUpdateDescription
                (truthy (Some (Js.trim desc))) (Task.id task)) ;;
         match r with
         | Failed error =>
             Flow.set (Toast_show Toast.error "Hata" (message error)) ;;;
             haptic FeedbackError
         | Data data =>
             Flow.set (on_cells (setTask (Some data))) ;;;
             Flow.set (Toast_show Toast.success "Kaydedildi"
                         "Açıklama güncellendi.") ;;;
             haptic FeedbackSuccess
         end)
        (setSaving false)
  end.

(** [throw mErr]: the catch block reads [e?.message]. *)
Definition thrown (error : PgError) : Exn := Some (message error).

Definition deleteExpense (row : ExpenseWithMedia.t) : Handler :=
  Flow.set (setExpActions (false, None)) ;;;
  Flow.await (Known HapticsImpact) ;;;
  Flow.try_catch
    (r <- Flow.await (ExpenseMediaSelect (ExpenseWithMedia.id row)) ;;
     match r with
     | Failed mErr => Flow.Throw (thrown mErr)
     | Data medias =>
         let paths := Js.nullish medias [] in
         match paths with
         | [] => Flow.Return tt
         | _ :: _ =>
             sErr <- Flow.await (Known (StorageRemove "expense-media" paths)) ;;
             match sErr with
             | Some sErr => Flow.Throw (thrown sErr)
             | None => Flow.Return tt
             end
         end ;;;
         dErr <- Flow.await (ExpensesDelete (ExpenseWithMedia.id row)) ;;
         match dErr with
         | Some dErr => Flow.Throw (thrown dErr)
         | None =>
             Flow.set (on_cells (setExpenses
               (List.filter (λ e, negb (ExpenseWithMedia.id e
                                        =? ExpenseWithMedia.id row)%Z)))) ;;;
             Flow.set (Toast_show Toast.success "Silindi"
                         "Harcama kaldırıldı.") ;;;
             haptic FeedbackSuccess
         end
     end)
    (λ e,
       Flow.set (Toast_show Toast.error "Hata"
                   (Js.nullish e "Silme başarısız.")) ;;;
       haptic FeedbackError).

Definition ensurePermissions : Flow.t State bool :=
  lib <- Flow.await RequestMediaLibraryPermissions ;;
  cam <- Flow.await RequestCameraPermissions ;;
  if negb (String.eqb lib "granted") && negb (String.eqb cam "granted") then
    Flow.set (Toast_show Toast.error "İzin gerekli"
                "Kamera veya galeri izni verilmedi.") ;;;
    haptic FeedbackError ;;;
    Flow.Return false
  else Flow.Return true.

(** What both pickers do with the picker's reply. *)
Definition upload_first (supabaseUrl : string) (task : option Task.t)
    (taskId : Z) (res : Picker.t) : Handler :=
  if Picker.canceled res || Picker.no_assets res then Flow.Return tt
  else
    match Picker.assets res with
    | Some (first :: _) =>
        of_cells (processAndUpload supabaseUrl task taskId
                    (Some (Picker.uri first)) (Some (Picker.width first))
                    (Some (Picker.height first)))
    | _ => Flow.Return tt
    end.

Definition pickFromLibrary (supabaseUrl : string) (task : option Task.t)
    (taskId : Z) : Handler :=
  ok <- ensurePermissions ;;
  if negb ok then Flow.Return tt
  else
    res <- Flow.await (LaunchImageLibrary None) ;;
    upload_first supabaseUrl task taskId res.

Definition captureWithCamera (supabaseUrl : string) (task : option Task.t)
    (taskId : Z) : Handler :=
  ok <- ensurePermissions ;;
  if negb ok then Flow.Return tt
  else
    res <- Flow.await LaunchCamera ;;
    upload_first supabaseUrl task taskId res.
End Detail.

(** ** The photos of the expense form *)
Module ExpensePhotos.
Import ExpenseAdd.
Local Open Scope flow_scope.

(** The cells of [ExpenseAdd.State] and the [photos] cell. *)
Record State := {
  form : ExpenseAdd.State;
  photos : list LocalPhoto.t }.

Definition setPhotos (f : list LocalPhoto.t → list LocalPhoto.t) (s : State)
  : State :=
  {| form := form s; photos := f (photos s) |}.
Definition Toast_show (ty : Toast.kind) (t1 t2 : string) (s : State) : State :=
  {| form := ExpenseAdd.Toast_show ty t1 t2 (form s); photos := photos s |}.

Abbreviation Handler := (Flow.t State unit).

(** [{ uri: a.uri, w: a.width, h: a.height }] *)
Definition local (a : Picker.Asset) : LocalPhoto.t :=
  {| LocalPhoto.uri := Picker.uri a; LocalPhoto.w := Some (Picker.width a);
     LocalPhoto.h := Some (Picker.height a) |}.

Definition pickFromLibrary : Handler :=
  perm <- Flow.await RequestMediaLibraryPermissions ;;
  if negb (String.eqb perm "granted") then
    Flow.set (Toast_show Toast.error "İzin gerekli" "Galeri izni verilmedi.")
  else
    res <- Flow.await (LaunchImageLibrary (Some 0%Z)) ;;
    if negb (Picker.canceled res) && negb (Picker.no_assets res) then
      Flow.set (setPhotos (λ p, p ++ map local (Js.nullish (Picker.assets res) [])))
    else Flow.Return tt.

Definition captureWithCamera : Handler :=
  perm <- Flow.await RequestCameraPermissions ;;
  if negb (String.eqb perm "granted") then
    Flow.set (Toast_show Toast.error "İzin gerekli" "Kamera izni verilmedi.")
  else
    res <- Flow.await LaunchCamera ;;
    if negb (Picker.canceled res) && negb (Picker.no_assets res) then
      match Picker.assets res with
      | Some (a :: _) => Flow.set (setPhotos (λ p, p ++ [local a]))
      | _ => Flow.Return tt
      end
    else Flow.Return tt.

(** [p.filter((_, i) => keep i)], [i] counting from [from]. *)
Fixpoint filter_index {A} (keep : Z → bool) (from : Z) (p : list A) : list A :=
  match p with
  | [] => []
  | x :: p' =>
      if keep from then x :: filter_index keep (from + 1) p'
      else filter_index keep (from + 1) p'
  end.

Definition removeLocalPhoto (idx : Z) (s : State) : State :=
  setPhotos (filter_index (λ i, negb (i =? idx)%Z) 0) s.
End ExpensePhotos.

(** ** Pinch to zoom in the preview (src/screens/TaskDetail.tsx) *)
Module Zoom.

(** [Math.max(x, y)] and [Math.min(x, y)]: [NaN] if either is, and of the
    two zeros [+0] is the larger. *)
Definition max (x y : Js.number) : Js.number :=
  match SFcompare x y with
  | None => Js.NaN
  | Some Lt => y
  | Some Gt => x
  | Some Eq => match x with S754_zero true => y | _ => x end
  end.
Definition min (x y : Js.number) : Js.number :=
  match SFcompare x y with
  | None => Js.NaN
  | Some Lt => x
  | Some Gt => y
  | Some Eq => match x with S754_zero false => y | _ => x end
  end.

(** The states of a gesture handler. *)
Inductive GHState := UNDETERMINED | FAILED | BEGAN | CANCELLED | ACTIVE | END.

(** [e.nativeEvent] *)
Record NativeEvent := {
  state : GHState;
  oldState : GHState;
  scale : option Js.number }.

(** [baseScaleNumRef.current] and the two animated values. *)
Record Refs := {
  baseScaleNum : Js.number;
  baseScale : Js.number;
  pinchScale : Js.number }.

Definition ends (e : NativeEvent) : bool :=
  match state e, oldState e with
  | END, _ | CANCELLED, _ | FAILED, _ | _, ACTIVE => true
  | _, _ => false
  end.

Definition onPinchStateChange (e : NativeEvent) (z : Refs) : Refs :=
  if ends e then
    let pinch := Js.nullish (scale e) (Js.of_int 1) in
    let next := Js.mul (baseScaleNum z) pinch in
    let next := max (Js.of_int 1) (min (Js.of_int 4) next) in
    {| baseScaleNum := next; baseScale := next; pinchScale := Js.of_int 1 |}
  else z.

Definition resetZoom (z : Refs) : Refs :=
  {| baseScaleNum := Js.of_int 1; baseScale := Js.of_int 1;
     pinchScale := Js.of_int 1 |}.

(** The factor the image is drawn at:
    [Animated.multiply(baseScale, pinchScale)]. *)
Definition drawn (z : Refs) : Js.number := Js.mul (baseScale z) (pinchScale z).
End Zoom.

(** ** Sample data for the other handlers *)
Module Demo.

Definition asset : Picker.Asset :=
  {| Picker.uri := "file:///a.jpg"; Picker.width := 3000;
     Picker.height := 2000 |}.

(** The row the [tasks] table returns for an inserted draft. *)
Definition created (draft : TaskDraft) : Task.t :=
  {| Task.id := 8; Task.project_id := new_project_id draft;
     Task.title := new_title draft;
     Task.description := new_description draft;
     Task.status := new_status draft; Task.priority := new_priority draft;
     Task.due_date := new_due_date draft; Task.created_by := "u1";
     Task.created_at := "2025-01-03T00:00:00.000Z";
     Task.updated_at := "2025-01-03T00:00:00.000Z" |}.

(** Collaborators that accept every query; the media library permission is
    denied and the camera permission granted. *)
Definition replies : Replies :=
  λ _ q,
    match q return Answer q with
    | Known c => Sample.accept Sample.task7 [Sample.photo1] None c
    | NowISO => "2025-01-03T00:00:00.000Z"
    | TasksSelect _ _ => (Some [Sample.task7], None)
    | TasksInsert draft => Data (created draft)
    | TasksSelectSingle _ => (Some Sample.task7, None)
    | TasksUpdateDescription _ _ => Data Sample.task7
    | ExpensesSelect _ => Data (Some [])
    | ExpenseMediaSelect _ => Data (Some ["u1/9/1700000000000_4fzyo8.jpg"])
    | ExpensesDelete _ => None
    | RequestMediaLibraryPermissions => "denied"
    | RequestCameraPermissions => "granted"
    | LaunchImageLibrary _ | LaunchCamera =>
        {| Picker.canceled := false; Picker.assets := Some [asset] |}
    end.

(** A second photo of the task, and collaborators whose storage refuses
    every removal. *)
Definition photo2 : MediaRow.t :=
  {| MediaRow.id := 42; MediaRow.task_id := 7;
     MediaRow.storage_path := "u1/7/1700000000001.jpg";
     MediaRow.url := "u1/7/1700000000001.jpg"; MediaRow.created_by := "u1";
     MediaRow.created_at := "2025-01-02T00:00:01Z";
     MediaRow.signedUrl := None |}.

Definition storage_refuses : Env :=
  λ _ c,
    match c return Resp c with
    | StorageRemove _ _ => Some {| message := "forbidden" |}
    | c' => Sample.accept Sample.task7 [] None c'
    end.

Definition board : TasksScreen.State :=
  {| TasksScreen.data := [Sample.task7]; TasksScreen.loading := false;
     TasksScreen.refreshing := false; TasksScreen.error := None;
     TasksScreen.showNew := true; TasksScreen.title := "Boya";
     TasksScreen.desc := ""; TasksScreen.priority := high;
     TasksScreen.due := ""; TasksScreen.toasts := [] |}.

Definition detail : Detail.State :=
  {| Detail.cells := Sample.screen [Sample.photo1]; Detail.loading := false;
     Detail.saving := false; Detail.desc := "";
     Detail.expensesLoading := false; Detail.expActions := (false, None) |}.

Definition album : ExpensePhotos.State :=
  {| ExpensePhotos.form := Sample.form; ExpensePhotos.photos := [] |}.
End Demo.

(** * Properties *)

(** ** Running a composed handler *)
Section Play.
Context {S : Type}.

Lemma play_bind {A B} (env : Env) (m : Async S A) (f : A → Async S B) n (s : S) :
  play env n (bind m f) s =
  match play env n m s with
  | (s', tr, Returned a) =>
      let '(s'', tr', o) := play env (n + length tr) (f a) s' in
      (s'', tr ++ tr', o)
  | (s', tr, Thrown e) => (s', tr, Thrown e)
  end.
Proof.
  revert n s. induction m as [a|e|g k IH|c k IH]; intros n s; simpl.
  - rewrite Nat.add_0_r. by destruct (play env n (f a) s) as [[??]?].
  - done.
  - apply IH.
  - rewrite IH. destruct (play env (Datatypes.S n) (k (env n c)) s) as [[s1 tr1] [a|e]];
      simpl; [|done].
    rewrite Nat.add_succ_r.
    by destruct (play env (Datatypes.S (n + length tr1)) (f a) s1) as [[??]?].
Qed.

Lemma play_try_catch {A} (env : Env) (m : Async S A) (h : Exn → Async S A) n (s : S) :
  play env n (try_catch m h) s =
  match play env n m s with
  | (s', tr, Returned a) => (s', tr, Returned a)
  | (s', tr, Thrown e) =>
      let '(s'', tr', o) := play env (n + length tr) (h e) s' in
      (s'', tr ++ tr', o)
  end.
Proof.
  revert n s. induction m as [a|e|g k IH|c k IH]; intros n s; simpl.
  - done.
  - rewrite Nat.add_0_r. by destruct (play env n (h e) s) as [[??]?].
  - apply IH.
  - rewrite IH. destruct (play env (Datatypes.S n) (k (env n c)) s) as [[s1 tr1] [a|e]];
      simpl; [done|].
    rewrite Nat.add_succ_r.
    by destruct (play env (Datatypes.S (n + length tr1)) (h e) s1) as [[??]?].
Qed.

Lemma play_first_call {A} (env : Env) (m : Async S A) : ∀ n (s : S),
  calls (play env n m s).1.2 !! 0 = first_call m.
Proof.
  induction m as [a|e|g k IH|c k IH]; intros n s; simpl; try done.
  by destruct (play env (Datatypes.S n) (k (env n c)) s) as [[??]?].
Qed.

Lemma first_call_try_catch {A} (m : Async S A) h :
  is_Some (first_call m) → first_call (try_catch m h) = first_call m.
Proof. induction m; simpl; intros [? ?]; try done. apply IHm. by eexists. Qed.

Lemma first_call_finally {A} (m : Async S A) f :
  first_call (finally m f) = first_call m.
Proof. induction m; simpl; try done. Qed.

Lemma play_finally {A} (env : Env) (m : Async S A) (f : S → S) n (s : S) :
  play env n (finally m f) s =
  let '(s', tr, o) := play env n m s in (f s', tr, o).
Proof.
  revert n s. induction m as [a|e|g k IH|c k IH]; intros n s; simpl; try done.
  rewrite IH. by destruct (play env (Datatypes.S n) (k (env n c)) s) as [[??]?].
Qed.
End Play.

(** ** Overlapping handlers *)
Section Overlapping.
Import TaskDetail Overlap.

Lemma with_status_same (t : Task.t) : Task.with_status t (Task.status t) = t.
Proof. by destruct t. Qed.

Lemma with_priority_same (t : Task.t) : Task.with_priority t (Task.priority t) = t.
Proof. by destruct t. Qed.

Lemma step_press w t patch :
  task (ui w) = Some t →
  step w (Press patch) =
  {| ui := ui w;
     pool := <[next_pid w := pressed t patch]> (pool w);
     events := events w ++ [Submitted (next_pid w) (Some (Task.id t)) patch;
                            Issued (next_pid w) HapticsSelection];
     next_pid := Datatypes.S (next_pid w) |}.
Proof. intros Ht. unfold step. rewrite Ht. by destruct patch. Qed.

Lemma step_apply w pid t patch reply :
  pool w !! pid = Some (pressed t patch) →
  step w (Deliver pid reply) =
  {| ui := setTask (Some (patched t patch)) (ui w);
     pool := <[pid := in_flight t patch]> (pool w);
     events := events w ++ [Resolved pid (exch HapticsSelection (reply HapticsSelection));
                            Issued pid (TasksUpdate patch (Task.id t))];
     next_pid := next_pid w |}.
Proof. intros Hp. unfold step. rewrite Hp. by destruct patch. Qed.

(** Actions on other handlers leave a waiting handler where it is. *)
Lemma step_other w a pid p :
  pool w !! pid = Some p → pid < next_pid w →
  match a with Deliver q _ => q ≠ pid | Press _ => True end →
  pool (step w a) !! pid = Some p ∧ pid < next_pid (step w a).
Proof.
  intros Hp Hlt Ha. destruct a as [patch|q reply]; simpl.
  - destruct (settle _ _) as [s [p'|]]; simpl; split; try lia.
    + rewrite lookup_insert_ne; [done|lia].
    + rewrite lookup_delete_ne; [done|lia].
  - destruct (pool w !! q) as [p0|] eqn:Hq; [|done].
    destruct (settle _ _) as [s [p'|]]; simpl; split; try done.
    + by rewrite lookup_insert_ne.
    + by rewrite lookup_delete_ne.
Qed.

Lemma run_other acts : ∀ w pid p,
  pool w !! pid = Some p → pid < next_pid w → undelivered pid acts →
  pool (run w acts) !! pid = Some p ∧ pid < next_pid (run w acts).
Proof.
  induction acts as [|a acts IH]; intros w pid p Hp Hlt Hu; [done|].
  inversion Hu as [|?? Ha Hu']; subst. simpl.
  destruct (step_other w a pid p Hp Hlt Ha) as [Hp' Hlt']. by apply IH.
Qed.
Lemma step_rollback w pid t patch (reply : ∀ c : Call, Resp c) e :
  pool w !! pid = Some (in_flight t patch) →
  reply (TasksUpdate patch (Task.id t)) = Failed e →
  ui (step w (Deliver pid reply))
  = Toast_show Toast.error "Hata" (message e) (setTask (Some t) (ui w)).
Proof.
  intros Hp Hr. unfold step. rewrite Hp.
  destruct patch; simpl; rewrite Hr; simpl;
    by rewrite ?with_status_same, ?with_priority_same.
Qed.

(** C1, as the code has it: the update call of a mutation is issued at the
    moment its own selection haptic resolves, and the optimistic change is
    applied with it, whatever was pressed, issued or resolved since the
    press: nothing waits for an earlier mutation on the same task. *)
Theorem update_issued_without_waiting w t patch acts (reply : ∀ c : Call, Resp c) :
  task (ui w) = Some t →
  undelivered (next_pid w) acts →
  let pid := next_pid w in
  let w1 := run (step w (Press patch)) acts in
  let w2 := step w1 (Deliver pid reply) in
  events w2 = events w1 ++ [Resolved pid (exch HapticsSelection tt);
                            Issued pid (TasksUpdate patch (Task.id t))]
  ∧ ui w2 = setTask (Some (patched t patch)) (ui w1).
Proof.
  intros Ht Hu pid w1 w2.
  assert (Hp : pool w1 !! pid = Some (pressed t patch)).
  { apply run_other; [|rewrite (step_press w t patch Ht); unfold pid; simpl; lia|done].
    rewrite (step_press w t patch Ht). simpl. apply lookup_insert_eq. }
  unfold w2. rewrite (step_apply w1 pid t patch reply Hp). simpl.
  by destruct (reply HapticsSelection).
Qed.

Lemma update_issued_without_waiting_witness :
  let w := init (Sample.screen []) in
  let w1 := run (step w (Press (PatchStatus yapılıyor)))
              [Press (PatchPriority high);
               Deliver 1 (Sample.accept Sample.task7 [] None)] in
  let w2 := step w1 (Deliver 0 (Sample.accept Sample.task7 [] None)) in
  events w2 = events w1 ++ [Resolved 0 (exch HapticsSelection tt);
                            Issued 0 (TasksUpdate (PatchStatus yapılıyor) 7)]
  ∧ ui w2 = setTask (Some (patched Sample.task7 (PatchStatus yapılıyor))) (ui w1).
Proof.
  apply (update_issued_without_waiting (init (Sample.screen [])) Sample.task7
           (PatchStatus yapılıyor)).
  - reflexivity.
  - repeat constructor. simpl. lia.
Defined.

(** C1, as stated, fails: with the first update still in flight, a second
    press on the same task has its own update call issued. *)
Lemma updates_not_serialized :
  ¬ Serialized
      (events (run (init (Sample.screen []))
                 [Press (PatchStatus yapılıyor);
                  Deliver 0 (Sample.accept Sample.task7 [] None);
                  Press (PatchStatus tamamlandı);
                  Deliver 1 (Sample.accept Sample.task7 [] None)])).
Proof.
  intros H.
  destruct (H [Submitted 0 (Some 7%Z) (PatchStatus yapılıyor);
               Issued 0 HapticsSelection;
               Resolved 0 (exch HapticsSelection tt);
               Issued 0 (TasksUpdate (PatchStatus yapılıyor) 7);
               Submitted 1 (Some 7%Z) (PatchStatus tamamlandı);
               Issued 1 HapticsSelection;
               Resolved 1 (exch HapticsSelection tt)]
              [] 1 (PatchStatus tamamlandı) 7%Z eq_refl
              0 (PatchStatus yapılıyor)) as (patch' & r & Hin).
  - lia.
  - simpl. auto.
  - simpl in Hin. repeat destruct Hin as [Hin|Hin]; try discriminate Hin; done.
Qed.

(** C2, as the code has it: when the update a mutation issued is refused,
    the task is again the task the handler captured when the mutation was
    submitted, the value its optimistic change was built from, whatever
    other handlers did before the change was applied and while the call
    was in flight; and an error toast titled [Hata] carries the message of
    the failure, nothing else of it.  Submitting changes nothing by itself;
    the task after the rollback is the state right before the optimistic
    change when the task has not changed by the time the selection haptic
    resolves, and only then. *)
Theorem rollback_exact w t patch acts0 (reply0 : ∀ c : Call, Resp c) acts
    (reply : ∀ c : Call, Resp c) e :
  task (ui w) = Some t →
  undelivered (next_pid w) acts0 →
  undelivered (next_pid w) acts →
  reply (TasksUpdate patch (Task.id t)) = Failed e →
  let pid := next_pid w in
  let w1 := run (step w (Press patch)) acts0 in
  let w2 := step w1 (Deliver pid reply0) in
  let w3 := run w2 acts in
  let w4 := step w3 (Deliver pid reply) in
  ui (step w (Press patch)) = ui w
  ∧ task (ui w2) = Some (patched t patch)
  ∧ task (ui w4) = task (ui w)
  ∧ (task (ui w1) = task (ui w) ↔ task (ui w4) = task (ui w1))
  ∧ toasts (ui w4)
    = toasts (ui w3) ++ [ {| Toast.type := Toast.error; Toast.text1 := "Hata";
                             Toast.text2 := message e |} ].
Proof.
  intros Ht Hu0 Hu Hr pid w1 w2 w3 w4.
  assert (E0 := step_press w t patch Ht).
  assert (Hp1 : pool w1 !! pid = Some (pressed t patch) ∧ pid < next_pid w1).
  { apply run_other; [|rewrite E0; unfold pid; simpl; lia|done].
    rewrite E0. simpl. apply lookup_insert_eq. }
  destruct Hp1 as [Hp1 Hlt1].
  assert (E2 : w2 = _) by apply (step_apply w1 pid t patch reply0 Hp1).
  assert (Hp3 : pool w3 !! pid = Some (in_flight t patch)).
  { apply run_other; [|by rewrite E2|done].
    rewrite E2. simpl. apply lookup_insert_eq. }
  assert (E4 := step_rollback w3 pid t patch reply e Hp3 Hr).
  fold w4 in E4. rewrite E4, E2, E0. simpl. rewrite Ht.
  by repeat split.
Qed.

Lemma rollback_exact_witness :
  let w := init (Sample.screen []) in
  let w1 := run (step w (Press (PatchStatus yapılıyor)))
              [Press (PatchPriority high)] in
  let w2 := step w1 (Deliver 0 (Sample.accept Sample.task7 [] None)) in
  let w3 := run w2 [Deliver 1 (Sample.accept Sample.task7 [] None);
                    Deliver 1 (Sample.accept Sample.task7 [] None)] in
  let w4 := step w3 (Deliver 0 (Sample.refuse "network error" Sample.task7)) in
  ui (step w (Press (PatchStatus yapılıyor))) = ui w
  ∧ task (ui w2) = Some (patched Sample.task7 (PatchStatus yapılıyor))
  ∧ task (ui w4) = task (ui w)
  ∧ (task (ui w1) = task (ui w) ↔ task (ui w4) = task (ui w1))
  ∧ toasts (ui w4)
    = toasts (ui w3) ++ [ {| Toast.type := Toast.error; Toast.text1 := "Hata";
                             Toast.text2 := "network error" |} ].
Proof.
  apply (rollback_exact (init (Sample.screen [])) Sample.task7
           (PatchStatus yapılıyor) [Press (PatchPriority high)] _ _ _
           {| message := "network error" |}).
  - reflexivity.
  - repeat constructor.
  - repeat constructor; simpl; lia.
  - reflexivity.
Defined.

(** C2, as stated, fails.  A status change is in flight, showing
    [yapılıyor]; a priority change is pressed and captures that task; while
    it awaits its haptic the status update is refused and the task is back
    at [yapılacak].  The priority change is then applied to the captured
    task and refused in turn: the rollback shows [yapılıyor] again, not the
    state right before its optimistic change. *)
Lemma rollback_misses_state_before_change :
  let w := run (init (Sample.screen []))
             [Press (PatchStatus yapılıyor);
              Deliver 0 (Sample.accept Sample.task7 [] None)] in
  let w1 := run (step w (Press (PatchPriority high)))
              [Deliver 0 (Sample.refuse "network error" Sample.task7)] in
  let w2 := step w1 (Deliver 1 (Sample.accept Sample.task7 [] None)) in
  let w4 := step w2 (Deliver 1 (Sample.refuse "network error" Sample.task7)) in
  task (ui w1) = Some Sample.task7
  ∧ task (ui w2)
    = Some (patched (patched Sample.task7 (PatchStatus yapılıyor))
              (PatchPriority high))
  ∧ task (ui w4) = Some (patched Sample.task7 (PatchStatus yapılıyor))
  ∧ task (ui w4) ≠ task (ui w1).
Proof.
  cbv zeta. split; [reflexivity|]. split; [reflexivity|].
  split; [reflexivity|]. intros E. vm_compute in E. discriminate E.
Qed.
End Overlapping.

(** ** Signed URLs and the media list *)
Section Media.
Import TaskDetail Expected.

Lemma makeSigned_from_play env rows : ∀ n out s,
  play env n (makeSigned_from out rows) s
  = (s, sign_trace env n s rows, Returned (out ++ signed env n rows)).
Proof.
  induction rows as [|row rows IH]; intros n out s; simpl.
  - by rewrite app_nil_r.
  - rewrite IH. by rewrite <- app_assoc.
Qed.

Lemma calls_sign_trace env rows : ∀ n s,
  calls (sign_trace env n s rows)
  = map (λ row, StorageSign "task-media" (MediaRow.storage_path row) 3600) rows.
Proof.
  induction rows as [|row rows IH]; intros n s; [done|].
  unfold calls, exchanges in *. simpl. by rewrite IH.
Qed.

Lemma length_sign_trace env rows : ∀ n s,
  length (sign_trace env n s rows) = length rows.
Proof. induction rows as [|row rows IH]; intros n s; simpl; by rewrite ?IH. Qed.

(** What a run of [loadMedia] does. *)
Lemma loadMedia_play env n taskId s :
  play env n (loadMedia taskId) s =
  let s1 := setMediaLoading true s in
  match env n (TaskMediaSelect taskId) with
  | Failed error =>
      let s2 := Toast_show Toast.error "Hata" (message error) s1 in
      (setMediaLoading false s2,
       [(s1, exch (TaskMediaSelect taskId) (Failed error));
        (s2, exch (HapticsNotification FeedbackError)
               (env (Datatypes.S n) (HapticsNotification FeedbackError)))],
       Returned tt)
  | Data data =>
      let rows := Js.nullish data [] in
      (setMediaLoading false (setMedia (λ _, signed env (Datatypes.S n) rows) s1),
       (s1, exch (TaskMediaSelect taskId) (Data data))
         :: sign_trace env (Datatypes.S n) s1 rows,
       Returned tt)
  end.
Proof.
  unfold loadMedia. simpl.
  destruct (env n (TaskMediaSelect taskId)) as [error|data]; simpl; [done|].
  rewrite play_bind. unfold makeSigned. rewrite makeSigned_from_play. simpl.
  by rewrite app_nil_r.
Qed.

(** C4, as the code has it: every resolution asks the storage for a signed
    URL again, once per row and with a validity of 3600, and returns the
    URL of that very call; nothing is kept from one resolution to the
    next, and the screen state is not consulted. *)
Theorem makeSigned_signs_every_row env n rows s :
  play env n (makeSigned rows) s
  = (s, sign_trace env n s rows, Returned (signed env n rows))
  ∧ calls (sign_trace env n s rows)
    = map (λ row, StorageSign "task-media" (MediaRow.storage_path row) 3600) rows.
Proof.
  split; [|apply calls_sign_trace].
  unfold makeSigned. by rewrite makeSigned_from_play.
Qed.

(** C4, as stated, fails: two loads of the media list one after the other
    sign the same attachment twice, and the second URL replaces a
    different first one. *)
Lemma signed_url_not_memoized :
  let '(s1, tr1, _) := play Sample.rotating 0 (loadMedia 7) (Sample.screen []) in
  let '(s2, tr2, _) := play Sample.rotating (length tr1) (loadMedia 7) s1 in
  List.filter is_sign (calls (tr1 ++ tr2))
  = [StorageSign "task-media" "u1/7/1700000000000.jpg" 3600;
     StorageSign "task-media" "u1/7/1700000000000.jpg" 3600]
  ∧ MediaRow.signedUrl <$> media s1 = [Some "https://cdn/sign?token=1"]
  ∧ MediaRow.signedUrl <$> media s2 = [Some "https://cdn/sign?token=3"].
Proof. vm_compute. done. Qed.

(** What a run of [deleteMedia] does, by the answers of the storage and of
    the media table. *)
Lemma deleteMedia_play env n taskId row s :
  let remove := StorageRemove "task-media" [MediaRow.storage_path row] in
  let delete := TaskMediaDelete (MediaRow.id row) in
  let s1 := setMedia (without row) (closeConfirm s) in
  play env n (deleteMedia taskId row) s =
  match env (1 + n) remove with
  | Some sErr =>
      let s2 := Toast_show Toast.error "Silme hatası" (message sErr)
                  (setMedia (λ prev, row :: prev) s1) in
      (s2,
       [(s, exch HapticsImpact (env n HapticsImpact));
        (s1, exch remove (Some sErr));
        (s2, exch (HapticsNotification FeedbackError)
               (env (2 + n) (HapticsNotification FeedbackError)))],
       Returned tt)
  | None =>
      match env (2 + n) delete with
      | Some dErr =>
          let s2 := Toast_show Toast.error "Kayıt silinemedi" (message dErr) s1 in
          let '(s3, tr, o) := play env (4 + n) (loadMedia taskId) s2 in
          (s3,
           [(s, exch HapticsImpact (env n HapticsImpact));
            (s1, exch remove None);
            (s1, exch delete (Some dErr));
            (s2, exch (HapticsNotification FeedbackError)
                   (env (3 + n) (HapticsNotification FeedbackError)))] ++ tr,
           o)
      | None =>
          let s2 := Toast_show Toast.success "Silindi" "Fotoğraf kaldırıldı." s1 in
          (s2,
           [(s, exch HapticsImpact (env n HapticsImpact));
            (s1, exch remove None);
            (s1, exch delete None);
            (s2, exch (HapticsNotification FeedbackSuccess)
                   (env (3 + n) (HapticsNotification FeedbackSuccess)))],
           Returned tt)
      end
  end.
Proof.
  intros remove delete s1. subst s1. unfold deleteMedia, without.
  generalize (loadMedia taskId). intros reload. simpl.
  fold remove. destruct (env (Datatypes.S n) remove) as [sErr|]; simpl; [done|].
  fold delete. destruct (env (Datatypes.S (Datatypes.S n)) delete) as [dErr|]; simpl; [|done].
  match goal with
  | |- context [play env ?k reload ?z] =>
      by destruct (play env k reload z) as [[??]?]
  end.
Qed.

(** C5: the photo leaves the list before the storage is asked to remove
    exactly the stored path of the row; the row of the media table is
    deleted next, and only when the storage reported no error; when it
    reported one, the photo is put back in the list, the message is shown
    and the media table is not called. *)
Theorem deleteMedia_storage_before_record env n taskId row s :
  let remove := StorageRemove "task-media" [MediaRow.storage_path row] in
  let '(s', tr, _) := play env n (deleteMedia taskId row) s in
  ∃ s1 rest,
    tr = (s, exch HapticsImpact (env n HapticsImpact))
         :: (s1, exch remove (env (1 + n) remove)) :: rest
    ∧ media s1 = without row (media s)
    ∧ match env (1 + n) remove with
      | Some sErr =>
          media s' = row :: without row (media s)
          ∧ toasts s' = toasts s ++ [ {| Toast.type := Toast.error;
                                         Toast.text1 := "Silme hatası";
                                         Toast.text2 := message sErr |} ]
          ∧ List.filter is_record_delete (calls tr) = []
      | None =>
          ∃ rest',
            rest = (s1, exch (TaskMediaDelete (MediaRow.id row))
                          (env (2 + n) (TaskMediaDelete (MediaRow.id row))))
                   :: rest'
      end.
Proof.
  intros remove. pose proof (deleteMedia_play env n taskId row s) as E.
  cbv zeta in E. fold remove in E. rewrite E. clear E.
  destruct (env (1 + n) remove) as [sErr|]; cbv zeta.
  - eexists _, _. by repeat split.
  - destruct (env (2 + n) (TaskMediaDelete (MediaRow.id row))) as [dErr|].
    + destruct (play env (4 + n) (loadMedia taskId) _) as [[s3 tr] o].
      eexists _, _. repeat split. by eexists.
    + eexists _, _. repeat split. by eexists.
Qed.

(** C6, as stated, fails: the storage removed the object, the media table
    refused the delete and still returns the row, and the reload puts the
    deleted photo back in the list. *)
Lemma stale_record_reappears :
  let '(s', tr, _) :=
    play Sample.stale 0 (deleteMedia 7 Sample.photo1)
      (Sample.screen [Sample.photo1]) in
  calls tr = [HapticsImpact;
              StorageRemove "task-media" ["u1/7/1700000000000.jpg"];
              TaskMediaDelete 41;
              HapticsNotification FeedbackError;
              TaskMediaSelect 7;
              StorageSign "task-media" "u1/7/1700000000000.jpg" 3600]
  ∧ In (MediaRow.id Sample.photo1) (MediaRow.id <$> media s').
Proof. vm_compute. split; [done|by left]. Qed.

(** C6, as the code has it: when the storage removed the object and the
    media table refuses the delete, the message is shown and the list is
    loaded again from the media table: it becomes the rows the table
    returns, each signed anew, so a row the table still holds is shown
    again; the removal is kept only when that load fails too.  Nothing is
    uploaded and the delete is not tried again. *)
Theorem failed_record_delete_reloads (env : Env) n taskId row s dErr :
  let remove := StorageRemove "task-media" [MediaRow.storage_path row] in
  let delete := TaskMediaDelete (MediaRow.id row) in
  env (1 + n) remove = None →
  env (2 + n) delete = Some dErr →
  let '(s', tr, _) := play env n (deleteMedia taskId row) s in
  media s' = match env (4 + n) (TaskMediaSelect taskId) with
             | Failed _ => without row (media s)
             | Data data => signed env (5 + n) (Js.nullish data [])
             end
  ∧ In {| Toast.type := Toast.error; Toast.text1 := "Kayıt silinemedi";
          Toast.text2 := message dErr |} (toasts s')
  ∧ calls tr
    = [HapticsImpact; remove; delete; HapticsNotification FeedbackError;
       TaskMediaSelect taskId]
      ++ match env (4 + n) (TaskMediaSelect taskId) with
         | Failed _ => [HapticsNotification FeedbackError]
         | Data data =>
             map (λ r, StorageSign "task-media" (MediaRow.storage_path r) 3600)
               (Js.nullish data [])
         end.
Proof.
  intros remove delete Hs Hd.
  pose proof (deleteMedia_play env n taskId row s) as E.
  cbv zeta in E. fold remove delete in E. rewrite Hs, Hd in E.
  rewrite loadMedia_play in E. rewrite E. clear E. cbv zeta.
  destruct (env (4 + n) (TaskMediaSelect taskId)) as [err|data]; simpl.
  - repeat split. apply in_app_iff. left. apply in_app_iff. right. by left.
  - repeat split.
    + apply in_app_iff. right. by left.
    + unfold calls, exchanges. simpl. do 5 f_equal.
      apply (calls_sign_trace env (Js.nullish data [])).
Qed.

Lemma failed_record_delete_reloads_witness :
  let '(s', tr, _) :=
    play Sample.stale 0 (deleteMedia 7 Sample.photo1)
      (Sample.screen [Sample.photo1]) in
  media s' = match Sample.stale 4 (TaskMediaSelect 7) with
             | Failed _ => without Sample.photo1 [Sample.photo1]
             | Data data => signed Sample.stale 5 (Js.nullish data [])
             end
  ∧ In {| Toast.type := Toast.error; Toast.text1 := "Kayıt silinemedi";
          Toast.text2 := "permission denied" |} (toasts s')
  ∧ calls tr
    = [HapticsImpact; StorageRemove "task-media" [MediaRow.storage_path Sample.photo1];
       TaskMediaDelete (MediaRow.id Sample.photo1);
       HapticsNotification FeedbackError; TaskMediaSelect 7]
      ++ match Sample.stale 4 (TaskMediaSelect 7) with
         | Failed _ => [HapticsNotification FeedbackError]
         | Data data =>
             map (λ r, StorageSign "task-media" (MediaRow.storage_path r) 3600)
               (Js.nullish data [])
         end.
Proof.
  apply (failed_record_delete_reloads Sample.stale 0 7 Sample.photo1
           (Sample.screen [Sample.photo1]) {| message := "permission denied" |});
    reflexivity.
Defined.
End Media.

(** ** Uploads *)
Section Upload.
Import TaskDetail Expected.

Lemma audit_quiet url xs : ∀ prev failed,
  Forall quiet xs → audit url prev failed xs.
Proof.
  induction xs as [|x xs IH]; intros prev failed Hq; [done|].
  inversion Hq as [|?? [Hi Hu] Hq']; subst. simpl. rewrite Hi.
  split; [done|]. by apply IH.
Qed.

Lemma audit_app_quiet url xs ys : ∀ prev failed,
  audit url prev failed xs → Forall quiet ys → audit url prev failed (xs ++ ys).
Proof.
  induction xs as [|x xs IH]; intros prev failed Ha Hq; simpl.
  - by apply audit_quiet.
  - destruct Ha as [Hx Ha]. split; [done|]. by apply IH.
Qed.

Lemma audit_follows url xs : ∀ prev failed,
  audit url prev failed xs →
  ∀ pre x post bucket path,
    xs = pre ++ x :: post → inserted x = Some (bucket, path) →
    ∃ pre' up, option_list prev ++ pre = pre' ++ [up] ∧ uploaded url bucket path up.
Proof.
  induction xs as [|y xs IH]; intros prev failed Ha pre x post bucket path E Hi.
  - by destruct pre.
  - destruct Ha as [Hy Ha]. destruct pre as [|y' pre]; simplify_eq/=.
    + rewrite Hi in Hy. destruct Hy as (_ & up & -> & Hup).
      exists [], up. by rewrite app_nil_r.
    + destruct (IH _ _ Ha pre x post bucket path eq_refl Hi) as (pre' & up & E & Hup).
      exists (option_list prev ++ pre'), up. split; [|done].
      rewrite <- app_assoc, <- E. done.
Qed.

Lemma audit_failed url xs : ∀ prev,
  audit url prev true xs → Forall (λ y, inserted y = None) xs.
Proof.
  induction xs as [|y xs IH]; intros prev Ha; [constructor|].
  destruct Ha as [Hy Ha]. constructor; [|by eapply IH].
  destruct (inserted y) as [[??]|]; [|done]. by destruct Hy.
Qed.

Lemma audit_failure url xs : ∀ prev failed,
  audit url prev failed xs → no_insert_after_failure xs.
Proof.
  induction xs as [|y xs IH]; intros prev failed Ha pre x post E Hf.
  - by destruct pre.
  - destruct Ha as [Hy Ha]. destruct pre as [|y' pre]; simplify_eq/=.
    + rewrite Hf, orb_true_r in Ha. by eapply audit_failed.
    + by eapply IH.
Qed.

Lemma audit_sound url xs :
  audit url None false xs → insert_follows_upload url xs ∧ no_insert_after_failure xs.
Proof.
  intros Ha. split; [|by eapply audit_failure].
  intros pre x post bucket path E Hi.
  by apply (audit_follows url xs None false Ha pre x post bucket path).
Qed.

Lemma sign_trace_quiet env rows : ∀ n s,
  Forall quiet (exchanges (sign_trace env n s rows)).
Proof.
  induction rows as [|row rows IH]; intros n s; simpl; constructor; [done|apply IH].
Qed.

Lemma loadMedia_quiet env n taskId s :
  Forall quiet (exchanges (play env n (loadMedia taskId) s).1.2).
Proof.
  rewrite loadMedia_play. cbv zeta.
  destruct (env n (TaskMediaSelect taskId)) as [err|data]; simpl.
  - by repeat constructor.
  - constructor; [done|apply sign_trace_quiet].
Qed.

Lemma accepted_status (status : Z) :
  negb (status =? 200)%Z && negb (status =? 201)%Z = false →
  (status = 200 ∨ status = 201)%Z.
Proof. intros H. apply andb_false_iff in H. rewrite !negb_false_iff in H. lia. Qed.

Lemma rows_of_uploads url xs : insert_follows_upload url xs → rows_have_objects url xs.
Proof.
  intros Hf bucket path Hin. unfold recorded in Hin.
  apply list_elem_of_omap in Hin as (x & Hx & Hrow).
  apply list_elem_of_split in Hx as (pre & post & ->).
  assert (Hi : inserted x = Some (bucket, path)).
  { destruct x as [c r]. destruct c; try done; destruct r; by simplify_eq/=. }
  destruct (Hf pre x post bucket path eq_refl Hi)
    as (pre' & up & -> & file & bearer & status & -> & Hst).
  unfold stored. apply list_elem_of_omap. eexists. split.
  - apply elem_of_app. left. apply elem_of_app. right. apply list_elem_of_singleton.
    reflexivity.
  - simpl. by destruct Hst as [-> | ->].
Qed.

Ltac solve_uploaded :=
  eexists; split; [reflexivity|]; eexists _, _, _; split;
    [reflexivity|by apply accepted_status].

Lemma processAndUpload_audit env n url task taskId uri w h s :
  audit url None false
    (exchanges (play env n (processAndUpload url task taskId uri w h) s).1.2).
Proof.
  unfold processAndUpload. destruct (truthy uri) as [u|]; [|done].
  rewrite play_finally, play_try_catch.
  pose proof (loadMedia_quiet env (6 + n) taskId) as Hq.
  generalize dependent (loadMedia taskId). intros reload Hq. simpl.
  destruct (env n (Manipulate u (resize_width w) compress)) as [e|file]; simpl; [done|].
  destruct (env (Datatypes.S n) AuthSessionUser) as [e|[accessToken uid]]; simpl; [done|].
  destruct (truthy accessToken) as [tok|]; simpl; [|done].
  destruct (truthy uid) as [uid'|]; simpl; [|done].
  destruct task as [task|]; simpl; [|done].
  match goal with
  | |- context [env ?k (UploadAsync ?a ?b ?c)] =>
      destruct (env k (UploadAsync a b c)) as [e|status]
  end; simpl; [done|].
  destruct (negb (status =? 200)%Z && negb (status =? 201)%Z) eqn:Hst; simpl; [done|].
  match goal with
  | |- context [env ?k (TaskMediaInsert ?a ?b ?c)] =>
      destruct (env k (TaskMediaInsert a b c)) as [err|]
  end; simpl.
  { repeat split; try done. solve_uploaded. }
  specialize (Hq (Toast_show Toast.success "Yüklendi" "Fotoğraf eklendi."
                    (setUploading true s))).
  simpl in Hq. destruct (play env _ reload _) as [[s3 tr] [a|e]]; simpl in *.
  - repeat split; try done; [solve_uploaded|by apply audit_quiet].
  - repeat split; try done; [solve_uploaded|].
    apply audit_quiet. unfold exchanges. rewrite map_app. apply Forall_app.
    split; [done|]. by repeat constructor.
Qed.

Lemma upload_photos_audit url tok uid expenseId photos :
  ∀ env n prev (s : ExpenseAdd.State),
    audit url prev false
      (exchanges
         (play env n (ExpenseAdd.upload_photos url tok uid expenseId photos) s).1.2).
Proof.
  induction photos as [|ph photos IH]; intros env n prev s; simpl; [done|].
  destruct (env n (Manipulate _ _ _)) as [e|file]; simpl; [done|].
  match goal with
  | |- context [env ?k (UploadAsync ?a ?b ?c)] =>
      destruct (env k (UploadAsync a b c)) as [e|status]
  end; simpl; [done|].
  destruct (negb (status =? 200)%Z && negb (status =? 201)%Z) eqn:Hst; simpl; [done|].
  match goal with
  | |- context [env ?k (ExpenseMediaInsert ?a ?b ?c ?d)] =>
      pose proof (IH env (5 + n) (Some (exch (ExpenseMediaInsert a b c d) None)) s) as IH';
      destruct (env k (ExpenseMediaInsert a b c d)) as [err|]
  end; simpl.
  { repeat split; try done. solve_uploaded. }
  destruct (play env _ (ExpenseAdd.upload_photos url tok uid expenseId photos) s)
    as [[s3 tr] o].
  simpl in *. repeat split; try done; [solve_uploaded|by rewrite Hst].
Qed.

Lemma onSave_audit env n url projectId taskId amountText description dateText
    photos s :
  audit url None false
    (exchanges (play env n (ExpenseAdd.onSave url projectId taskId amountText
                              description dateText photos) s).1.2).
Proof.
  unfold ExpenseAdd.onSave.
  destruct (negb (ExpenseAdd.isAmountValid amountText)); [done|].
  rewrite play_finally, play_try_catch. simpl.
  destruct (env n AuthSessionUser) as [e|[accessToken uid]]; simpl; [done|].
  destruct (truthy accessToken) as [tok|]; simpl; [|done].
  destruct (truthy uid) as [uid'|]; simpl; [|done].
  destruct (ExpenseAdd.company_of _) as [company|]; simpl; [|done].
  destruct (env _ (ExpensesInsert _)) as [err|expenseId] eqn:Hins; simpl; [done|].
  rewrite play_bind.
  match goal with
  | |- context [play env ?k (match photos with [] => ?a | _ :: _ => ?b end) ?z] =>
      assert (Hl : ∀ prev, audit url prev false
                (exchanges (play env k (match photos with [] => a | _ :: _ => b end) z).1.2))
        by (intros prev; destruct photos; [done|apply upload_photos_audit]);
      destruct (play env k (match photos with [] => a | _ :: _ => b end) z)
        as [[s3 tr] [[]|e]]
  end; simpl in *.
  - repeat split; try done. unfold exchanges. rewrite map_app.
    apply audit_app_quiet; [apply Hl|]. by repeat constructor.
  - repeat split; try done. unfold exchanges. rewrite map_app.
    apply audit_app_quiet; [apply Hl|]. by repeat constructor.
Qed.

(** C3: in a photo upload of the task screen and in the save of the expense
    form, every insert of an attachment row comes right after the upload
    of the object it refers to, answered with 200 or 201; once an upload
    has failed nothing is inserted; so every row a run records refers to an
    object the run has stored. *)
Theorem record_only_after_upload (env : Env) (n : nat) (supabaseUrl : string) :
  (∀ task taskId uri w h s,
     let xs := exchanges (play env n (processAndUpload supabaseUrl task taskId
                                        uri w h) s).1.2 in
     insert_follows_upload supabaseUrl xs
     ∧ no_insert_after_failure xs
     ∧ rows_have_objects supabaseUrl xs)
  ∧ (∀ projectId taskId amountText description dateText photos s,
       let xs := exchanges (play env n (ExpenseAdd.onSave supabaseUrl projectId
                                          taskId amountText description
                                          dateText photos) s).1.2 in
       insert_follows_upload supabaseUrl xs
       ∧ no_insert_after_failure xs
       ∧ rows_have_objects supabaseUrl xs).
Proof.
  split.
  - intros task taskId uri w h s xs.
    destruct (audit_sound supabaseUrl xs) as [H1 H2];
      [apply processAndUpload_audit|].
    repeat split; [done..|by apply rows_of_uploads].
  - intros projectId taskId amountText description dateText photos s xs.
    destruct (audit_sound supabaseUrl xs) as [H1 H2]; [apply onSave_audit|].
    repeat split; [done..|by apply rows_of_uploads].
Qed.
End Upload.

(** ** The transform step and the storage path *)
Section Transform.
Import TaskDetail Expected.

Lemma resize_width_le (w : option Z) : (resize_width w ≤ 1600)%Z.
Proof. unfold resize_width. lia. Qed.

Lemma quiet_sends file x : quiet x → sends file x.
Proof. destruct x as [c r]. by destruct c; intros [? ?]. Qed.

(** Every upload of [processAndUpload] sends the file the manipulator
    returned. *)
Lemma processAndUpload_sends (env : Env) n url task taskId uri w h s file :
  uri ≠ "" →
  env n (Manipulate uri (resize_width w) compress) = Fulfilled file →
  Forall (sends file)
    (exchanges (play env n (processAndUpload url task taskId (Some uri) w h) s).1.2).
Proof.
  intros Hu Hm. unfold processAndUpload.
  assert (truthy (Some uri) = Some uri) as -> by (by destruct uri).
  rewrite play_finally, play_try_catch.
  pose proof (loadMedia_quiet env (6 + n) taskId) as Hq.
  generalize dependent (loadMedia taskId). intros reload Hq. simpl.
  rewrite Hm. simpl.
  destruct (env (Datatypes.S n) AuthSessionUser) as [e|[accessToken uid]]; simpl;
    [by repeat constructor|].
  destruct (truthy accessToken) as [tok|]; simpl; [|by repeat constructor].
  destruct (truthy uid) as [uid'|]; simpl; [|by repeat constructor].
  destruct task as [task|]; simpl; [|by repeat constructor].
  match goal with
  | |- context [env ?k (UploadAsync ?a ?b ?c)] =>
      destruct (env k (UploadAsync a b c)) as [e|status]
  end; simpl; [by repeat constructor|].
  destruct (negb (status =? 200)%Z && negb (status =? 201)%Z); simpl;
    [by repeat constructor|].
  match goal with
  | |- context [env ?k (TaskMediaInsert ?a ?b ?c)] =>
      destruct (env k (TaskMediaInsert a b c)) as [err|]
  end; simpl; [by repeat constructor|].
  specialize (Hq (Toast_show Toast.success "Yüklendi" "Fotoğraf eklendi."
                    (setUploading true s))).
  simpl in Hq. destruct (play env _ reload _) as [[s3 tr] [a|e]]; simpl in *.
  - repeat (constructor; [done|]).
    eapply Forall_impl; [exact Hq|]. intros x. apply quiet_sends.
  - repeat (constructor; [done|]).
    unfold exchanges. rewrite map_app. apply Forall_app. split; [|by repeat constructor].
    eapply Forall_impl; [exact Hq|]. intros x. apply quiet_sends.
Qed.

Lemma sign_trace_no_files env rows : ∀ n s,
  file_ops (exchanges (sign_trace env n s rows)) = [].
Proof. induction rows as [|row rows IH]; intros n s; simpl; [done|apply IH]. Qed.

Lemma loadMedia_no_files env n taskId s :
  file_ops (exchanges (play env n (loadMedia taskId) s).1.2) = [].
Proof.
  rewrite loadMedia_play. cbv zeta.
  destruct (env n (TaskMediaSelect taskId)) as [err|data]; simpl; [done|].
  apply sign_trace_no_files.
Qed.

Lemma compress_value : compress = Js.Number "0.8".
Proof. vm_compute. reflexivity. Qed.

Lemma resize_width_value w : resize_width w = Z.min (default 1600%Z w) 1600.
Proof. by destruct w. Qed.

Lemma processAndUpload_transforms (env : Env) n url task taskId uri w h s :
  transforms compress
    (match truthy uri with Some u => [(u, w)] | None => [] end)
    (file_ops (exchanges (play env n (processAndUpload url task taskId uri w h)
                            s).1.2)).
Proof.
  unfold processAndUpload. destruct (truthy uri) as [u|]; [|done].
  rewrite play_finally, play_try_catch.
  pose proof (loadMedia_no_files env (6 + n) taskId) as Hq.
  generalize dependent (loadMedia taskId). intros reload Hq.
  pose proof (resize_width_value w) as Hw.
  generalize dependent (resize_width w). intros width Hw. simpl.
  generalize compress. intros q.
  destruct (env n (Manipulate u width q)) as [e|file]; simpl; [done|].
  destruct (env (Datatypes.S n) AuthSessionUser) as [e|[accessToken uid]]; simpl;
    [done|].
  destruct (truthy accessToken) as [tok|]; simpl; [|done].
  destruct (truthy uid) as [uid'|]; simpl; [|done].
  destruct task as [task|]; simpl; [|done].
  match goal with
  | |- context [env ?k (UploadAsync ?a ?b ?c)] =>
      destruct (env k (UploadAsync a b c)) as [e|status]
  end; simpl; [done|].
  destruct (negb (status =? 200)%Z && negb (status =? 201)%Z); simpl; [done|].
  match goal with
  | |- context [env ?k (TaskMediaInsert ?a ?b ?c)] =>
      destruct (env k (TaskMediaInsert a b c)) as [err|]
  end; simpl; [done|].
  specialize (Hq (Toast_show Toast.success "Yüklendi" "Fotoğraf eklendi."
                    (setUploading true s))).
  simpl in Hq. destruct (play env _ reload _) as [[s3 tr] [a|e]]; simpl in *.
  - by rewrite Hq.
  - unfold file_ops, exchanges in *. by rewrite map_app, omap_app, Hq.
Qed.

Lemma upload_photos_counts url tok uid expenseId photos :
  ∀ (env : Env) n (s : ExpenseAdd.State),
    Forall (λ x, call_of x ≠ NavGoBack)
      (exchanges (play env n (ExpenseAdd.upload_photos url tok uid expenseId
                                photos) s).1.2)
    ∧ ((play env n (ExpenseAdd.upload_photos url tok uid expenseId photos)
          s).2 = Returned tt →
       length (recorded
                 (exchanges (play env n (ExpenseAdd.upload_photos url tok uid
                                           expenseId photos) s).1.2))
       = length photos).
Proof.
  induction photos as [|ph photos IH]; intros env n s; simpl; [done|].
  destruct (env n (Manipulate _ _ _)) as [e|file]; simpl;
    [by repeat constructor|].
  match goal with
  | |- context [env ?k (UploadAsync ?a ?b ?c)] =>
      destruct (env k (UploadAsync a b c)) as [e|status]
  end; simpl; [by repeat constructor|].
  destruct (negb (status =? 200)%Z && negb (status =? 201)%Z); simpl;
    [by repeat constructor|].
  match goal with
  | |- context [env ?k (ExpenseMediaInsert ?a ?b ?c ?d)] =>
      pose proof (IH env (5 + n) s) as [IH1 IH2];
      destruct (env k (ExpenseMediaInsert a b c d)) as [err|]
  end; simpl; [by repeat constructor|].
  destruct (play env _
              (ExpenseAdd.upload_photos url tok uid expenseId photos) s)
    as [[s3 tr] o]. simpl in *.
  split; [by repeat (constructor; [done|])|].
  intros Ho. by rewrite IH2.
Qed.

Lemma upload_photos_transforms url tok uid expenseId photos :
  ∀ (env : Env) n (s : ExpenseAdd.State),
    let run := play env n (ExpenseAdd.upload_photos url tok uid expenseId
                             photos) s in
    transforms compress
      (map (λ ph, (ExpenseAdd.LocalPhoto.uri ph, ExpenseAdd.LocalPhoto.w ph))
         photos)
      (file_ops (exchanges run.1.2))
    ∧ (run.2 = Returned tt →
       length (file_ops (exchanges run.1.2)) = 2 * length photos).
Proof.
  induction photos as [|ph photos IH]; intros env n s; cbv zeta; [done|].
  cbn [ExpenseAdd.upload_photos map].
  pose proof (resize_width_value (ExpenseAdd.LocalPhoto.w ph)) as Hw.
  generalize dependent (resize_width (ExpenseAdd.LocalPhoto.w ph)).
  intros width Hw. simpl.
  destruct (env n (Manipulate _ _ _)) as [e|file]; simpl; [done|].
  match goal with
  | |- context [env ?k (UploadAsync ?a ?b ?c)] =>
      destruct (env k (UploadAsync a b c)) as [e|status]
  end; simpl; [done|].
  destruct (negb (status =? 200)%Z && negb (status =? 201)%Z); simpl; [done|].
  match goal with
  | |- context [env ?k (ExpenseMediaInsert ?a ?b ?c ?d)] =>
      pose proof (IH env (5 + n) s) as [IH1 IH2];
      destruct (env k (ExpenseMediaInsert a b c d)) as [err|]
  end; simpl; [done|].
  destruct (play env _
              (ExpenseAdd.upload_photos url tok uid expenseId photos) s)
    as [[s3 tr] o]. simpl in *.
  split; [done|]. intros Ho. rewrite (IH2 Ho). lia.
Qed.

Lemma onSave_transforms (env : Env) n url projectId taskId amountText
    description dateText photos s :
  let run := play env n (ExpenseAdd.onSave url projectId taskId amountText
                           description dateText photos) s in
  transforms compress
    (map (λ ph, (ExpenseAdd.LocalPhoto.uri ph, ExpenseAdd.LocalPhoto.w ph))
       photos)
    (file_ops (exchanges run.1.2))
  ∧ (In NavGoBack (calls run.1.2) →
     length (file_ops (exchanges run.1.2)) = 2 * length photos).
Proof.
  cbv zeta. unfold ExpenseAdd.onSave.
  destruct (negb (ExpenseAdd.isAmountValid amountText)); simpl.
  { split; [done|]. intros [|[]]; done. }
  rewrite play_finally, play_try_catch. simpl.
  destruct (env n AuthSessionUser) as [e|[accessToken uid]]; simpl.
  { split; [done|]. intros [|[|[]]]; done. }
  destruct (truthy accessToken) as [tok|]; simpl;
    [|split; [done|]; intros [|[|[]]]; done].
  destruct (truthy uid) as [uid'|]; simpl;
    [|split; [done|]; intros [|[|[]]]; done].
  destruct (ExpenseAdd.company_of _) as [company|]; simpl;
    [|split; [done|]; intros [|[|[|[]]]]; done].
  destruct (env _ (ExpensesInsert _)) as [err|expenseId]; simpl;
    [split; [done|]; intros [|[|[|[|[]]]]]; done|].
  rewrite play_bind.
  match goal with
  | |- context [play env ?k (match photos with [] => ?a | _ :: _ => ?b end) ?z] =>
      assert (Hl :
        (transforms compress
           (map (λ ph, (ExpenseAdd.LocalPhoto.uri ph,
                        ExpenseAdd.LocalPhoto.w ph)) photos)
           (file_ops (exchanges
              (play env k (match photos with [] => a | _ :: _ => b end)
                 z).1.2))
         ∧ ((play env k (match photos with [] => a | _ :: _ => b end) z).2
            = Returned tt →
            length (file_ops (exchanges
              (play env k (match photos with [] => a | _ :: _ => b end)
                 z).1.2)) = 2 * length photos))
        ∧ Forall (λ x, call_of x ≠ NavGoBack)
            (exchanges (play env k
               (match photos with [] => a | _ :: _ => b end) z).1.2));
      [|destruct (play env k (match photos with [] => a | _ :: _ => b end) z)
          as [[s3 tr] [[]|e]]]
  end.
  { destruct photos as [|ph ps]; [done|]. generalize (ph :: ps). intros l.
    simpl. split.
    - apply (upload_photos_transforms url tok uid' expenseId l env).
    - apply (upload_photos_counts url tok uid' expenseId l env). }
  - simpl in *. destruct Hl as ((Ht & Hc) & Hf).
    unfold file_ops, exchanges in *. rewrite !map_app, !omap_app. simpl.
    rewrite app_nil_r. split; [done|]. intros _. by apply Hc.
  - simpl in *. destruct Hl as ((Ht & Hc) & Hf).
    unfold file_ops, exchanges in *. rewrite !map_app, !omap_app. simpl.
    rewrite app_nil_r. split; [done|]. intros Hin. exfalso.
    unfold calls, exchanges in Hin. simpl in Hin.
    destruct Hin as [|[|[|Hin]]]; try done.
    rewrite ?map_app in Hin. apply in_app_iff in Hin as [Hin|[|[]]]; [|done].
    apply in_map_iff in Hin as (x & Hx & Hin).
    rewrite Forall_forall in Hf. apply (Hf x); [by apply list_elem_of_In|done].
Qed.

(** C7, as the code has it: on both screens the transform asks the
    manipulator for a resize to the width [min(w, 1600)], 1600 when the
    width is unknown, whatever the height is, and for a re-encoding at the
    fixed quality 0.8; every upload sends the file the manipulation just
    before it returned, for the photo of the task screen and for each
    photo of the expense form in turn, all of them when the form goes
    back.  The original goes to the manipulator and to no other call.
    With the height scaled in proportion the longer edge ends at most 1600
    for an image at least as wide as it is tall, a 3000 by 2000 source
    becoming 1600 wide and 1066 or 1067 high; an image taller than 1600
    whose height exceeds its width by one part in 1600 or more keeps a
    height above 1600. *)
Theorem resize_clamps_width :
  (∀ (env : Env) n url task taskId uri w h s,
     let run := play env n (processAndUpload url task taskId uri w h) s in
     transforms (Js.Number "0.8")
       (match truthy uri with Some u => [(u, w)] | None => [] end)
       (file_ops (exchanges run.1.2))
     ∧ (∀ u, truthy uri = Some u →
          calls run.1.2 !! 0
          = Some (Manipulate u (Z.min (default 1600%Z w) 1600)
                    (Js.Number "0.8"))))
  ∧ (∀ (env : Env) n url projectId taskId amountText description dateText
       photos s,
       let run := play env n (ExpenseAdd.onSave url projectId taskId
                                amountText description dateText photos) s in
       transforms (Js.Number "0.8")
         (map (λ ph, (ExpenseAdd.LocalPhoto.uri ph, ExpenseAdd.LocalPhoto.w ph))
            photos)
         (file_ops (exchanges run.1.2))
       ∧ (In NavGoBack (calls run.1.2) →
          length (file_ops (exchanges run.1.2)) = 2 * length photos))
  ∧ (∀ w h h' : Z,
       (0 < h ≤ w)%Z → proportional w h (Z.min w 1600) h' →
       (Z.max (Z.min w 1600) h' ≤ 1600)%Z)
  ∧ (∀ w h h' : Z,
       (0 < w)%Z → (1600 < h)%Z → (w + 1600 * w ≤ 1600 * h)%Z →
       proportional w h (Z.min w 1600) h' → (1600 < h')%Z)
  ∧ (∀ h' : Z,
       proportional 3000 2000 (Z.min 3000 1600) h' → (1066 ≤ h' ≤ 1067)%Z).
Proof.
  split; [|split; [|split; [|split]]].
  - intros env n url task taskId uri w h s run. rewrite <- compress_value.
    split.
    + apply processAndUpload_transforms.
    + intros u Hu. subst run. rewrite <- resize_width_value.
      rewrite play_first_call. unfold processAndUpload.
      rewrite Hu, first_call_finally, first_call_try_catch; simpl; eauto.
  - intros env n url projectId taskId amountText description dateText photos s.
    rewrite <- compress_value. apply onSave_transforms.
  - intros w h h' Hwh Hp. unfold proportional in Hp. nia.
  - intros w h h' Hw Hh Hwh Hp. unfold proportional in Hp. nia.
  - intros h' Hp. unfold proportional in Hp. lia.
Qed.

Lemma resize_clamps_width_witness :
  (0 < 2000 ≤ 3000)%Z
  ∧ proportional 3000 2000 (Z.min 3000 1600) 1067
  ∧ (Z.max (Z.min 3000 1600) 1067 ≤ 1600)%Z.
Proof.
  assert (0 < 2000 ≤ 3000)%Z as H1 by lia.
  assert (proportional 3000 2000 (Z.min 3000 1600) 1067) as H2
    by (unfold proportional; simpl; lia).
  split; [exact H1|]. split; [exact H2|].
  exact (proj1 (proj2 (proj2 resize_clamps_width)) 3000%Z 2000%Z 1067%Z H1 H2).
Defined.

(** C7, as stated, fails: for a portrait source of 2000 by 3000 the
    transform is asked for the width 1600 alone, and the height scaled in
    proportion is 2400: the longer edge is not clamped. *)
Lemma portrait_longer_edge_not_clamped :
  calls (play (λ _, Sample.accept Sample.task7 [] None) 0
           (processAndUpload "https://x.supabase.co" (Some Sample.task7) 7
              (Some "file:///p.jpg") (Some 2000%Z) (Some 3000%Z))
           (Sample.screen [])).1.2 !! 0
  = Some (Manipulate "file:///p.jpg" 1600 compress)
  ∧ proportional 2000 3000 1600 2400
  ∧ (1600 < Z.max 1600 2400)%Z.
Proof. split; [by vm_compute|]. split; [unfold proportional|]; lia. Qed.

Lemma length_app (a b : string) :
  String.length (a +:+ b) = String.length a + String.length b.
Proof. induction a as [|c a IH]; simpl; [done|]. by rewrite IH. Qed.

Lemma app_inj_r (a b s : string) : a +:+ s = b +:+ s → a = b.
Proof.
  revert b. induction a as [|c a IH]; intros [|c' b] E.
  - done.
  - apply (f_equal String.length) in E. rewrite !length_app in E. simpl in E. lia.
  - apply (f_equal String.length) in E. rewrite !length_app in E. simpl in E. lia.
  - injection E as -> E. f_equal. by apply IH.
Qed.

(** On the expense form two uploads by the same user for the same expense
    in the same millisecond still differ when their random tokens do. *)
Lemma expense_paths_differ uid id now rnd1 rnd2 :
  Js.slice 2 8 rnd1 ≠ Js.slice 2 8 rnd2 →
  ExpenseAdd.storagePath uid id now rnd1 ≠ ExpenseAdd.storagePath uid id now rnd2.
Proof.
  intros Hne E. apply Hne. unfold ExpenseAdd.storagePath in E.
  repeat (apply (inj (String.app _)) in E).
  by apply app_inj_r in E.
Qed.

(** C8: the path derived for a photo of a task is
    [{uid}/{task id}/{timestamp}.jpg], with no random token: two uploads
    of different files by the same user for the same task in the same
    millisecond insert rows with the same storage path; the expense form
    does add a random token after the timestamp. *)
Theorem task_upload_paths_collide :
  let inserts (file : string) :=
    List.filter is_insert
      (calls (play (λ _, Sample.accept Sample.task7 [] None) 0
                (processAndUpload "https://x.supabase.co" (Some Sample.task7) 7
                   (Some file) (Some 3000%Z) (Some 2000%Z))
                (Sample.screen [])).1.2) in
  inserts "file:///a.jpg"
  = [TaskMediaInsert 7 "u1/7/1700000000000.jpg" "u1/7/1700000000000.jpg"]
  ∧ inserts "file:///b.jpg"
    = [TaskMediaInsert 7 "u1/7/1700000000000.jpg" "u1/7/1700000000000.jpg"]
  ∧ (∀ uid id now,
       storagePath uid id now
       = uid +:+ "/" +:+ pretty id +:+ "/" +:+ pretty now +:+ ".jpg")
  ∧ (∀ uid id now rnd,
       ExpenseAdd.storagePath uid id now rnd
       = uid +:+ "/" +:+ pretty id +:+ "/" +:+ pretty now +:+ "_"
           +:+ Js.slice 2 8 rnd +:+ ".jpg").
Proof. split; [by vm_compute|]. split; [by vm_compute|]. done. Qed.
End Transform.

(** ** Amounts *)
Section Amounts.
Import TaskDetail.

Lemma not_positive (x : Js.number) :
  Js.le x (Js.of_int 0) = true → Js.gt x (Js.of_int 0) = false.
Proof. by destruct x as [[]|[]| |[] m e]. Qed.

Lemma invalid_amount amountText :
  Js.isNaN (ExpenseAdd.amountNum amountText) = true
  ∨ Js.le (ExpenseAdd.amountNum amountText) (Js.of_int 0) = true →
  ExpenseAdd.isAmountValid amountText = false.
Proof.
  unfold ExpenseAdd.isAmountValid. intros [H|H].
  - by destruct (ExpenseAdd.amountNum amountText).
  - rewrite (not_positive _ H). apply andb_false_r.
Qed.

(** C9: on the expense form ["12,50"] parses to 12.5 and is accepted; an
    amount that is not a number or is not above zero, as ["0"], ["-5"] and
    ["abc"] are, is rejected: [onSave] shows the toast and makes no call
    but the haptic, and leaves [saving] and [uploading] as they were. *)
Theorem onSave_rejects_invalid_amount :
  (ExpenseAdd.amountNum "12,50" = S754_finite false 7036874417766400 (-49)
   ∧ (2 * 7036874417766400 = 25 * 2 ^ 49)%Z
   ∧ round2 (ExpenseAdd.amountNum "12,50") = ExpenseAdd.amountNum "12,50"
   ∧ ExpenseAdd.isAmountValid "12,50" = true)
  ∧ (ExpenseAdd.isAmountValid "0" = false
     ∧ ExpenseAdd.isAmountValid "-5" = false
     ∧ ExpenseAdd.isAmountValid "abc" = false)
  ∧ ∀ amountText,
      Js.isNaN (ExpenseAdd.amountNum amountText) = true
      ∨ Js.le (ExpenseAdd.amountNum amountText) (Js.of_int 0) = true →
      ∀ (env : Env) n url projectId taskId description dateText photos s,
        let s1 := ExpenseAdd.Toast_show Toast.error "Tutar gerekli"
                    "Lütfen geçerli bir tutar girin." s in
        play env n (ExpenseAdd.onSave url projectId taskId amountText description
                      dateText photos) s
        = (s1,
           [(s1, exch (HapticsNotification FeedbackError)
                   (env n (HapticsNotification FeedbackError)))],
           Returned tt)
        ∧ ExpenseAdd.saving s1 = ExpenseAdd.saving s
        ∧ ExpenseAdd.uploading s1 = ExpenseAdd.uploading s.
Proof.
  split; [by vm_compute|]. split; [by vm_compute|].
  intros amountText H env n url projectId taskId description dateText photos s s1.
  unfold ExpenseAdd.onSave. by rewrite (invalid_amount _ H).
Qed.

Lemma onSave_rejects_invalid_amount_witness :
  let s1 := ExpenseAdd.Toast_show Toast.error "Tutar gerekli"
              "Lütfen geçerli bir tutar girin." Sample.form in
  play (λ _, Sample.accept Sample.task7 [] None) 0
    (ExpenseAdd.onSave "https://x.supabase.co" 3 (Some 7%Z) "-5" "" "2025-01-02" [])
    Sample.form
  = (s1, [(s1, exch (HapticsNotification FeedbackError) tt)], Returned tt)
  ∧ ExpenseAdd.saving s1 = false
  ∧ ExpenseAdd.uploading s1 = false.
Proof.
  apply (proj2 (proj2 onSave_rejects_invalid_amount) "-5").
  right. vm_compute. reflexivity.
Defined.

Lemma substring_all (s : string) :
  String.substring 0 (String.length s) s = s.
Proof. induction s as [|c s IH]; simpl; [done|]. by rewrite IH. Qed.

(** [(a + ',' + b).replace(',', '.')] is [a + '.' + b] when [a] has no
    comma: the first comma becomes a point, a later one stays. *)
Lemma replace_first_comma (a b : string) :
  Forall (λ c, c ≠ ","%char) (list_ascii_of_string a) →
  Js.replace "," "." (a +:+ "," +:+ b) = a +:+ "." +:+ b.
Proof.
  induction a as [|c a IH]; intros Ha.
  - change ("" +:+ "," +:+ b) with (String "," b).
    change ("" +:+ "." +:+ b) with (String "." b).
    cbn [Js.replace String.prefix].
    destruct (ascii_dec "," ",") as [_|?]; [|done].
    unfold Js.drop. cbn [String.length]. rewrite Nat.sub_succ, Nat.sub_0_r.
    cbn [String.substring].
    change ("." +:+ ?x) with (String "." x).
    assert (String.prefix "" b = true) as -> by (by destruct b).
    by rewrite substring_all.
  - apply Forall_cons in Ha as [Hc Ha].
    change (String c a +:+ "," +:+ b) with (String c (a +:+ "," +:+ b)).
    cbn [Js.replace String.prefix].
    destruct (ascii_dec "," c) as [E|_]; [by subst|].
    change (String c a +:+ "." +:+ b) with (String c (a +:+ "." +:+ b)).
    f_equal. by apply IH.
Qed.

(** C10: the edit of an expense checks only that the amount, its first comma
    read as a point, parses to a finite number: then the update is sent with
    the amount rounded to two decimals, be it zero or negative, as for ["0"]
    and ["-5"], which the expense form rejects; otherwise nothing is sent
    and the toast says that the amount is wrong.  The comma: a text with a
    comma is read as the same text with its first comma turned into a
    point, so ["12,5"] is 12.5 and ["1,234,5"] is not a number.  The
    rounding, in binary64: ["12,345"] is sent as 12.35 and ["12,344"] as
    12.34, ["1,005"] as 1 since 1.005 times 100 is below 100.5, a positive
    ["0,004"] as 0 and ["-0,006"] as -0.01. *)
Theorem saveEditExpense_accepts_non_positive (env : Env) n expEdit s :
  let amt := edit_amount expEdit in
  let s1 := setExpEdit (λ e, ExpEdit.with_saving e true) s in
  let update := ExpensesUpdate (edit_patch expEdit) (ExpEdit.id expEdit) in
  let editing amount :=
    {| ExpEdit.visible := true; ExpEdit.id := Some 5%Z;
       ExpEdit.amount := Some amount; ExpEdit.dateStr := Some "2025-01-02";
       ExpEdit.description := None; ExpEdit.saving := Some false |} in
  (if Js.isFinite amt then
     (play env n (saveEditExpense expEdit) s).1.2 !! 0
     = Some (s1, exch update (env n update))
     ∧ patch_amount (edit_patch expEdit) = round2 amt
   else
     let s2 := Toast_show Toast.error "Hata" "Tutar hatalı." s1 in
     play env n (saveEditExpense expEdit) s
     = (setExpEdit (λ x, ExpEdit.with_saving x false) s2,
        [(s2, exch (HapticsNotification FeedbackError)
                (env n (HapticsNotification FeedbackError)))],
        Returned tt))
  ∧ (∀ amount, amount = "0" ∨ amount = "-5" →
       let e := editing amount in
       Js.isFinite (edit_amount e) = true
       ∧ Js.gt (edit_amount e) (Js.of_int 0) = false
       ∧ patch_amount (edit_patch e) = Js.Number amount
       ∧ ExpenseAdd.isAmountValid amount = false)
  ∧ (∀ a b : string,
       Forall (λ c, c ≠ ","%char) (list_ascii_of_string a) →
       ExpEdit.amount expEdit = Some (a +:+ "," +:+ b) →
       amt = Js.Number (a +:+ "." +:+ b))
  ∧ (Js.isFinite (edit_amount (editing "12,5")) = true
     ∧ edit_amount (editing "12,5") = Js.Number "12.5"
     ∧ Js.isFinite (edit_amount (editing "1,234,5")) = false)
  ∧ (∀ amount sent,
       In (amount, sent)
         [("12,345", "12.35"); ("12,344", "12.34"); ("1,005", "1");
          ("0,004", "0"); ("-0,006", "-0.01")] →
       Js.isFinite (edit_amount (editing amount)) = true
       ∧ (play env n (saveEditExpense (editing amount)) s).1.2 !! 0
         = Some (s1,
                 exch (ExpensesUpdate
                         {| patch_amount := Js.Number sent;
                            patch_description := None;
                            patch_spent_at := Some "2025-01-02" |}
                         (Some 5%Z))
                   (env n (ExpensesUpdate
                             {| patch_amount := Js.Number sent;
                                patch_description := None;
                                patch_spent_at := Some "2025-01-02" |}
                             (Some 5%Z))))).
Proof.
  assert (Hfirst : ∀ e,
    Js.isFinite (edit_amount e) = true →
    (play env n (saveEditExpense e) s).1.2 !! 0
    = Some (setExpEdit (λ e, ExpEdit.with_saving e true) s,
            exch (ExpensesUpdate (edit_patch e) (ExpEdit.id e))
              (env n (ExpensesUpdate (edit_patch e) (ExpEdit.id e))))).
  { intros e He. unfold saveEditExpense. rewrite play_finally, play_try_catch.
    simpl. rewrite He. simpl.
    by destruct (env n (ExpensesUpdate (edit_patch e) (ExpEdit.id e))). }
  intros amt s1 update editing. split; [|split; [|split; [|split]]].
  - unfold saveEditExpense. rewrite play_finally, play_try_catch. simpl.
    fold amt. destruct (Js.isFinite amt); simpl; [|by rewrite Nat.add_0_r].
    fold update. destruct (env n update) as [err|data]; simpl;
      split; reflexivity.
  - intros amount [-> | ->]; by vm_compute.
  - intros a b Ha E. subst amt. unfold edit_amount. rewrite E.
    cbn [Js.nullish]. by rewrite replace_first_comma.
  - by vm_compute.
  - intros amount sent Hin.
    assert (Js.isFinite (edit_amount (editing amount)) = true
            ∧ edit_patch (editing amount)
              = {| patch_amount := Js.Number sent; patch_description := None;
                   patch_spent_at := Some "2025-01-02" |}) as [Hf Hp].
    { repeat (destruct Hin as [[= <- <-]|Hin]; [by vm_compute|]).
      destruct Hin. }
    split; [exact Hf|]. rewrite (Hfirst _ Hf), Hp. reflexivity.
Qed.

Lemma saveEditExpense_accepts_non_positive_witness :
  let e := {| ExpEdit.visible := true; ExpEdit.id := Some 5%Z;
              ExpEdit.amount := Some "-5";
              ExpEdit.dateStr := Some "2025-01-02";
              ExpEdit.description := None; ExpEdit.saving := Some false |} in
  Js.isFinite (edit_amount e) = true
  ∧ Js.gt (edit_amount e) (Js.of_int 0) = false
  ∧ patch_amount (edit_patch e) = Js.Number "-5"
  ∧ ExpenseAdd.isAmountValid "-5" = false.
Proof.
  apply (proj1 (proj2 (saveEditExpense_accepts_non_positive
                         (λ _, Sample.accept Sample.task7 [] None) 0
                         ExpEdit.closed (Sample.screen []))) "-5").
  by right.
Defined.
End Amounts.

(** * Further properties *)

(** ** How the handlers of the two screens settle *)
Section Settling.
Import TaskDetail Expected.

Lemma signed_fields env rows : ∀ n,
  (λ r, MediaRow.with_signedUrl r None) <$> signed env n rows
  = (λ r, MediaRow.with_signedUrl r None) <$> rows.
Proof.
  induction rows as [|row rows IH]; intros n; simpl; [done|]. by rewrite IH.
Qed.

Lemma signed_urls env rows : ∀ n,
  MediaRow.signedUrl <$> signed env n rows
  = imap (λ i r, env (n + i)
                   (StorageSign "task-media" (MediaRow.storage_path r) 3600))
      rows.
Proof.
  induction rows as [|row rows IH]; intros n; simpl; [done|].
  rewrite Nat.add_0_r. f_equal. rewrite IH. apply imap_ext. intros i r _.
  simpl. by rewrite Nat.add_succ_r.
Qed.

(** X1: [makeSigned] returns the rows it was given, in the same order and
    with every field but [signedUrl] as it was; the [signedUrl] of the
    [i]-th row is the reply to the [i]-th sign call of the run; the state
    of the screen is not touched. *)
Theorem makeSigned_keeps_rows (env : Env) n rows s :
  let '(s', _, o) := play env n (makeSigned rows) s in
  ∃ out, o = Returned out
    ∧ s' = s
    ∧ (λ r, MediaRow.with_signedUrl r None) <$> out
      = (λ r, MediaRow.with_signedUrl r None) <$> rows
    ∧ MediaRow.signedUrl <$> out
      = imap (λ i r, env (n + i)
                       (StorageSign "task-media" (MediaRow.storage_path r)
                          3600)) rows.
Proof.
  unfold makeSigned. rewrite makeSigned_from_play. eexists. split; [done|].
  split; [done|]. split; [apply signed_fields|apply signed_urls].
Qed.

(** X2: [loadMedia] always returns and leaves [mediaLoading] false; the
    task, [uploading] and the expenses are as before.  When the select
    fails the list is kept and one error toast with the message is shown;
    otherwise the list has the ids and the storage paths of the rows
    returned, in their order, and no toast is shown. *)
Theorem loadMedia_settles (env : Env) n taskId s :
  let '(s', tr, o) := play env n (loadMedia taskId) s in
  o = Returned tt
  ∧ mediaLoading s' = false
  ∧ task s' = task s ∧ uploading s' = uploading s ∧ expenses s' = expenses s
  ∧ match env n (TaskMediaSelect taskId) with
    | Failed error =>
        media s' = media s
        ∧ toasts s' = toasts s ++
            [ {| Toast.type := Toast.error; Toast.text1 := "Hata";
                 Toast.text2 := message error |} ]
    | Data data =>
        MediaRow.storage_path <$> media s'
        = MediaRow.storage_path <$> Js.nullish data []
        ∧ MediaRow.id <$> media s' = MediaRow.id <$> Js.nullish data []
        ∧ toasts s' = toasts s
    end.
Proof.
  rewrite loadMedia_play. cbv zeta.
  destruct (env n (TaskMediaSelect taskId)) as [err|data]; simpl; [done|].
  repeat split.
  - pose proof (signed_fields env (Js.nullish data []) (S n)) as H.
    apply (f_equal (fmap MediaRow.storage_path)) in H.
    rewrite <- !list_fmap_compose in H. exact H.
  - pose proof (signed_fields env (Js.nullish data []) (S n)) as H.
    apply (f_equal (fmap MediaRow.id)) in H.
    rewrite <- !list_fmap_compose in H. exact H.
Qed.

Lemma loadMedia_keeps (env : Env) n taskId s :
  (play env n (loadMedia taskId) s).2 = Returned tt
  ∧ uploading (play env n (loadMedia taskId) s).1.1 = uploading s
  ∧ ∃ ts, toasts (play env n (loadMedia taskId) s).1.1 = toasts s ++ ts.
Proof.
  rewrite loadMedia_play. cbv zeta.
  destruct (env n (TaskMediaSelect taskId)) as [err|data]; simpl.
  - repeat split. by eexists.
  - repeat split. exists []. by rewrite app_nil_r.
Qed.

(** X3: without a [uri], [processAndUpload] returns at once: no call is
    made and the screen is as it was.  With one, whatever the manipulator,
    the session, the upload and the insert answer, [uploading] is false
    when the run is over and a toast has been shown. *)
Theorem processAndUpload_settles (env : Env) n url task taskId uri w h s :
  let '(s', tr, o) := play env n (processAndUpload url task taskId uri w h) s in
  match truthy uri with
  | None => s' = s ∧ tr = [] ∧ o = Returned tt
  | Some _ =>
      uploading s' = false
      ∧ ∃ t ts, toasts s' = toasts s ++ t :: ts
  end.
Proof.
  unfold processAndUpload. destruct (truthy uri) as [u|]; [|done].
  rewrite play_finally, play_try_catch.
  pose proof (loadMedia_keeps env (6 + n) taskId) as Hq.
  generalize dependent (loadMedia taskId). intros reload Hq. simpl.
  destruct (env n (Manipulate u (resize_width w) compress)) as [e|file]; simpl;
    [by eauto|].
  destruct (env (Datatypes.S n) AuthSessionUser) as [e|[accessToken uid]];
    simpl; [by eauto|].
  destruct (truthy accessToken) as [tok|]; simpl; [|by eauto].
  destruct (truthy uid) as [uid'|]; simpl; [|by eauto].
  destruct task as [task|]; simpl; [|by eauto].
  match goal with
  | |- context [env ?k (UploadAsync ?a ?b ?c)] =>
      destruct (env k (UploadAsync a b c)) as [e|status]
  end; simpl; [by eauto|].
  destruct (negb (status =? 200)%Z && negb (status =? 201)%Z); simpl;
    [by eauto|].
  match goal with
  | |- context [env ?k (TaskMediaInsert ?a ?b ?c)] =>
      destruct (env k (TaskMediaInsert a b c)) as [err|]
  end; simpl; [by eauto|].
  specialize (Hq (Toast_show Toast.success "Yüklendi" "Fotoğraf eklendi."
                    (setUploading true s))).
  simpl in Hq. destruct Hq as (Ho & Hu & ts & Ht).
  destruct (play env _ reload _) as [[s3 tr] o]; simpl in *. subst o.
  repeat split. simpl. rewrite Ht, <- app_assoc. by eauto.
Qed.

Lemma upload_photos_state url tok uid expenseId photos :
  ∀ (env : Env) n (s : ExpenseAdd.State),
    (play env n (ExpenseAdd.upload_photos url tok uid expenseId photos) s).1.1
    = s.
Proof.
  induction photos as [|ph photos IH]; intros env n s; simpl; [done|].
  destruct (env n (Manipulate _ _ _)) as [e|file]; simpl; [done|].
  match goal with
  | |- context [env ?k (UploadAsync ?a ?b ?c)] =>
      destruct (env k (UploadAsync a b c)) as [e|status]
  end; simpl; [done|].
  destruct (negb (status =? 200)%Z && negb (status =? 201)%Z); simpl; [done|].
  match goal with
  | |- context [env ?k (ExpenseMediaInsert ?a ?b ?c ?d)] =>
      pose proof (IH env (5 + n) s) as IH';
      destruct (env k (ExpenseMediaInsert a b c d)) as [err|]
  end; simpl; [done|].
  by destruct (play env _
                 (ExpenseAdd.upload_photos url tok uid expenseId photos) s)
    as [[s3 tr] o].
Qed.

(** X4: every run of [onSave] shows a toast.  With a valid amount
    [saving] and [uploading] are both false when the run is over,
    whichever step failed; with an invalid one they are left as they
    were. *)
Theorem onSave_settles (env : Env) n url projectId taskId amountText
    description dateText photos s :
  let '(s', _, _) :=
    play env n (ExpenseAdd.onSave url projectId taskId amountText description
                  dateText photos) s in
  (∃ t ts, ExpenseAdd.toasts s' = ExpenseAdd.toasts s ++ t :: ts)
  ∧ if ExpenseAdd.isAmountValid amountText
    then ExpenseAdd.saving s' = false ∧ ExpenseAdd.uploading s' = false
    else ExpenseAdd.saving s' = ExpenseAdd.saving s
         ∧ ExpenseAdd.uploading s' = ExpenseAdd.uploading s.
Proof.
  unfold ExpenseAdd.onSave.
  destruct (ExpenseAdd.isAmountValid amountText); simpl; [|by eauto].
  rewrite play_finally, play_try_catch. simpl.
  destruct (env n AuthSessionUser) as [e|[accessToken uid]]; simpl;
    [by eauto|].
  destruct (truthy accessToken) as [tok|]; simpl; [|by eauto].
  destruct (truthy uid) as [uid'|]; simpl; [|by eauto].
  destruct (ExpenseAdd.company_of _) as [company|]; simpl; [|by eauto].
  destruct (env _ (ExpensesInsert _)) as [err|expenseId]; simpl; [by eauto|].
  rewrite play_bind.
  match goal with
  | |- context [play env ?k (match photos with [] => ?a | _ :: _ => ?b end) ?z] =>
      assert (Hl : ExpenseAdd.toasts
                     (play env k (match photos with [] => a | _ :: _ => b end)
                        z).1.1
                   = ExpenseAdd.toasts s)
        by (destruct photos as [|ph ps]; [done|]; generalize (ph :: ps);
            intros l; simpl; by rewrite upload_photos_state);
      destruct (play env k (match photos with [] => a | _ :: _ => b end) z)
        as [[s3 tr] [[]|e]]
  end; simpl in *; rewrite Hl; by eauto.
Qed.

Lemma onSave_back_counts (env : Env) n url projectId taskId
    amountText description dateText photos s :
  let '(s', tr, _) :=
    play env n (ExpenseAdd.onSave url projectId taskId amountText description
                  dateText photos) s in
  In NavGoBack (calls tr) →
  length (recorded (exchanges tr)) = length photos
  ∧ ExpenseAdd.toasts s'
    = ExpenseAdd.toasts s ++
        [ {| Toast.type := Toast.success; Toast.text1 := "Eklendi";
             Toast.text2 := "Harcama kaydedildi." |} ].
Proof.
  unfold ExpenseAdd.onSave.
  destruct (negb (ExpenseAdd.isAmountValid amountText)); simpl.
  { intros [|[]]; done. }
  rewrite play_finally, play_try_catch. simpl.
  destruct (env n AuthSessionUser) as [e|[accessToken uid]]; simpl.
  { intros [|[|[]]]; done. }
  destruct (truthy accessToken) as [tok|]; simpl; [|intros [|[|[]]]; done].
  destruct (truthy uid) as [uid'|]; simpl; [|intros [|[|[]]]; done].
  destruct (ExpenseAdd.company_of _) as [company|]; simpl;
    [|intros [|[|[|[]]]]; done].
  destruct (env _ (ExpensesInsert _)) as [err|expenseId]; simpl;
    [intros [|[|[|[|[]]]]]; done|].
  rewrite play_bind.
  match goal with
  | |- context [play env ?k (match photos with [] => ?a | _ :: _ => ?b end) ?z] =>
      assert (Hl : ExpenseAdd.toasts
                     (play env k (match photos with [] => a | _ :: _ => b end)
                        z).1.1
                   = ExpenseAdd.toasts s
                   ∧ Forall (λ x, call_of x ≠ NavGoBack)
                       (exchanges (play env k
                          (match photos with [] => a | _ :: _ => b end) z).1.2)
                   ∧ ((play env k
                         (match photos with [] => a | _ :: _ => b end) z).2
                      = Returned tt →
                      length (recorded (exchanges
                        (play env k
                           (match photos with [] => a | _ :: _ => b end)
                           z).1.2))
                      = length photos));
      [|destruct (play env k (match photos with [] => a | _ :: _ => b end) z)
          as [[s3 tr] [[]|e]]]
  end.
  { destruct photos as [|ph ps]; [done|]. generalize (ph :: ps). intros l.
    simpl. rewrite upload_photos_state.
    destruct (upload_photos_counts url tok uid' expenseId l env
                (Datatypes.S (Datatypes.S (Datatypes.S n)))
                (ExpenseAdd.setUploading true (ExpenseAdd.setSaving true s)))
      as [H1 H2].
    done. }
  - simpl in *. destruct Hl as (Ht & Hf & Hc). intros _. split.
    + unfold exchanges. rewrite map_app. unfold recorded. rewrite omap_app.
      simpl. rewrite app_nil_r. by apply Hc.
    + by rewrite Ht.
  - simpl in *. destruct Hl as (Ht & Hf & Hc). intros Hin. exfalso.
    unfold calls, exchanges in Hin. simpl in Hin.
    destruct Hin as [|[|[|Hin]]]; try done.
    rewrite !map_app in Hin. apply in_app_iff in Hin as [Hin|[|[]]]; [|done].
    apply in_map_iff in Hin as (x & Hx & Hin).
    rewrite Forall_forall in Hf. apply (Hf x); [by apply list_elem_of_In|done].
Qed.

(** X5: the expense form navigates back only after everything was saved: a
    run of [onSave] that calls [goBack] has recorded one attachment row for
    each photo of the form and has shown the success toast as its only
    toast. *)
Theorem onSave_goes_back_when_all_saved (env : Env) n url projectId taskId
    amountText description dateText photos s :
  let run :=
    play env n (ExpenseAdd.onSave url projectId taskId amountText description
                  dateText photos) s in
  In NavGoBack (calls run.1.2) →
  length (recorded (exchanges run.1.2)) = length photos
  ∧ ExpenseAdd.toasts run.1.1
    = ExpenseAdd.toasts s ++
        [ {| Toast.type := Toast.success; Toast.text1 := "Eklendi";
             Toast.text2 := "Harcama kaydedildi." |} ].
Proof.
  cbv zeta.
  pose proof (onSave_back_counts env n url projectId taskId amountText
                description dateText photos s) as H.
  by destruct (play env n _ s) as [[s' tr] o].
Qed.

Lemma onSave_goes_back_when_all_saved_witness :
  let run :=
    play (λ _, Sample.accept Sample.task7 [] None) 0
      (ExpenseAdd.onSave "https://x.supabase.co" 3 (Some 7%Z) "12,50" ""
         "2025-01-02"
         [ {| ExpenseAdd.LocalPhoto.uri := "file:///a.jpg";
              ExpenseAdd.LocalPhoto.w := Some 3000%Z;
              ExpenseAdd.LocalPhoto.h := Some 2000%Z |} ])
      Sample.form in
  In NavGoBack (calls run.1.2)
  ∧ length (recorded (exchanges run.1.2)) = 1
  ∧ ExpenseAdd.toasts run.1.1
    = [ {| Toast.type := Toast.success; Toast.text1 := "Eklendi";
           Toast.text2 := "Harcama kaydedildi." |} ].
Proof.
  assert (In NavGoBack
            (calls (play (λ _, Sample.accept Sample.task7 [] None) 0
              (ExpenseAdd.onSave "https://x.supabase.co" 3 (Some 7%Z) "12,50" ""
                 "2025-01-02"
                 [ {| ExpenseAdd.LocalPhoto.uri := "file:///a.jpg";
                      ExpenseAdd.LocalPhoto.w := Some 3000%Z;
                      ExpenseAdd.LocalPhoto.h := Some 2000%Z |} ])
              Sample.form).1.2)) as H.
  { vm_compute. tauto. }
  split; [exact H|].
  exact (onSave_goes_back_when_all_saved _ 0 _ _ _ _ _ _ _ Sample.form H).
Defined.

(** X6: when a run of [saveEditExpense] is over, [expEdit.saving] is false
    and a toast has been shown.  The expenses keep their number, their
    order, their ids and their photos, only the expense being edited can
    have changed, and the task and the media list are not touched. *)
Theorem saveEditExpense_settles (env : Env) n expEdit s :
  let '(s', _, _) := play env n (saveEditExpense expEdit) s in
  ExpEdit.saving (TaskDetail.expEdit s') = Some false
  ∧ (∃ t ts, toasts s' = toasts s ++ t :: ts)
  ∧ Forall2 (λ e e', ExpenseWithMedia.id e' = ExpenseWithMedia.id e
                     ∧ ExpenseWithMedia.media e' = ExpenseWithMedia.media e
                     ∧ (Some (ExpenseWithMedia.id e) ≠ ExpEdit.id expEdit
                        → e' = e))
      (expenses s) (expenses s')
  ∧ task s' = task s ∧ media s' = media s.
Proof.
  unfold saveEditExpense. rewrite play_finally, play_try_catch. simpl.
  destruct (Js.isFinite (edit_amount expEdit)); simpl.
  - destruct (env n (ExpensesUpdate _ _)) as [err|data]; simpl.
    + repeat split; eauto. apply Forall_Forall2_diag, Forall_forall.
      by intros.
    + repeat split; eauto.
      apply Forall2_fmap_r, Forall_Forall2_diag, Forall_forall.
      intros e _. simpl. by case_decide.
  - repeat split; eauto. apply Forall_Forall2_diag, Forall_forall. by intros.
Qed.

Lemma without_absent row l :
  MediaRow.id row ∉ MediaRow.id <$> l → without row l = l.
Proof.
  induction l as [|x l IH]; intros Hn; [done|]. simpl in *.
  apply not_elem_of_cons in Hn as [Hne Hn].
  destruct (Z.eqb_spec (MediaRow.id x) (MediaRow.id row)); simpl;
    [congruence|].
  f_equal. by apply IH.
Qed.

Lemma without_present row l :
  NoDup (MediaRow.id <$> l) → row ∈ l → row :: without row l ≡ₚ l.
Proof.
  induction l as [|x l IH]; intros Hd Hin; [by apply elem_of_nil in Hin|].
  simpl in Hd. apply NoDup_cons in Hd as [Hx Hd].
  apply elem_of_cons in Hin as [->|Hin].
  - simpl. rewrite Z.eqb_refl. simpl. by rewrite without_absent.
  - simpl. destruct (Z.eqb_spec (MediaRow.id x) (MediaRow.id row)) as [E|E];
      simpl.
    + exfalso. apply Hx. rewrite E. by apply list_elem_of_fmap_2.
    + rewrite Permutation_swap. constructor. by apply IH.
Qed.

(** X7: [deleteMedia] loses no other photo.  For a list whose rows have
    distinct ids and a row of it: when the storage refuses the removal the
    list holds the same rows as before (the row is put back, at the head);
    when the storage and the table both accept, the list holds the same
    rows as before but the deleted one. *)
Theorem deleteMedia_keeps_the_rest (env : Env) n taskId row s :
  NoDup (MediaRow.id <$> media s) → row ∈ media s →
  let '(s', _, _) := play env n (deleteMedia taskId row) s in
  match env (1 + n) (StorageRemove "task-media" [MediaRow.storage_path row]) with
  | Some _ => media s' ≡ₚ media s
  | None =>
      match env (2 + n) (TaskMediaDelete (MediaRow.id row)) with
      | None => row :: media s' ≡ₚ media s
      | Some _ => True
      end
  end.
Proof.
  intros Hd Hin. pose proof (deleteMedia_play env n taskId row s) as E.
  cbv zeta in E. rewrite E. clear E.
  destruct (env (1 + n) _) as [sErr|]; cbv zeta.
  - by apply without_present.
  - destruct (env (2 + n) _) as [dErr|]; cbv zeta.
    + match goal with
      | |- context [play env ?k (loadMedia taskId) ?z] =>
          by destruct (play env k (loadMedia taskId) z) as [[??]?]
      end.
    + by apply without_present.
Qed.

Lemma deleteMedia_keeps_the_rest_witness :
  let shown := [Sample.photo1; Demo.photo2] in
  let refused :=
    play Demo.storage_refuses 0 (deleteMedia 7 Demo.photo2)
      (Sample.screen shown) in
  let accepted :=
    play (λ _, Sample.accept Sample.task7 [] None) 0
      (deleteMedia 7 Sample.photo1) (Sample.screen shown) in
  NoDup (MediaRow.id <$> shown)
  ∧ Demo.photo2 ∈ shown ∧ Sample.photo1 ∈ shown
  ∧ media refused.1.1 = [Demo.photo2; Sample.photo1]
  ∧ media refused.1.1 ≡ₚ shown
  ∧ media accepted.1.1 = [Demo.photo2]
  ∧ Sample.photo1 :: media accepted.1.1 ≡ₚ shown.
Proof.
  cbv zeta.
  assert (NoDup (MediaRow.id <$> [Sample.photo1; Demo.photo2])) as Hd.
  { apply NoDup_cons. split; [|apply NoDup_singleton].
    intros H. apply list_elem_of_singleton in H. discriminate H. }
  assert (Demo.photo2 ∈ [Sample.photo1; Demo.photo2]) as H2
    by (apply elem_of_cons; right; apply list_elem_of_singleton; reflexivity).
  assert (Sample.photo1 ∈ [Sample.photo1; Demo.photo2]) as H1
    by (apply elem_of_cons; left; reflexivity).
  split; [exact Hd|]. split; [exact H2|]. split; [exact H1|].
  split; [reflexivity|]. split; [|split; [reflexivity|]].
  - pose proof (deleteMedia_keeps_the_rest Demo.storage_refuses 0 7
                  Demo.photo2 (Sample.screen [Sample.photo1; Demo.photo2])
                  Hd H2) as H.
    destruct (play Demo.storage_refuses 0 (deleteMedia 7 Demo.photo2)
                (Sample.screen [Sample.photo1; Demo.photo2])) as [[s' tr] o].
    exact H.
  - pose proof (deleteMedia_keeps_the_rest
                  (λ _, Sample.accept Sample.task7 [] None) 0 7
                  Sample.photo1 (Sample.screen [Sample.photo1; Demo.photo2])
                  Hd H1) as H.
    destruct (play (λ _, Sample.accept Sample.task7 [] None) 0
                (deleteMedia 7 Sample.photo1)
                (Sample.screen [Sample.photo1; Demo.photo2])) as [[s' tr] o].
    exact H.
Defined.
End Settling.

(** ** Storage paths and the upload URL *)
Section Paths.
Import TaskDetail.

Lemma unescaped_nil : unescaped "".
Proof. constructor. Qed.

Lemma unescaped_cons c s :
  unescaped (String c s) ↔ Js.uri_unescaped c = true ∧ unescaped s.
Proof. unfold unescaped. simpl. by rewrite Forall_cons. Qed.

Lemma unescaped_app a b : unescaped a → unescaped b → unescaped (a +:+ b).
Proof.
  induction a as [|c a IH]; intros Ha Hb; [done|].
  apply unescaped_cons in Ha as [Hc Ha]. apply unescaped_cons.
  split; [done|]. by apply IH.
Qed.

Lemma encodeURI_unescaped s : unescaped s → Js.encodeURI s = s.
Proof.
  induction s as [|c s IH]; intros H; [done|].
  apply unescaped_cons in H as [Hc H]. simpl. rewrite Hc. f_equal.
  by apply IH.
Qed.

Lemma pretty_N_go_unescaped x : ∀ s, unescaped s → unescaped (pretty_N_go x s).
Proof.
  induction (N.lt_wf_0 x) as [x _ IH]; intros s Hs.
  assert (x = 0 ∨ 0 < x)%N as [->|?] by lia.
  - by rewrite pretty_N_go_0.
  - rewrite pretty_N_go_step by done. apply IH; [by apply N.div_lt|].
    apply unescaped_cons. split; [|done].
    unfold pretty_N_char. by repeat case_match.
Qed.

Lemma pretty_Z_unescaped (z : Z) : unescaped (pretty z).
Proof.
  destruct z as [|p|p]; unfold pretty, pretty_Z.
  - by repeat constructor.
  - unfold pretty, pretty_positive, pretty, pretty_N.
    case_decide; [by repeat constructor|].
    apply pretty_N_go_unescaped, unescaped_nil.
  - apply unescaped_app; [by repeat constructor|].
    unfold pretty, pretty_positive, pretty, pretty_N.
    case_decide; [by repeat constructor|].
    apply pretty_N_go_unescaped, unescaped_nil.
Qed.

(** X8: the object stored is the object recorded.  When the user id has
    only characters that [encodeURI] leaves alone, the upload URL of the
    task screen ends with the storage path itself, the very string that is
    inserted as [storage_path]; the same holds on the expense form when the
    random token has only such characters. *)
Theorem storage_path_not_escaped supabaseUrl uid id now rnd :
  unescaped uid →
  uploadUrl supabaseUrl "task-media" (storagePath uid id now)
  = supabaseUrl +:+ "/storage/v1/object/task-media/" +:+ storagePath uid id now
  ∧ (unescaped (Js.slice 2 8 rnd) →
     uploadUrl supabaseUrl "expense-media"
       (ExpenseAdd.storagePath uid id now rnd)
     = supabaseUrl +:+ "/storage/v1/object/expense-media/"
         +:+ ExpenseAdd.storagePath uid id now rnd).
Proof.
  intros Hu. unfold uploadUrl. split.
  - rewrite encodeURI_unescaped; [done|].
    unfold storagePath. repeat (apply unescaped_app; [|]);
      try apply pretty_Z_unescaped; try done; by repeat constructor.
  - intros Hr. rewrite encodeURI_unescaped; [done|].
    unfold ExpenseAdd.storagePath. repeat (apply unescaped_app; [|]);
      try apply pretty_Z_unescaped; try done; by repeat constructor.
Qed.

Lemma storage_path_not_escaped_witness :
  unescaped "u1"
  ∧ uploadUrl "https://x.supabase.co" "task-media"
      (storagePath "u1" 7 1700000000000)
    = "https://x.supabase.co" +:+ "/storage/v1/object/task-media/"
        +:+ storagePath "u1" 7 1700000000000.
Proof.
  assert (unescaped "u1") as Hu by (repeat constructor).
  split; [exact Hu|].
  exact (proj1 (storage_path_not_escaped "https://x.supabase.co" "u1" 7
                  1700000000000 "0.4fzyo82mvyr" Hu)).
Defined.

(** X9: on the task screen two storage paths of the same user and task are
    equal exactly when the clock read the same millisecond: the path
    depends on nothing else. *)
Theorem task_path_follows_the_clock uid id now1 now2 :
  storagePath uid id now1 = storagePath uid id now2 ↔ now1 = now2.
Proof.
  split; [|by intros ->]. unfold storagePath. intros E.
  repeat (apply (inj (String.app _)) in E).
  apply app_inj_r in E. by apply (inj pretty) in E.
Qed.
End Paths.

(** ** A confirmed update *)
Section Confirming.
Import TaskDetail Overlap.

Lemma step_confirm w pid t patch (reply : ∀ c : Call, Resp c) data :
  pool w !! pid = Some (in_flight t patch) →
  reply (TasksUpdate patch (Task.id t)) = Data data →
  ui (step w (Deliver pid reply))
  = Toast_show Toast.success "Güncellendi" (success_text patch)
      (setTask (Some data) (ui w)).
Proof.
  intros Hp Hr. unfold step. rewrite Hp.
  destruct patch; simpl; rewrite Hr; by simpl.
Qed.

(** X10: when the update of a status or priority change succeeds, the task
    shown becomes the row the table returned, replacing the optimistic one
    and whatever other handlers did to the task meanwhile; the success
    toast is shown and the media list and the expenses are not touched. *)
Theorem confirm_replaces_task w t patch acts0 (reply0 : ∀ c : Call, Resp c)
    acts (reply : ∀ c : Call, Resp c) data :
  task (ui w) = Some t →
  undelivered (next_pid w) acts0 →
  undelivered (next_pid w) acts →
  reply (TasksUpdate patch (Task.id t)) = Data data →
  let pid := next_pid w in
  let w1 := run (step w (Press patch)) acts0 in
  let w2 := step w1 (Deliver pid reply0) in
  let w3 := run w2 acts in
  let w4 := step w3 (Deliver pid reply) in
  task (ui w4) = Some data
  ∧ toasts (ui w4)
    = toasts (ui w3) ++
        [ {| Toast.type := Toast.success; Toast.text1 := "Güncellendi";
             Toast.text2 := success_text patch |} ]
  ∧ media (ui w4) = media (ui w3) ∧ expenses (ui w4) = expenses (ui w3).
Proof.
  intros Ht Hu0 Hu Hr pid w1 w2 w3 w4.
  assert (E0 := step_press w t patch Ht).
  assert (Hp1 : pool w1 !! pid = Some (pressed t patch) ∧ pid < next_pid w1).
  { apply run_other; [|rewrite E0; unfold pid; simpl; lia|done].
    rewrite E0. simpl. apply lookup_insert_eq. }
  destruct Hp1 as [Hp1 Hlt1].
  assert (E2 : w2 = _) by apply (step_apply w1 pid t patch reply0 Hp1).
  assert (Hp3 : pool w3 !! pid = Some (in_flight t patch)).
  { apply run_other; [|by rewrite E2|done].
    rewrite E2. simpl. apply lookup_insert_eq. }
  assert (E4 := step_confirm w3 pid t patch reply data Hp3 Hr).
  fold w4 in E4. by rewrite E4.
Qed.

Lemma confirm_replaces_task_witness :
  let w := init (Sample.screen []) in
  let w1 := run (step w (Press (PatchStatus yapılıyor))) [] in
  let w2 := step w1 (Deliver 0 (Sample.accept Sample.task7 [] None)) in
  let w3 := run w2 [Press (PatchPriority high);
                    Deliver 1 (Sample.accept Sample.task7 [] None)] in
  let w4 := step w3 (Deliver 0 (Sample.accept Sample.task7 [] None)) in
  task (ui w4) = Some (patched Sample.task7 (PatchStatus yapılıyor))
  ∧ toasts (ui w4)
    = toasts (ui w3) ++
        [ {| Toast.type := Toast.success; Toast.text1 := "Güncellendi";
             Toast.text2 := "Durum güncellendi." |} ]
  ∧ media (ui w4) = media (ui w3) ∧ expenses (ui w4) = expenses (ui w3).
Proof.
  apply (confirm_replaces_task (init (Sample.screen [])) Sample.task7
           (PatchStatus yapılıyor) [] _ _ _
           (patched Sample.task7 (PatchStatus yapılıyor))).
  - reflexivity.
  - constructor.
  - repeat constructor; simpl; lia.
  - reflexivity.
Defined.
End Confirming.

(** ** Running a flow *)
Section Flows.
Context {S : Type}.

Lemma exec_bind {A B} (env : Replies) (m : Flow.t S A) (f : A → Flow.t S B) n
    (s : S) :
  Flow.exec env n (Flow.bind m f) s =
  match Flow.exec env n m s with
  | (s', tr, Returned a) =>
      let '(s'', tr', o) := Flow.exec env (n + length tr) (f a) s' in
      (s'', tr ++ tr', o)
  | (s', tr, Thrown e) => (s', tr, Thrown e)
  end.
Proof.
  revert n s. induction m as [a|e|g k IH|c k IH]; intros n s; simpl.
  - rewrite Nat.add_0_r. by destruct (Flow.exec env n (f a) s) as [[??]?].
  - done.
  - apply IH.
  - rewrite IH.
    destruct (Flow.exec env (Datatypes.S n) (k (env n c)) s) as [[s1 tr1] [a|e]];
      simpl; [|done].
    rewrite Nat.add_succ_r.
    by destruct (Flow.exec env (Datatypes.S (n + length tr1)) (f a) s1) as [[??]?].
Qed.

Lemma exec_lift {S0 A} (view : S → S0) (put : S0 → S → S)
    (view_put : ∀ c s, view (put c s) = c)
    (put_put : ∀ c c' s, put c (put c' s) = put c s)
    (put_view : ∀ s, put (view s) s = s)
    (env : Replies) (m : Async S0 A) n (s : S) :
  Flow.exec env n (lift view put m) s =
  let '(c', tr, o) := play (known env) n m (view s) in
  (put c' s, map (λ x, (put x.1 s, as_reply x.2)) tr, o).
Proof.
  revert n s. induction m as [a|e|g k IH|c k IH]; intros n s; simpl.
  - by rewrite put_view.
  - by rewrite put_view.
  - rewrite IH, view_put.
    destruct (play (known env) n k (g (view s))) as [[c' tr] o].
    rewrite put_put. f_equal. f_equal. apply map_ext. intros x.
    by rewrite put_put.
  - rewrite IH. change (known env n c) with (env n (Known c)).
    destruct (play (known env) (Datatypes.S n) (k (env n (Known c))) (view s))
      as [[c' tr] o].
    simpl. by rewrite put_view.
Qed.
End Flows.

(** ** The task list *)
Section TaskList.
Import TasksScreen.

(** X11: [createTask] with a title that is empty once trimmed only shows
    the warning toast: no query is made, the list and the form are left as
    they are. *)
Theorem createTask_requires_title projectId title desc priority due
    (env : Replies) n (s : State) :
  Js.trim title = "" →
  Flow.exec env n (createTask projectId title desc priority due) s
  = (Toast_show Toast.error "Uyarı" "Başlık gerekli." s, [], Returned tt).
Proof. intros E. unfold createTask. by rewrite E. Qed.

Lemma createTask_requires_title_witness :
  Js.trim "  " = ""
  ∧ Flow.exec Demo.replies 0 (createTask 3 "  " "" high "") Demo.board
    = (Toast_show Toast.error "Uyarı" "Başlık gerekli." Demo.board, [],
       Returned tt).
Proof.
  assert (Js.trim "  " = "") as H by reflexivity.
  split; [exact H|].
  exact (createTask_requires_title 3 "  " "" high "" Demo.replies 0 Demo.board
           H).
Defined.

Lemma without_fresh tempId (prev : list Task.t) :
  Forall (λ t, Task.id t ≠ tempId) prev → without tempId prev = prev.
Proof.
  induction 1 as [|t l Ht _ IH]; [done|]. unfold without in *. simpl.
  rewrite IH. destruct (Z.eqb_spec (Task.id t) tempId); [done|done].
Qed.

(** X12: [createTask] with a title, on a list that has no row whose id is
    the temporary one (minus the clock's reading).  Its queries are the
    clock, the two timestamps and one insert of the trimmed draft; while
    the insert is in flight the list shows the optimistic row at its head
    and the form is closed.  When the insert fails the list is exactly the
    list before, the error toast has the message and the form keeps what
    was typed; when it succeeds the row of the table is at the head of the
    list before, the success toast is shown and the form is reset. *)
Theorem createTask_reconciles projectId title desc priority due
    (env : Replies) n (s : State) :
  let now : Z := env n (Known DateNow) in
  let draft :=
    {| new_project_id := projectId; new_title := Js.trim title;
       new_description := truthy (Some (Js.trim desc));
       new_status := yapılacak; new_priority := priority;
       new_due_date := truthy (Some (Js.trim due)) |} in
  Js.trim title ≠ "" →
  Forall (λ t, Task.id t ≠ (- now)%Z) (data s) →
  let '(s', tr, o) :=
    Flow.exec env n (createTask projectId title desc priority due) s in
  o = Returned tt ∧
  queries tr = [Known DateNow; NowISO; NowISO; TasksInsert draft] ∧
  (∃ shown, tr !! 3 = Some (shown, reply (TasksInsert draft)
                                     (env (3 + n) (TasksInsert draft))) ∧
     showNew shown = false ∧
     ∃ optimistic, data shown = optimistic :: data s ∧
       Task.id optimistic = (- now)%Z ∧ Task.title optimistic = Js.trim title ∧
       Task.status optimistic = yapılacak ∧ Task.created_by optimistic = "me") ∧
  showNew s' = false ∧ loading s' = loading s ∧ error s' = error s ∧
  match env (3 + n) (TasksInsert draft) with
  | Failed error =>
      data s' = data s ∧
      toasts s' = toasts s ++ [ {| Toast.type := Toast.error;
                                   Toast.text1 := "Hata";
                                   Toast.text2 := message error |} ] ∧
      TasksScreen.title s' = TasksScreen.title s ∧
      TasksScreen.desc s' = TasksScreen.desc s ∧
      TasksScreen.priority s' = TasksScreen.priority s ∧
      TasksScreen.due s' = TasksScreen.due s
  | Data inserted =>
      data s' = inserted :: data s ∧
      toasts s' = toasts s ++ [ {| Toast.type := Toast.success;
                                   Toast.text1 := "Başarılı";
                                   Toast.text2 := "Görev eklendi." |} ] ∧
      TasksScreen.title s' = "" ∧ TasksScreen.desc s' = "" ∧
      TasksScreen.priority s' = medium ∧ TasksScreen.due s' = ""
  end.
Proof.
  intros now draft Ht Hfresh. subst draft. unfold createTask.
  destruct (Js.trim title) as [|c t] eqn:Et; [done|].
  generalize (truthy (Some (Js.trim desc))), (truthy (Some (Js.trim due))).
  intros d1 d2. cbn zeta. change (env n (Known DateNow)) with now. simpl.
  match goal with |- context [env ?k (TasksInsert ?d)] =>
    destruct (env k (TasksInsert d)) as [err|inserted] end; simpl.
  - rewrite Z.eqb_refl. simpl.
    change (List.filter _ (data s)) with (without (- now) (data s)).
    rewrite without_fresh by done.
    repeat split; try done. eexists. split; [done|]. split; [done|].
    eexists. repeat split; done.
  - rewrite Z.eqb_refl. simpl.
    change (List.filter _ (data s)) with (without (- now) (data s)).
    rewrite without_fresh by done.
    repeat split; try done. eexists. split; [done|]. split; [done|].
    eexists. repeat split; done.
Qed.
Lemma createTask_reconciles_witness :
  Js.trim "Boya" ≠ ""
  ∧ Forall (λ t, Task.id t ≠ (- 1700000000000)%Z) (data Demo.board)
  ∧ let '(s', tr, o) :=
      Flow.exec Demo.replies 0 (createTask 3 "Boya" "" high "") Demo.board in
    data s'
    = Demo.created {| new_project_id := 3; new_title := "Boya";
                      new_description := None; new_status := yapılacak;
                      new_priority := high; new_due_date := None |}
      :: data Demo.board
    ∧ TasksScreen.title s' = "".
Proof.
  assert (Js.trim "Boya" ≠ "") as Ht by (vm_compute; discriminate).
  assert (Forall (λ t, Task.id t ≠ (- 1700000000000)%Z) (data Demo.board))
    as Hf by (repeat constructor; vm_compute; discriminate).
  split; [exact Ht|]. split; [exact Hf|].
  pose proof (createTask_reconciles 3 "Boya" "" high "" Demo.replies 0
                Demo.board Ht Hf) as H.
  destruct (Flow.exec Demo.replies 0 (createTask 3 "Boya" "" high "")
              Demo.board) as [[s' tr] o].
  destruct H as (_ & _ & _ & _ & _ & _ & H). simpl in H.
  destruct H as (Hd & _ & Hti & _). split; [exact Hd|exact Hti].
Defined.
End TaskList.

Section TaskListReload.
Import TasksScreen.

(** X13: a refresh of the task list makes one select, for the project and
    the tab, issued with [loading] and [refreshing] set and the previous
    error cleared.  Afterwards the list is the rows returned, or empty when
    none came (so a failed reload empties the list), [error] is the message
    of the failure if there was one, and [loading] and [refreshing] are
    false; the form and the toasts are not touched. *)
Theorem refresh_replaces_list projectId tab (env : Replies) n (s : State) :
  let '(s', tr, o) := Flow.exec env n (refresh projectId tab) s in
  let r : option (list Task.t) * option PgError :=
    env n (TasksSelect projectId tab) in
  o = Returned tt ∧
  tr = [(setLoading true (setError None (setRefreshing true s)),
         reply (TasksSelect projectId tab) r)] ∧
  data s' = Js.nullish r.1 [] ∧ error s' = message <$> r.2 ∧
  loading s' = false ∧ refreshing s' = false ∧
  toasts s' = toasts s ∧ showNew s' = showNew s ∧
  TasksScreen.title s' = TasksScreen.title s ∧
  TasksScreen.desc s' = TasksScreen.desc s ∧
  TasksScreen.priority s' = TasksScreen.priority s ∧
  TasksScreen.due s' = TasksScreen.due s.
Proof.
  unfold refresh, load. simpl.
  destruct (env n (TasksSelect projectId tab)) as [rows [err|]]; simpl; done.
Qed.
End TaskListReload.

(** ** The task detail screen, the remaining handlers *)
Section DetailScreen.
Import TaskDetail Detail.

Lemma on_cells_laws :
  (∀ c s, cells (on_cells (λ _, c) s) = c) ∧
  (∀ c c' s, on_cells (λ _, c) (on_cells (λ _, c') s) = on_cells (λ _, c) s) ∧
  (∀ s, on_cells (λ _, cells s) s = s).
Proof. repeat split; intros; try done. by destruct s. Qed.

Lemma exec_of_cells {A} (env : Replies) (m : Async TaskDetail.State A) n
    (s : State) :
  Flow.exec env n (of_cells m) s =
  let '(c', tr, o) := play (known env) n m (cells s) in
  (on_cells (λ _, c') s,
   map (λ x, (on_cells (λ _, x.1) s, as_reply x.2)) tr, o).
Proof.
  destruct on_cells_laws as (L1 & L2 & L3).
  apply (exec_lift cells (λ c, on_cells (λ _, c)) L1 L2 L3).
Qed.

(** X14: [load] of the task screen sets the task to whatever the select
    returned, a failure included: a failed load with no row clears the task
    shown and empties the description field.  [loading] is false
    afterwards, the media list and the expenses are not touched, and only a
    failure shows a toast and plays the error haptic. *)
Theorem load_replaces_task taskId (env : Replies) n (s : State) :
  let '(s', tr, o) := Flow.exec env n (load taskId) s in
  let r : option Task.t * option PgError := env n (TasksSelectSingle taskId) in
  o = Returned tt ∧
  task (cells s') = r.1 ∧
  desc s' = Js.nullish (r.1 ≫= Task.description) "" ∧
  loading s' = false ∧
  media (cells s') = media (cells s) ∧
  expenses (cells s') = expenses (cells s) ∧
  match r.2 with
  | None =>
      queries tr = [TasksSelectSingle taskId] ∧
      toasts (cells s') = toasts (cells s)
  | Some error =>
      queries tr = [TasksSelectSingle taskId;
                    Known (HapticsNotification FeedbackError)] ∧
      toasts (cells s') = toasts (cells s) ++
        [ {| Toast.type := Toast.error; Toast.text1 := "Hata";
             Toast.text2 := message error |} ]
  end.
Proof.
  unfold load. simpl.
  destruct (env n (TasksSelectSingle taskId)) as [row [err|]]; simpl; done.
Qed.

Lemma sign_expenses_exec (env : Replies) (data : list ExpenseJoined.t) :
  ∀ rows n (s : State),
  let '(s', tr, o) := Flow.exec env n (sign_expenses rows data) s in
  s' = s ∧
  ∃ out, o = Returned (rows ++ out) ∧
    Forall2 (λ row e, ∃ u,
               e = ExpenseJoined.with_media row
                     (Js.nullish (ExpenseJoined.expense_media row) []) u ∧
               (Js.nullish (ExpenseJoined.expense_media row) [] = [] →
                u = None))
      data out ∧
    tr = omap (λ e, match ExpenseWithMedia.media e with
                    | [] => None
                    | first :: _ =>
                        Some (s, reply (Known (StorageSign "expense-media"
                                                 first 3600))
                                   (ExpenseWithMedia.signedUrl e))
                    end) out.
Proof.
  induction data as [|row data IH]; intros rows n s.
  - simpl. split; [done|]. exists []. by rewrite app_nil_r.
  - cbn [sign_expenses]. cbv zeta.
    destruct (Js.nullish (ExpenseJoined.expense_media row) []) as [|first ms]
      eqn:Em.
    + simpl.
      specialize (IH (rows ++ [ExpenseJoined.with_media row [] None]) n s).
      destruct (Flow.exec env n _ s) as [[s' tr] o].
      destruct IH as (-> & out & -> & HF & ->). split; [done|].
      exists (ExpenseJoined.with_media row [] None :: out).
      split; [by rewrite <- app_assoc|]. split; [|done].
      constructor; [|done]. exists None. by rewrite Em.
    + simpl.
      set (u := env n (Known (StorageSign "expense-media" first 3600))).
      specialize (IH (rows ++ [ExpenseJoined.with_media row (first :: ms) u])
                    (Datatypes.S n) s).
      destruct (Flow.exec env (Datatypes.S n) _ s) as [[s' tr] o].
      destruct IH as (-> & out & -> & HF & ->). split; [done|].
      exists (ExpenseJoined.with_media row (first :: ms) u :: out).
      split; [by rewrite <- app_assoc|]. split; [|done].
      constructor; [|done]. exists u. by rewrite Em.
Qed.

(** X15: [loadExpenses] always returns and leaves [expensesLoading] false.
    When the select fails the expenses are kept and the error is shown.
    Otherwise there is one expense for each row returned, in order, with
    the row's fields and its photos; exactly the expenses that have a photo
    got a sign call, for their first photo only, in the bucket
    [expense-media] and valid 3600 seconds, and their [signedUrl] is the
    reply to that call; an expense without photos has no [signedUrl]. *)
Theorem loadExpenses_signs_first_photo taskId (env : Replies) n (s : State) :
  let '(s', tr, o) := Flow.exec env n (loadExpenses taskId) s in
  o = Returned tt ∧ expensesLoading s' = false ∧
  task (cells s') = task (cells s) ∧ media (cells s') = media (cells s) ∧
  match env n (ExpensesSelect taskId) with
  | Failed error =>
      expenses (cells s') = expenses (cells s) ∧
      toasts (cells s') = toasts (cells s) ++
        [ {| Toast.type := Toast.error; Toast.text1 := "Hata";
             Toast.text2 := message error |} ] ∧
      queries tr = [ExpensesSelect taskId;
                    Known (HapticsNotification FeedbackError)]
  | Data data =>
      toasts (cells s') = toasts (cells s) ∧
      Forall2 (λ row e, ∃ u,
                 e = ExpenseJoined.with_media row
                       (Js.nullish (ExpenseJoined.expense_media row) []) u ∧
                 (Js.nullish (ExpenseJoined.expense_media row) [] = [] →
                  u = None))
        (Js.nullish data []) (expenses (cells s')) ∧
      map snd (tail tr)
      = omap (λ e, match ExpenseWithMedia.media e with
                   | [] => None
                   | first :: _ =>
                       Some (reply (Known (StorageSign "expense-media"
                                             first 3600))
                               (ExpenseWithMedia.signedUrl e))
                   end) (expenses (cells s'))
  end.
Proof.
  unfold loadExpenses. simpl.
  destruct (env n (ExpensesSelect taskId)) as [err|data]; simpl; [done|].
  rewrite exec_bind.
  pose proof (sign_expenses_exec env (Js.nullish data []) [] (Datatypes.S n)
                (setExpensesLoading true s)) as H.
  destruct (Flow.exec env (Datatypes.S n) _ (setExpensesLoading true s))
    as [[s1 tr1] o1].
  destruct H as (-> & out & -> & HF & ->). simpl.
  rewrite app_nil_r. repeat split; try done.
  clear HF. induction out as [|e out IH]; [done|]. simpl.
  destruct (ExpenseWithMedia.media e); simpl; [exact IH | f_equal; exact IH].
Qed.

(** X16: [saveDesc] does nothing without a task.  With one it sends the
    trimmed description, or null when that is empty, in a single update
    issued with [saving] set, and [saving] is false when the run is over.
    The text being edited is never replaced; on a failure the task shown
    is kept and the error is shown, on success the task becomes the row
    returned. *)
Theorem saveDesc_settles (task : option Task.t) text (env : Replies) n
    (s : State) :
  let '(s', tr, o) := Flow.exec env n (saveDesc task text) s in
  match task with
  | None => s' = s ∧ tr = [] ∧ o = Returned tt
  | Some task =>
      let update :=
        TasksUpdateDescription (truthy (Some (Js.trim text))) (Task.id task) in
      saving s' = false ∧ desc s' = desc s ∧
      (∃ shown, tr !! 0 = Some (shown, reply update (env n update)) ∧
                saving shown = true ∧ cells shown = cells s) ∧
      match env n update with
      | Failed error =>
          TaskDetail.task (cells s') = TaskDetail.task (cells s) ∧
          toasts (cells s') = toasts (cells s) ++
            [ {| Toast.type := Toast.error; Toast.text1 := "Hata";
                 Toast.text2 := message error |} ] ∧
          queries tr = [update; Known (HapticsNotification FeedbackError)]
      | Data data =>
          TaskDetail.task (cells s') = Some data ∧
          toasts (cells s') = toasts (cells s) ++
            [ {| Toast.type := Toast.success; Toast.text1 := "Kaydedildi";
                 Toast.text2 := "Açıklama güncellendi." |} ] ∧
          queries tr = [update; Known (HapticsNotification FeedbackSuccess)]
      end
  end.
Proof.
  destruct task as [task|]; [|done].
  unfold saveDesc. generalize (truthy (Some (Js.trim text))). intros d. simpl.
  destruct (env n (TasksUpdateDescription d (Task.id task))) as [err|data];
    simpl; (repeat split; try done); eexists; done.
Qed.
End DetailScreen.

Section DetailActions.
Import TaskDetail Detail.

(** X17: [deleteExpense] closes the action sheet and asks for the photos
    of the expense first; the storage removal, made only when there are
    photos and for all of them at once, comes before the delete of the
    row, and the row is deleted only if nothing before it failed.  The
    expense leaves the list only when the delete succeeded, and the
    success toast and haptic follow.  After a failure the list is as
    before, the error toast has the message of the failure and no query
    but the error haptic follows. *)
Theorem deleteExpense_storage_before_row (row : ExpenseWithMedia.t)
    (env : Replies) n (s : State) :
  let id := ExpenseWithMedia.id row in
  let select := ExpenseMediaSelect id in
  let erase := ExpensesDelete id in
  let failed msg (asked : list Query) s' tr :=
    expenses (cells s') = expenses (cells s) ∧
    toasts (cells s') = toasts (cells s) ++
      [ {| Toast.type := Toast.error; Toast.text1 := "Hata";
           Toast.text2 := msg |} ] ∧
    queries tr = [Known HapticsImpact; select] ++ asked ++
                 [Known (HapticsNotification FeedbackError)] in
  let deleted (asked : list Query) s' tr :=
    expenses (cells s')
    = List.filter (λ e, negb (ExpenseWithMedia.id e =? id)%Z)
        (expenses (cells s)) ∧
    (∃ ts, toasts (cells s') = toasts (cells s) ++
       {| Toast.type := Toast.success; Toast.text1 := "Silindi";
          Toast.text2 := "Harcama kaldırıldı." |} :: ts) ∧
    ([Known HapticsImpact; select] ++ asked ++
     [erase; Known (HapticsNotification FeedbackSuccess)])
    `prefix_of` queries tr in
  let '(s', tr, _) := Flow.exec env n (deleteExpense row) s in
  expActions s' = (false, None) ∧
  task (cells s') = task (cells s) ∧ media (cells s') = media (cells s) ∧
  match env (1 + n) select with
  | Failed mErr => failed (message mErr) [] s' tr
  | Data medias =>
      match Js.nullish medias [] with
      | [] =>
          match env (2 + n) erase with
          | Some dErr => failed (message dErr) [erase] s' tr
          | None => deleted [] s' tr
          end
      | path :: paths =>
          let remove := Known (StorageRemove "expense-media" (path :: paths)) in
          match env (2 + n) remove with
          | Some sErr => failed (message sErr) [remove] s' tr
          | None =>
              match env (3 + n) erase with
              | Some dErr => failed (message dErr) [remove; erase] s' tr
              | None => deleted [remove] s' tr
              end
          end
      end
  end.
Proof.
  cbv zeta. unfold deleteExpense. simpl.
  destruct (env (Datatypes.S n) (ExpenseMediaSelect (ExpenseWithMedia.id row)))
    as [mErr|medias]; simpl; [done|].
  destruct (Js.nullish medias []) as [|path paths]; simpl.
  - destruct (env (Datatypes.S (Datatypes.S n))
                (ExpensesDelete (ExpenseWithMedia.id row))) as [dErr|];
      [done|].
    repeat split; try done; by eexists.
  - destruct (env (Datatypes.S (Datatypes.S n))
                (Known (StorageRemove "expense-media" (path :: paths))))
      as [sErr|]; simpl; [done|].
    destruct (env (Datatypes.S (Datatypes.S (Datatypes.S n)))
                (ExpensesDelete (ExpenseWithMedia.id row))) as [dErr|];
      [done|].
    repeat split; try done; by eexists.
Qed.

(** X18: both photo pickers of the task screen ask for the media library
    permission and then for the camera permission, and launch their picker
    exactly when at least one of the two is granted: the library picker is
    launched with the camera permission alone, and the camera with the
    library permission alone.  With neither, the toast and the error
    haptic are all that happens; with a cancelled or empty selection
    nothing changes and nothing is uploaded. *)
Theorem pickers_need_either_permission supabaseUrl task taskId
    (env : Replies) n (s : State) :
  let lib : string := env n RequestMediaLibraryPermissions in
  let cam : string := env (1 + n) RequestCameraPermissions in
  let asks (pick : Handler) (launch : Query) (res : Picker.t) :=
    let '(s', tr, o) := Flow.exec env n pick s in
    take 2 (queries tr)
    = [RequestMediaLibraryPermissions; RequestCameraPermissions] ∧
    (queries tr !! 2 = Some launch ↔ lib = "granted" ∨ cam = "granted") ∧
    (lib ≠ "granted" → cam ≠ "granted" →
     o = Returned tt ∧
     s' = Toast_show Toast.error "İzin gerekli"
            "Kamera veya galeri izni verilmedi." s ∧
     queries tr = [RequestMediaLibraryPermissions; RequestCameraPermissions;
                   Known (HapticsNotification FeedbackError)]) ∧
    (lib = "granted" ∨ cam = "granted" →
     Picker.canceled res = true ∨ Picker.no_assets res = true →
     o = Returned tt ∧ s' = s ∧
     queries tr = [RequestMediaLibraryPermissions; RequestCameraPermissions;
                   launch]) in
  asks (pickFromLibrary supabaseUrl task taskId) (LaunchImageLibrary None)
    (env (2 + n) (LaunchImageLibrary None)) ∧
  asks (captureWithCamera supabaseUrl task taskId) LaunchCamera
    (env (2 + n) LaunchCamera).
Proof.
  cbv zeta.
  split; unfold captureWithCamera, pickFromLibrary, ensurePermissions; simpl.
  all: destruct (String.eqb_spec (env n RequestMediaLibraryPermissions)
                   "granted") as [El|El];
    destruct (String.eqb_spec (env (Datatypes.S n) RequestCameraPermissions)
                "granted") as [Ec|Ec]; simpl.
  all: unfold upload_first.
  all: try (match goal with |- context [?e ?k LaunchCamera] =>
              destruct (e k LaunchCamera) as [canceled assets] end).
  all: try (match goal with |- context [?e ?k (LaunchImageLibrary None)] =>
              destruct (e k (LaunchImageLibrary None)) as [canceled assets]
            end).
  all: try (destruct canceled; simpl;
            [|destruct assets as [[|first rest]|]; simpl]).
  all: try rewrite exec_of_cells.
  all: try (match goal with |- context [play ?e ?k ?m ?c] =>
              destruct (play e k m c) as [[c' tr] o] end; simpl).
  all: repeat split; try done; try tauto; try (intros [?|?]; done);
    try (by left); try (by right);
    try (match goal with H : false = true ∨ _ |- _ => by destruct H end).
Qed.
End DetailActions.

Section DetailPick.
Import TaskDetail Detail.

(** X19: when a permission is granted and the picker returns assets, the
    rest of the run of either picker is the run of [processAndUpload] on
    the first asset, with its uri, width and height, on the cells of the
    screen: any further asset is ignored, and no other cell is written. *)
Theorem pickers_upload_first_asset supabaseUrl task taskId (env : Replies) n
    (s : State) (first : Picker.Asset) (rest : list Picker.Asset) :
  let lib : string := env n RequestMediaLibraryPermissions in
  let cam : string := env (1 + n) RequestCameraPermissions in
  let res := {| Picker.canceled := false;
                Picker.assets := Some (first :: rest) |} in
  let uploads (pick : Handler) (launch : Query) (r : Answer launch) :=
    Flow.exec env n pick s
    = let '(c', tr, o) :=
        play (known env) (3 + n)
          (processAndUpload supabaseUrl task taskId
             (Some (Picker.uri first)) (Some (Picker.width first))
             (Some (Picker.height first)))
          (cells s) in
      (on_cells (λ _, c') s,
       (s, reply RequestMediaLibraryPermissions lib)
       :: (s, reply RequestCameraPermissions cam)
       :: (s, reply launch r)
       :: map (λ x, (on_cells (λ _, x.1) s, as_reply x.2)) tr,
       o) in
  lib = "granted" ∨ cam = "granted" →
  env (2 + n) (LaunchImageLibrary None) = res →
  env (2 + n) LaunchCamera = res →
  uploads (pickFromLibrary supabaseUrl task taskId) (LaunchImageLibrary None)
    res ∧
  uploads (captureWithCamera supabaseUrl task taskId) LaunchCamera res.
Proof.
  cbv zeta. intros Hperm Hl Hc.
  assert (negb (String.eqb (env n RequestMediaLibraryPermissions) "granted")
          && negb (String.eqb (env (Datatypes.S n) RequestCameraPermissions)
                     "granted") = false) as Hp.
  { simpl in Hperm. destruct Hperm as [H|H]; rewrite H; simpl; [done|].
    apply andb_false_r. }
  split; unfold captureWithCamera, pickFromLibrary, ensurePermissions; simpl;
    rewrite Hp; simpl.
  - simpl in Hl. rewrite Hl. unfold upload_first. simpl.
    rewrite exec_of_cells.
    by destruct (play _ _ _ _) as [[c' tr] o].
  - simpl in Hc. rewrite Hc. unfold upload_first. simpl.
    rewrite exec_of_cells.
    by destruct (play _ _ _ _) as [[c' tr] o].
Qed.
Lemma pickers_upload_first_asset_witness :
  (Demo.replies 0 RequestMediaLibraryPermissions = "granted"
   ∨ Demo.replies 1 RequestCameraPermissions = "granted")
  ∧ queries (Flow.exec Demo.replies 0
               (pickFromLibrary "https://x.supabase.co" (Some Sample.task7) 7)
               Demo.detail).1.2
    = [RequestMediaLibraryPermissions; RequestCameraPermissions;
       LaunchImageLibrary None;
       Known (Manipulate "file:///a.jpg" 1600 compress);
       Known AuthSessionUser; Known DateNow;
       Known (UploadAsync
                "https://x.supabase.co/storage/v1/object/task-media/u1/7/1700000000000.jpg"
                "file:///a.jpg.out.jpg" "Bearer tok");
       Known (TaskMediaInsert 7 "u1/7/1700000000000.jpg"
                "u1/7/1700000000000.jpg");
       Known (HapticsNotification FeedbackSuccess);
       Known (TaskMediaSelect 7);
       Known (StorageSign "task-media" "u1/7/1700000000000.jpg" 3600)].
Proof.
  assert (Demo.replies 0 RequestMediaLibraryPermissions = "granted"
          ∨ Demo.replies 1 RequestCameraPermissions = "granted") as Hp
    by (right; reflexivity).
  split; [exact Hp|].
  rewrite (proj1 (pickers_upload_first_asset "https://x.supabase.co"
                    (Some Sample.task7) 7 Demo.replies 0 Demo.detail
                    Demo.asset [] Hp eq_refl eq_refl)).
  vm_compute. reflexivity.
Defined.
End DetailPick.

(** ** The photos of the expense form *)
Section Photos.
Import ExpenseAdd ExpensePhotos.

(** X20: the photo pickers of the expense form only append.  Each asks for
    its own permission; when it is not granted the photos are kept, one
    toast is shown and nothing is launched.  Otherwise the picker is
    launched and the photos afterwards are the photos before followed by
    what was picked: every asset of the library, in order, or the first
    asset of the camera; nothing when the picker was cancelled.  No haptic
    is played and nothing is uploaded. *)
Theorem photo_pickers_append (env : Replies) n (s : State) :
  let appends (pick : Handler) (ask launch : Query) (perm : string)
      (res : Picker.t) (chosen : list Picker.Asset → list Picker.Asset) :=
    let '(s', tr, o) := Flow.exec env n pick s in
    o = Returned tt ∧
    if String.eqb perm "granted" then
      queries tr = [ask; launch] ∧ form s' = form s ∧
      photos s' = photos s ++
        (if Picker.canceled res then []
         else map local (chosen (Js.nullish (Picker.assets res) [])))
    else
      queries tr = [ask] ∧ photos s' = photos s ∧
      saving (form s') = saving (form s) ∧
      uploading (form s') = uploading (form s) ∧
      ∃ text2, toasts (form s') = toasts (form s) ++
        [ {| Toast.type := Toast.error; Toast.text1 := "İzin gerekli";
             Toast.text2 := text2 |} ] in
  appends pickFromLibrary RequestMediaLibraryPermissions
    (LaunchImageLibrary (Some 0%Z)) (env n RequestMediaLibraryPermissions)
    (env (1 + n) (LaunchImageLibrary (Some 0%Z))) (λ l, l) ∧
  appends captureWithCamera RequestCameraPermissions LaunchCamera
    (env n RequestCameraPermissions) (env (1 + n) LaunchCamera) (take 1).
Proof.
  cbv zeta. split; unfold pickFromLibrary, captureWithCamera; simpl.
  - destruct (String.eqb (env n RequestMediaLibraryPermissions) "granted");
      simpl; [|by eauto 10].
    destruct (env (Datatypes.S n) (LaunchImageLibrary (Some 0%Z)))
      as [[|] [[|a l]|]]; simpl; by rewrite ?app_nil_r.
  - destruct (String.eqb (env n RequestCameraPermissions) "granted");
      simpl; [|by eauto 10].
    destruct (env (Datatypes.S n) LaunchCamera)
      as [[|] [[|a l]|]]; simpl; by rewrite ?app_nil_r.
Qed.

Lemma filter_index_remove {A} (idx : Z) (p : list A) : ∀ from : Z,
  filter_index (λ i, negb (i =? idx)%Z) from p
  = if ((from <=? idx) && (idx <? from + Z.of_nat (length p)))%Z
    then take (Z.to_nat (idx - from)) p
         ++ drop (Datatypes.S (Z.to_nat (idx - from))) p
    else p.
Proof.
  induction p as [|x p IH]; intros from; cbn [filter_index length].
  - destruct (_ && _); [by rewrite take_nil|done].
  - rewrite IH, Nat2Z.inj_succ. clear IH.
    destruct (Z.eqb_spec from idx), (Z.leb_spec from idx),
      (Z.leb_spec (from + 1) idx),
      (Z.ltb_spec idx (from + Z.succ (Z.of_nat (length p)))),
      (Z.ltb_spec idx (from + 1 + Z.of_nat (length p)));
      simpl; try lia; try done.
    + subst. by rewrite Z.sub_diag.
    + replace (Z.to_nat (idx - from))
        with (Datatypes.S (Z.to_nat (idx - (from + 1)))) by lia.
      done.
Qed.

(** X21: [removeLocalPhoto] at an index of the list removes the photo at
    that index and keeps the others in order; at any other index, a
    negative one or one past the end, the list is unchanged.  The rest of
    the form is not touched. *)
Theorem removeLocalPhoto_removes_one (idx : Z) (s : State) :
  form (removeLocalPhoto idx s) = form s ∧
  photos (removeLocalPhoto idx s)
  = if ((0 <=? idx) && (idx <? Z.of_nat (length (photos s))))%Z
    then take (Z.to_nat idx) (photos s)
         ++ drop (Datatypes.S (Z.to_nat idx)) (photos s)
    else photos s.
Proof.
  split; [done|]. unfold removeLocalPhoto. simpl.
  rewrite filter_index_remove. by rewrite Z.sub_0_r.
Qed.

(** X22: with the camera permission granted, taking a photo and then
    removing the photo at the index the list had before gives the form back
    as it was, whatever the camera returned. *)
Theorem capture_then_remove (env : Replies) n (s : State) :
  env n RequestCameraPermissions = "granted" →
  let '(s', _, _) := Flow.exec env n captureWithCamera s in
  removeLocalPhoto (Z.of_nat (length (photos s))) s' = s.
Proof.
  intros Hp. unfold captureWithCamera. simpl. rewrite Hp. simpl.
  destruct (env (Datatypes.S n) LaunchCamera) as [[|] [[|a l]|]]; simpl.
  all: unfold removeLocalPhoto, setPhotos; simpl; rewrite filter_index_remove.
  all: destruct s as [f p]; simpl; f_equal.
  all: try (destruct (Z.ltb_spec (Z.of_nat (length p))
                        (0 + Z.of_nat (length p)));
            [lia|]; by rewrite andb_false_r).
  rewrite List.length_app. cbn [length].
  destruct (Z.leb_spec 0 (Z.of_nat (length p))); [|lia].
  destruct (Z.ltb_spec (Z.of_nat (length p))
              (0 + Z.of_nat (length p + 1))); [|lia].
  simpl. rewrite Z.sub_0_r, Nat2Z.id.
  rewrite take_app_length. rewrite drop_ge; [by rewrite app_nil_r|].
  rewrite List.length_app. simpl. lia.
Qed.
Lemma capture_then_remove_witness :
  Demo.replies 0 RequestCameraPermissions = "granted"
  ∧ let '(s', _, _) := Flow.exec Demo.replies 0 captureWithCamera Demo.album in
    photos s' = [local Demo.asset]
    ∧ removeLocalPhoto (Z.of_nat (length (photos Demo.album))) s'
      = Demo.album.
Proof.
  assert (Demo.replies 0 RequestCameraPermissions = "granted") as Hp
    by reflexivity.
  split; [exact Hp|].
  pose proof (capture_then_remove Demo.replies 0 Demo.album Hp) as H.
  destruct (Flow.exec Demo.replies 0 captureWithCamera Demo.album)
    as [[s' tr] o] eqn:E.
  split; [|exact H].
  vm_compute in E. injection E as <- _ _. reflexivity.
Defined.
End Photos.

(** ** Pinch to zoom *)
Section Zooming.
Import Zoom.

Lemma SFcompare_antisym (x y : Js.number) c :
  SFcompare x y = Some c → SFcompare y x = Some (CompOpp c).
Proof.
  destruct x as [sx|sx| |sx mx ex], y as [sy|sy| |sy my ey]; simpl;
    try discriminate; intros [= <-];
    try (by destruct sx); try (by destruct sy);
    try (by destruct sx, sy).
  destruct sx, sy; simpl; try done.
  - rewrite (Z.compare_antisym ex ey).
    destruct (ex ?= ey)%Z; simpl; try done.
    change (PosDef.Pos.compare_cont Eq) with Pos.compare.
    by rewrite (Pos.compare_antisym mx my).
  - rewrite (Z.compare_antisym ex ey).
    destruct (ex ?= ey)%Z; simpl; try done.
    change (PosDef.Pos.compare_cont Eq) with Pos.compare.
    by rewrite (Pos.compare_antisym mx my).
Qed.

Lemma SFcompare_Eq_finite s m e (y : Js.number) :
  SFcompare (S754_finite s m e) y = Some Eq → y = S754_finite s m e.
Proof.
  destruct y as [sy|sy| |sy my ey]; simpl; try discriminate;
    try (by destruct s); try (by destruct sy).
  destruct s, sy; try discriminate; intros [= H].
  - destruct (Z.compare_spec e ey) as [->| |]; try discriminate.
    apply (f_equal CompOpp) in H. rewrite CompOpp_involutive in H. simpl in H.
    apply Pos.compare_eq in H. by subst.
  - destruct (Z.compare_spec e ey) as [->| |]; try discriminate.
    apply Pos.compare_eq in H. by subst.
Qed.

Lemma clamp_cases (next : Js.number) :
  max (Js.of_int 1) (min (Js.of_int 4) next)
  = if Js.isNaN next then Js.NaN
    else if Js.gt next (Js.of_int 4) then Js.of_int 4
    else if Js.gt (Js.of_int 1) next then Js.of_int 1
    else next.
Proof.
  unfold min, max, Js.gt, SFltb.
  destruct (SFcompare (Js.of_int 4) next) as [[| |]|] eqn:E4.
  - apply SFcompare_Eq_finite in E4. by subst.
  - replace (Js.isNaN next) with false by (by destruct next).
    by vm_compute.
  - replace (Js.isNaN next) with false by (by destruct next).
    destruct (SFcompare (Js.of_int 1) next) as [[| |]|] eqn:E1.
    + apply SFcompare_Eq_finite in E1. by subst.
    + by rewrite (SFcompare_antisym _ _ _ E1).
    + by rewrite (SFcompare_antisym _ _ _ E1).
    + by destruct next.
  - destruct next; try done.
Qed.

(** X23: an event that ends a pinch stores the product of the stored
    factor and the pinch scale (1 when the event has none) clamped to
    [1, 4]: 4 when the product is above 4, 1 when it is below 1, the
    product itself otherwise, and NaN when the product is NaN.  The
    animated base value is set to the stored factor and the pinch value
    back to 1; any other event changes nothing. *)
Theorem zoom_is_clamped (e : NativeEvent) (z : Refs) :
  let next :=
    Js.mul (baseScaleNum z) (Js.nullish (scale e) (Js.of_int 1)) in
  let z' := onPinchStateChange e z in
  if ends e then
    baseScale z' = baseScaleNum z' ∧ pinchScale z' = Js.of_int 1 ∧
    baseScaleNum z'
    = if Js.isNaN next then Js.NaN
      else if Js.gt next (Js.of_int 4) then Js.of_int 4
      else if Js.gt (Js.of_int 1) next then Js.of_int 1
      else next
  else z' = z.
Proof.
  cbv zeta. unfold onPinchStateChange. destruct (ends e); [|done].
  cbn [baseScale baseScaleNum pinchScale]. by rewrite clamp_cases.
Qed.

Lemma clamp_bounds (next : Js.number) :
  let r := max (Js.of_int 1) (min (Js.of_int 4) next) in
  Js.isNaN r = true ∨ (Js.le (Js.of_int 1) r = true ∧ Js.le r (Js.of_int 4) = true).
Proof.
  cbv zeta. rewrite clamp_cases.
  destruct (Js.isNaN next) eqn:En; [by left|]. right.
  unfold Js.gt, Js.le, SFltb, SFleb.
  destruct (SFcompare (Js.of_int 4) next) as [[| |]|] eqn:E4.
  - apply SFcompare_Eq_finite in E4. by subst.
  - by vm_compute.
  - pose proof (SFcompare_antisym _ _ _ E4) as E4'. cbn [CompOpp] in E4'.
    destruct (SFcompare next (Js.of_int 1)) as [[| |]|] eqn:E1.
    + by rewrite (SFcompare_antisym _ _ _ E1), E4'.
    + by vm_compute.
    + by rewrite (SFcompare_antisym _ _ _ E1), E4'.
    + by destruct next.
  - by destruct next.
Qed.

(** X24: after a reset and any sequence of pinch events the stored factor
    is between 1 and 4, unless it is NaN, and the animated base value
    equals it. *)
Theorem zoom_stays_within_bounds (events : list NativeEvent) (z0 : Refs) :
  let z := foldl (λ z e, onPinchStateChange e z) (resetZoom z0) events in
  baseScale z = baseScaleNum z ∧
  (Js.isNaN (baseScaleNum z) = true ∨
   (Js.le (Js.of_int 1) (baseScaleNum z) = true ∧
    Js.le (baseScaleNum z) (Js.of_int 4) = true)).
Proof.
  cbv zeta.
  assert (baseScale (resetZoom z0) = baseScaleNum (resetZoom z0) ∧
    (Js.isNaN (baseScaleNum (resetZoom z0)) = true ∨
     (Js.le (Js.of_int 1) (baseScaleNum (resetZoom z0)) = true ∧
      Js.le (baseScaleNum (resetZoom z0)) (Js.of_int 4) = true))) as H.
  { split; [done|]. right. by vm_compute. }
  revert H. generalize (resetZoom z0). clear z0.
  induction events as [|e events IH]; intros z H; [done|].
  simpl. apply IH. unfold onPinchStateChange.
  destruct (ends e); [|done]. cbn [baseScale baseScaleNum].
  split; [done|]. apply clamp_bounds.
Qed.
End Zooming.
